(** * DE_Project: the OLTP-to-warehouse ETL pipeline (etl.py, config.py)

    A shallow embedding of the pipeline and the properties of its
    extract / transform / load stages and of the sales mart.

    The two databases and pandas are external to the repository.  They are
    modelled as follows.
    - A cell is [VNull], an integer or a text; a [DataFrame] is a list of
      column labels and a list of rows, each row a list of cells read by
      position.
    - A database is a finite map from physical table names to frames.
      An INSERT is refused when its column list is ill-formed and a CREATE
      TABLE when a table it references is missing.  The column types and
      the NOT NULL, PRIMARY KEY and FOREIGN KEY clauses of the statements
      are not part of the model, so the database may refuse rows that the
      model stores.  What a load leaves behind is therefore stated for
      loads that return.
    - Python exceptions are values of [exn]; every function that can raise
      or that touches a database or the console lives in the monad [M],
      which threads the [world] and stops at the first exception. *)

From Stdlib Require Import Ascii.
From stdpp Require Import base strings list gmap fin_maps pretty.

Open Scope Z_scope.

(** ** Cells and frames *)

Inductive value : Type :=
| VNull
| VInt (z : Z)
| VStr (s : string).

#[global] Instance value_eq_dec : EqDecision value.
Proof. solve_decision. Defined.

#[global] Instance value_inhabited : Inhabited value := populate VNull.

Record DataFrame : Type := mkFrame {
  columns : list string;
  rows : list (list value)
}.

#[global] Instance DataFrame_eq_dec : EqDecision DataFrame.
Proof. solve_decision. Defined.

(** The cell of a row at a position; a row shorter than the header reads
    as null there. *)
Definition cell (r : list value) (i : nat) : value := default VNull (r !! i).

(** ** Exceptions, results, the world and the monad *)

Inductive exn : Type :=
| ValueError (msg : string)
| KeyError (label : string)
| DatabaseError (msg : string).

Inductive result (A : Type) : Type :=
| Ok (a : A)
| Raise (e : exn).
Arguments Ok {A} a.
Arguments Raise {A} e.

Inductive store : Type := OLTP | DWH.

Inductive event : Type :=
| EvPrint (line : string)
| EvRead (s : store) (table : string)
| EvInsert (table : string) (n : nat)
| EvExecute (statement : string).

#[global] Instance store_eq_dec : EqDecision store.
Proof. solve_decision. Defined.
#[global] Instance event_eq_dec : EqDecision event.
Proof. solve_decision. Defined.

Record world : Type := mkWorld {
  oltp : gmap string DataFrame;      (* the source store *)
  dwh : gmap string DataFrame;       (* the warehouse *)
  dm_sales_seq : Z;                  (* next value of dm_sales.sale_id *)
  trace : list event                 (* what happened, oldest first *)
}.

Definition M (A : Type) : Type := world → result A * world.

Definition ret {A} (a : A) : M A := λ w, (Ok a, w).
Definition raise {A} (e : exn) : M A := λ w, (Raise e, w).
Definition bind {A B} (m : M A) (k : A → M B) : M B :=
  λ w, match m w with
       | (Ok a, w') => k a w'
       | (Raise e, w') => (Raise e, w')
       end.
Definition lift {A} (r : result A) : M A := λ w, (r, w).

Declare Scope etl_scope.
Delimit Scope etl_scope with etl.
Notation "x <- m ;; k" := (bind m (λ x, k))
  (at level 100, m at next level, right associativity) : etl_scope.
Notation "m ;; k" := (bind m (λ _, k))
  (at level 100, right associativity) : etl_scope.
Open Scope etl_scope.

Definition emit (e : event) : M unit :=
  λ w, (Ok tt, mkWorld (oltp w) (dwh w) (dm_sales_seq w) (trace w ++ [e])).

Definition print (line : string) : M unit := emit (EvPrint line).

(** [for x in xs: body(x)] *)
Fixpoint for_each {A} (xs : list A) (body : A → M unit) : M unit :=
  match xs with
  | [] => ret tt
  | x :: xs' => body x ;; for_each xs' body
  end.

(** ** Python dictionaries of config.py: insertion-ordered, by key *)

Definition dict (V : Type) : Type := list (string * V).

Fixpoint dict_get {V} (d : dict V) (k : string) : option V :=
  match d with
  | [] => None
  | (k', v) :: d' => if decide (k' = k) then Some v else dict_get d' k
  end.

Definition dict_keys {V} (d : dict V) : list string := d.*1.
Definition dict_values {V} (d : dict V) : list V := d.*2.
Definition dict_items {V} (d : dict V) : list (string * V) := d.

(** ** config.py *)

Definition oltp_tables : dict string :=
  [ ("users", "tb_users");
    ("payments", "tb_payments");
    ("shippers", "tb_shippers");
    ("ratings", "tb_ratings");
    ("vouchers", "tb_vouchers");
    ("orders", "tb_orders");
    ("products", "tb_products");
    ("product_category", "tb_product_category");
    ("order_items", "tb_order_items") ].

Definition warehouse_tables : dict string :=
  [ ("users", "dim_user");
    ("payments", "dim_payment");
    ("shippers", "dim_shipper");
    ("ratings", "dim_rating");
    ("vouchers", "dim_voucher");
    ("orders", "fact_orders");
    ("product_category", "dim_product_category");
    ("products", "dim_product");
    ("order_items", "fact_order_items") ].

Definition dimension_columns : dict (list string) :=
  [ ("dim_user", ["user_id"; "user_first_name"; "user_last_name";
                  "user_gender"; "user_address"; "user_birthday"; "user_join"]);
    ("dim_payment", ["payment_id"; "payment_name"; "payment_status"]);
    ("dim_shipper", ["shipper_id"; "shipper_name"]);
    ("dim_rating", ["rating_id"; "rating_level"; "rating_status"]);
    ("dim_voucher", ["voucher_id"; "voucher_name"; "voucher_price";
                     "voucher_created"; "user_id"]);
    ("fact_orders", ["order_id"; "order_date"; "user_id"; "payment_id";
                     "shipper_id"; "order_price"; "order_discount";
                     "voucher_id"; "order_total"; "rating_id"]);
    ("dim_product_category", ["product_category_id"; "product_category_name"]);
    ("dim_product", ["product_id"; "product_category_id"; "product_name";
                     "product_created"; "product_price"; "product_discount"]);
    ("fact_order_items", ["order_item_id"; "order_id"; "product_id";
                          "order_item_quantity"; "product_discount";
                          "product_subdiscount"; "product_price";
                          "product_subprice"]) ].

(** A [CREATE TABLE IF NOT EXISTS] statement: the table, its columns in the
    order of the statement, and the tables its FOREIGN KEY clauses name. *)
Record create_table : Type := mkCreate {
  ct_table : string;
  ct_columns : list string;
  ct_references : list string
}.

Definition ddl_statements : dict create_table :=
  [ ("dim_user", mkCreate "dim_user"
       ["user_id"; "user_first_name"; "user_last_name"; "user_gender";
        "user_address"; "user_birthday"; "user_join"] []);
    ("dim_payment", mkCreate "dim_payment"
       ["payment_id"; "payment_name"; "payment_status"] []);
    ("dim_shipper", mkCreate "dim_shipper"
       ["shipper_id"; "shipper_name"] []);
    ("dim_rating", mkCreate "dim_rating"
       ["rating_id"; "rating_level"; "rating_status"] []);
    ("dim_voucher", mkCreate "dim_voucher"
       ["voucher_id"; "voucher_name"; "voucher_price"; "voucher_created";
        "user_id"] []);
    ("fact_orders", mkCreate "fact_orders"
       ["order_id"; "order_date"; "user_id"; "payment_id"; "shipper_id";
        "order_price"; "order_discount"; "voucher_id"; "order_total";
        "rating_id"]
       ["dim_user"; "dim_payment"; "dim_shipper"; "dim_voucher"; "dim_rating"]);
    ("dim_product_category", mkCreate "dim_product_category"
       ["product_category_id"; "product_category_name"] []);
    ("dim_product", mkCreate "dim_product"
       ["product_id"; "product_category_id"; "product_name"; "product_created";
        "product_price"; "product_discount"]
       ["dim_product_category"]);
    ("fact_order_items", mkCreate "fact_order_items"
       ["order_item_id"; "order_id"; "product_id"; "order_item_quantity";
        "product_discount"; "product_subdiscount"; "product_price";
        "product_subprice"]
       ["dim_product"; "fact_orders"]) ].

(** [ddl_marts['dim_sales']]; its first column is [sale_id SERIAL]. *)
Definition ddl_dim_sales : create_table :=
  mkCreate "dm_sales"
    ["sale_id"; "order_id"; "order_date"; "user_id"; "user_name";
     "order_item_id"; "order_item_quantity"; "product_id"; "product_name";
     "product_category_id"; "product_category_name"; "payment_type";
     "shipper_name"; "order_price"; "order_discount"; "voucher_name";
     "order_total"]
    ["fact_orders"; "dim_user"; "fact_order_items"; "dim_product";
     "dim_product_category"].

(** [ddl_marts['insert_dm_sales']]: the column list of the INSERT, in the
    order of the statement. *)
Definition dm_sales_insert_columns : list string :=
  ["order_id"; "order_date"; "user_id"; "user_name"; "payment_type";
   "shipper_name"; "order_price"; "order_discount"; "voucher_name";
   "order_total"; "order_item_id"; "order_item_quantity"; "product_id";
   "product_name"; "product_category_id"; "product_category_name"].

(** ** pandas: labels, selection, merge, rename *)

(** Every position at which a label occurs in a header. *)
Fixpoint label_positions (cols : list string) (c : string) : list nat :=
  match cols with
  | [] => []
  | c' :: cs =>
      (if decide (c' = c) then [0%nat] else []) ++ (S <$> label_positions cs c)
  end.

Inductive located : Type :=
| NoLabel
| OneLabel (i : nat)
| ManyLabels.

Definition locate (cols : list string) (c : string) : located :=
  match label_positions cols c with
  | [] => NoLabel
  | [i] => OneLabel i
  | _ => ManyLabels
  end.

(** [df[c]] as a list of cells ([Series.tolist()]). *)
Definition getitem_col (df : DataFrame) (c : string) : result (list value) :=
  match locate (columns df) c with
  | OneLabel i => Ok ((λ r, cell r i) <$> rows df)
  | NoLabel => Raise (KeyError c)
  | ManyLabels => Raise (ValueError "label selects more than one column")
  end.

(** Positions selected by [df[wanted]]: for each wanted label, in order,
    every column carrying it; [KeyError] on the first label that no column
    carries. *)
Fixpoint take_labels (cols wanted : list string) : result (list nat) :=
  match wanted with
  | [] => Ok []
  | c :: cs =>
      match label_positions cols c with
      | [] => Raise (KeyError c)
      | ps => match take_labels cols cs with
              | Ok qs => Ok (ps ++ qs)
              | Raise e => Raise e
              end
      end
  end.

(** [df[wanted]] for a list of labels. *)
Definition getitem_cols (df : DataFrame) (wanted : list string) : result DataFrame :=
  match take_labels (columns df) wanted with
  | Ok ps => Ok (mkFrame ((λ i, default "" (columns df !! i)) <$> ps)
                         ((λ r, cell r <$> ps) <$> rows df))
  | Raise e => Raise e
  end.

Inductive join_how : Type := HowInner | HowLeft.

(** [left.merge(right, how=how, on=on)] with the default suffixes.  The key
    column of [right] is dropped; a label carried by both sides gets [_x] on
    the left and [_y] on the right; key cells match by equality, null with
    null included; a left join keeps an unmatched left row padded with
    nulls. *)
Definition merge (left right : DataFrame) (how : join_how) (on : string)
  : result DataFrame :=
  match locate (columns right) on with
  | NoLabel => Raise (KeyError on)
  | ManyLabels => Raise (ValueError ("The column label '" +:+ on +:+ "' is not unique."))
  | OneLabel j =>
      match locate (columns left) on with
      | NoLabel => Raise (KeyError on)
      | ManyLabels => Raise (ValueError ("The column label '" +:+ on +:+ "' is not unique."))
      | OneLabel i =>
          let others := delete j (columns right) in
          let lcols := (λ c, if decide (c ∈ others) then c +:+ "_x" else c) <$> columns left in
          let rcols := (λ c, if decide (c ∈ columns left) then c +:+ "_y" else c) <$> others in
          let joined (l : list value) : list (list value) :=
            match how, filter (λ r, cell r j = cell l i) (rows right) with
            | HowLeft, [] => [l ++ replicate (length others) VNull]
            | _, hits => (λ r, l ++ delete j r) <$> hits
            end in
          Ok (mkFrame (lcols ++ rcols) (rows left ≫= joined))
      end
  end.

(** [df.rename(columns={old: new}, inplace=True)] *)
Definition rename (df : DataFrame) (old new : string) : DataFrame :=
  mkFrame ((λ c, if decide (c = old) then new else c) <$> columns df) (rows df).

(** ** SQL on a store *)

Definition with_trace (w : world) (t : list event) : world :=
  mkWorld (oltp w) (dwh w) (dm_sales_seq w) t.
Definition with_dwh (w : world) (d : gmap string DataFrame) : world :=
  mkWorld (oltp w) d (dm_sales_seq w) (trace w).

Definition tables (s : store) (w : world) : gmap string DataFrame :=
  match s with OLTP => oltp w | DWH => dwh w end.

(** [pd.read_sql("SELECT * FROM table", con)] *)
Definition read_sql_table (s : store) (table : string) : M DataFrame :=
  emit (EvRead s table) ;;
  λ w, match tables s w !! table with
       | Some df => (Ok df, w)
       | None => (Raise (DatabaseError ("relation " +:+ table +:+ " does not exist")), w)
       end.

(** [pd.read_sql("SELECT column FROM table", conn)] on the warehouse. *)
Definition read_sql_column (table column : string) : M DataFrame :=
  emit (EvRead DWH table) ;;
  λ w, match dwh w !! table with
       | None => (Raise (DatabaseError ("relation " +:+ table +:+ " does not exist")), w)
       | Some T =>
           match label_positions (columns T) column with
           | [] => (Raise (DatabaseError ("column " +:+ column +:+ " does not exist")), w)
           | i :: _ => (Ok (mkFrame [column] ((λ r, [cell r i]) <$> rows T)), w)
           end
       end.

(** The row stored for [INSERT INTO t (cols) VALUES r]: a column of the
    table that the statement does not name is null. *)
Definition align (cols tcols : list string) (r : list value) : list value :=
  (λ c, match label_positions cols c with
        | i :: _ => cell r i
        | [] => VNull
        end) <$> tcols.

(** The rows an INSERT stores; the statement is rejected when it names a
    column twice or names a column the table does not have. *)
Definition sql_values (T : DataFrame) (cols : list string) (rs : list (list value))
  : result (list (list value)) :=
  if decide (NoDup cols ∧ Forall (λ c, c ∈ columns T) cols)
  then Ok (align cols (columns T) <$> rs)
  else Raise (DatabaseError "column of the statement is repeated or does not exist").

(** [df.to_sql(table, conn, index=False, if_exists='append', method='multi')]:
    a missing table is created from the frame; nothing is sent for a frame
    without rows.  Rows are stored as sent: the types and constraints that
    the CREATE TABLE statement gave the table are not checked. *)
Definition to_sql (df : DataFrame) (table : string) : M unit :=
  emit (EvInsert table (length (rows df))) ;;
  λ w, match dwh w !! table with
       | None =>
           if decide (NoDup (columns df))
           then (Ok tt, with_dwh w (<[table := df]> (dwh w)))
           else (Raise (DatabaseError "column specified more than once"), w)
       | Some T =>
           match rows df with
           | [] => (Ok tt, w)
           | _ =>
               match sql_values T (columns df) (rows df) with
               | Ok new => (Ok tt, with_dwh w (<[table := mkFrame (columns T) (rows T ++ new)]> (dwh w)))
               | Raise e => (Raise e, w)
               end
           end
       end.

(** [conn.execute] of one CREATE TABLE IF NOT EXISTS statement.  Creating
    dm_sales creates the sequence behind its SERIAL column.  A referenced
    table has to exist; that it has the referenced column under a unique
    key is not checked. *)
Definition execute_create (d : create_table) : M unit :=
  emit (EvExecute ("CREATE TABLE IF NOT EXISTS " +:+ ct_table d)) ;;
  λ w, match dwh w !! ct_table d with
       | Some _ => (Ok tt, w)
       | None =>
           if decide (Forall (λ t, is_Some (dwh w !! t)) (ct_references d))
           then (Ok tt, mkWorld (oltp w)
                          (<[ct_table d := mkFrame (ct_columns d) []]> (dwh w))
                          (if decide (ct_table d = "dm_sales") then 1 else dm_sales_seq w)
                          (trace w))
           else (Raise (DatabaseError "referenced relation does not exist"), w)
       end.

(** ** etl.py *)

(** [create_tables] *)
Definition create_tables : M unit :=
  for_each (dict_values ddl_statements) execute_create.

(** [extract_data]: [sa.create_engine] opens no connection, so nothing has
    happened on the source store when the name check raises. *)
Definition extract_data (table_name : string) : M DataFrame :=
  match dict_get oltp_tables table_name with
  | None =>
      raise (ValueError ("Table name '" +:+ table_name +:+
                         "' not found in oltp_tables dictionary"))
  | Some physical =>
      df <- read_sql_table OLTP physical ;;
      print ("Extract Data " +:+ physical +:+ " Success") ;;
      ret df
  end.

(** [transform_data]: [if columns:] is false for [None] and for an empty
    list. *)
Definition transform_data (df : DataFrame) (target_table : string) : M DataFrame :=
  df <- match dict_get dimension_columns target_table with
        | Some (c :: cs) => lift (getitem_cols df (c :: cs))
        | Some [] | None => ret df
        end ;;
  print ("Transform Data " +:+ target_table +:+ " Success") ;;
  ret df.

(** [{table: extract_data(table) for table in oltp_tables.keys()}] *)
Fixpoint extract_all (names : list string) (acc : gmap string DataFrame)
  : M (gmap string DataFrame) :=
  match names with
  | [] => ret acc
  | table :: rest =>
      df <- extract_data table ;;
      extract_all rest (<[table := df]> acc)
  end.

(** [dataframes[name]] *)
Definition getitem_dict (d : gmap string DataFrame) (name : string) : result DataFrame :=
  match d !! name with
  | Some df => Ok df
  | None => Raise (KeyError name)
  end.

Definition and_then {A B} (r : result A) (k : A → result B) : result B :=
  match r with
  | Ok a => k a
  | Raise e => Raise e
  end.

Declare Scope result_scope.
Delimit Scope result_scope with res.
Notation "x <- r ;; k" := (and_then r (λ x, k))
  (at level 100, r at next level, right associativity) : result_scope.

(** Lines 43-49 of [transform_fact_orders]: the five merges and the
    rename, on the extracted frames. *)
Definition join_fact_orders (dataframes : gmap string DataFrame) : result DataFrame :=
  (df_orders <- getitem_dict dataframes "orders" ;;
   users <- getitem_dict dataframes "users" ;;
   df_orders <- merge df_orders users HowInner "user_id" ;;
   payments <- getitem_dict dataframes "payments" ;;
   df_orders <- merge df_orders payments HowInner "payment_id" ;;
   shippers <- getitem_dict dataframes "shippers" ;;
   df_orders <- merge df_orders shippers HowInner "shipper_id" ;;
   ratings <- getitem_dict dataframes "ratings" ;;
   df_orders <- merge df_orders ratings HowInner "rating_id" ;;
   vouchers <- getitem_dict dataframes "vouchers" ;;
   df_orders <- merge df_orders vouchers HowLeft "voucher_id" ;;
   Ok (rename df_orders "user_id_x" "user_id"))%res.

(** [dimension_columns.get(name)] handed to [df[...]]: indexing with [None]
    is a [KeyError]. *)
Definition getitem_declared (df : DataFrame) (name : string) : result DataFrame :=
  match dict_get dimension_columns name with
  | Some cols => getitem_cols df cols
  | None => Raise (KeyError "None")
  end.

(** [transform_fact_orders] *)
Definition transform_fact_orders : M DataFrame :=
  dataframes <- extract_all (dict_keys oltp_tables) ∅ ;;
  df_orders <- lift (join_fact_orders dataframes) ;;
  lift (getitem_declared df_orders "fact_orders").

(** Lines 59-61 of [transform_fact_order_items]. *)
Definition join_fact_order_items (dataframes : gmap string DataFrame) : result DataFrame :=
  (df_order_items <- getitem_dict dataframes "order_items" ;;
   orders <- getitem_dict dataframes "orders" ;;
   df_order_items <- merge df_order_items orders HowInner "order_id" ;;
   products <- getitem_dict dataframes "products" ;;
   merge df_order_items products HowInner "product_id")%res.

(** [transform_fact_order_items] *)
Definition transform_fact_order_items : M DataFrame :=
  dataframes <- extract_all (dict_keys oltp_tables) ∅ ;;
  df_order_items <- lift (join_fact_order_items dataframes) ;;
  lift (getitem_declared df_order_items "fact_order_items").

(** [get_unique_key] *)
Definition get_unique_key (table_name : string) : result string :=
  if decide (table_name = "dim_user") then Ok "user_id"
  else if decide (table_name = "dim_payment") then Ok "payment_id"
  else if decide (table_name = "dim_shipper") then Ok "shipper_id"
  else if decide (table_name = "dim_rating") then Ok "rating_id"
  else if decide (table_name = "dim_voucher") then Ok "voucher_id"
  else if decide (table_name = "fact_orders") then Ok "order_id"
  else if decide (table_name = "dim_product") then Ok "product_id"
  else if decide (table_name = "dim_product_category") then Ok "product_category_id"
  else if decide (table_name = "fact_order_items") then Ok "order_item_id"
  else Raise (ValueError "Table name not recognized.").

(** [deduplicate_data]: [isin] is membership in [existing_keys]; the rows
    kept are those of the negated mask.  A key label carried by several
    columns of [new_data] makes the mask a frame, which the indexing
    rejects. *)
Definition deduplicate_data (new_data existing_data : DataFrame) (unique_key : string)
  : result DataFrame :=
  (existing_keys <- getitem_col existing_data unique_key ;;
   match locate (columns new_data) unique_key with
   | OneLabel i =>
       Ok (mkFrame (columns new_data)
                   (filter (λ r, cell r i ∉ existing_keys) (rows new_data)))
   | NoLabel => Raise (KeyError unique_key)
   | ManyLabels => Raise (ValueError "cannot reindex on an axis with duplicate labels")
   end)%res.

(** [load_data] *)
Definition load_data (df : DataFrame) (table_name : string) : M unit :=
  unique_key <- lift (get_unique_key table_name) ;;
  existing_data <- read_sql_column table_name unique_key ;;
  df <- lift (deduplicate_data df existing_data unique_key) ;;
  to_sql df table_name ;;
  print ("Load Data " +:+ table_name +:+ " Success").

(** ** The mart statement of config.py *)

(** [a = b] in an ON clause: never true when a side is null. *)
Definition sql_eq (a b : value) : bool :=
  match a, b with
  | VNull, _ | _, VNull => false
  | _, _ => bool_decide (a = b)
  end.

Definition sql_text (a : value) : string :=
  match a with
  | VNull => ""
  | VInt z => pretty z
  | VStr s => s
  end.

(** [a || b]: null when a side is null. *)
Definition sql_concat (a b : value) : value :=
  match a, b with
  | VNull, _ | _, VNull => VNull
  | _, _ => VStr (sql_text a +:+ sql_text b)
  end.

(** A table of the FROM clause together with the columns the statement
    reads from it. *)
Definition sql_relation (db : gmap string DataFrame) (table : string) (cols : list string)
  : result DataFrame :=
  match db !! table with
  | None => Raise (DatabaseError ("relation " +:+ table +:+ " does not exist"))
  | Some T =>
      if decide (Forall (λ c, c ∈ columns T) cols) then Ok T
      else Raise (DatabaseError ("column of " +:+ table +:+ " does not exist"))
  end.

(** [alias.column] on a row of the table. *)
Definition field (T : DataFrame) (c : string) (r : list value) : value :=
  match label_positions (columns T) c with
  | i :: _ => cell r i
  | [] => VNull
  end.

(** The SELECT of [insert_dm_sales]: seven inner joins from fact_orders. *)
Definition select_dm_sales (db : gmap string DataFrame) : result (list (list value)) :=
  (fo <- sql_relation db "fact_orders"
           ["order_id"; "order_date"; "user_id"; "order_price"; "order_discount";
            "order_total"; "payment_id"; "shipper_id"; "voucher_id"] ;;
   du <- sql_relation db "dim_user" ["user_id"; "user_first_name"; "user_last_name"] ;;
   dp <- sql_relation db "dim_payment" ["payment_id"; "payment_name"] ;;
   ds <- sql_relation db "dim_shipper" ["shipper_id"; "shipper_name"] ;;
   dv <- sql_relation db "dim_voucher" ["voucher_id"; "voucher_name"] ;;
   foi <- sql_relation db "fact_order_items"
            ["order_id"; "order_item_id"; "order_item_quantity"; "product_id"] ;;
   dp2 <- sql_relation db "dim_product"
            ["product_id"; "product_name"; "product_category_id"] ;;
   dpc <- sql_relation db "dim_product_category"
            ["product_category_id"; "product_category_name"] ;;
   Ok (rows fo ≫= λ r_fo,
       filter (λ r, sql_eq (field fo "user_id" r_fo) (field du "user_id" r)) (rows du) ≫= λ r_du,
       filter (λ r, sql_eq (field fo "payment_id" r_fo) (field dp "payment_id" r)) (rows dp) ≫= λ r_dp,
       filter (λ r, sql_eq (field fo "shipper_id" r_fo) (field ds "shipper_id" r)) (rows ds) ≫= λ r_ds,
       filter (λ r, sql_eq (field fo "voucher_id" r_fo) (field dv "voucher_id" r)) (rows dv) ≫= λ r_dv,
       filter (λ r, sql_eq (field fo "order_id" r_fo) (field foi "order_id" r)) (rows foi) ≫= λ r_foi,
       filter (λ r, sql_eq (field foi "product_id" r_foi) (field dp2 "product_id" r)) (rows dp2) ≫= λ r_dp2,
       filter (λ r, sql_eq (field dp2 "product_category_id" r_dp2)
                           (field dpc "product_category_id" r)) (rows dpc) ≫= λ r_dpc,
       [[ field fo "order_id" r_fo; field fo "order_date" r_fo; field fo "user_id" r_fo;
          sql_concat (sql_concat (field du "user_first_name" r_du) (VStr " "))
                     (field du "user_last_name" r_du);
          field dp "payment_name" r_dp; field ds "shipper_name" r_ds;
          field fo "order_price" r_fo; field fo "order_discount" r_fo;
          field dv "voucher_name" r_dv; field fo "order_total" r_fo;
          field foi "order_item_id" r_foi; field foi "order_item_quantity" r_foi;
          field dp2 "product_id" r_dp2; field dp2 "product_name" r_dp2;
          field dpc "product_category_id" r_dpc;
          field dpc "product_category_name" r_dpc ]]))%res.

(** The value the SERIAL column takes in the [i]-th inserted row. *)
Definition fill_serial (tcols : list string) (next : Z) (i : nat) (r : list value)
  : list value :=
  match label_positions tcols "sale_id" with
  | p :: _ => <[p := VInt (next + Z.of_nat i)]> r
  | [] => r
  end.

(** [conn.execute(ddl_marts['insert_dm_sales'])]: TRUNCATE, then INSERT the
    result of the SELECT; the two are sent as one statement string, so a
    failure leaves the table as it was.  TRUNCATE does not restart the
    sequence. *)
Definition execute_insert_dm_sales : M unit :=
  emit (EvExecute "TRUNCATE TABLE dm_sales; INSERT INTO dm_sales") ;;
  λ w, match dwh w !! "dm_sales" with
       | None => (Raise (DatabaseError "relation dm_sales does not exist"), w)
       | Some T =>
           match (selected <- select_dm_sales (dwh w) ;;
                  sql_values T dm_sales_insert_columns selected)%res with
           | Raise e => (Raise e, w)
           | Ok new =>
               (Ok tt,
                mkWorld (oltp w)
                  (<["dm_sales" :=
                       mkFrame (columns T)
                               (imap (fill_serial (columns T) (dm_sales_seq w)) new)]> (dwh w))
                  (dm_sales_seq w + Z.of_nat (length new))
                  (trace w))
           end
       end.

(** [create_and_insert_dm_sales] *)
Definition create_and_insert_dm_sales : M unit :=
  execute_create ddl_dim_sales ;;
  execute_insert_dm_sales ;;
  print "Data Mart Has Create Success".

(** The body of the loop of [etl_process], for one item of
    [warehouse_tables]. *)
Definition etl_process_body (item : string * string) : M unit :=
  let '(dim_table, target_table) := item in
  if decide (dim_table = "fact_orders") then
    df_fact_orders <- transform_fact_orders ;;
    load_data df_fact_orders target_table
  else if decide (dim_table = "fact_order_items") then
    df_fact_order_items <- transform_fact_order_items ;;
    load_data df_fact_order_items target_table
  else
    let source_table := dim_table in
    df <- extract_data source_table ;;
    transformed_df <- transform_data df dim_table ;;
    load_data transformed_df target_table.

(** [etl_process] *)
Definition etl_process : M unit :=
  create_tables ;;
  for_each (dict_items warehouse_tables) etl_process_body ;;
  create_and_insert_dm_sales.

(** ** A seeded source: the end-to-end scenario

    One user, one payment, one shipper, one rating, no voucher, one order
    (without voucher) linking them, one product with its category, one order
    item.  The source tables carry the columns of the warehouse tables they
    feed. *)
Definition seeded_users : DataFrame :=
  mkFrame
    ["user_id"; "user_first_name"; "user_last_name"; "user_gender";
     "user_address"; "user_birthday"; "user_join"]
    [[VInt 1; VStr "Siti"; VStr "Rahma"; VStr "F"; VStr "Bandung";
      VStr "1995-04-02"; VStr "2023-01-15"]].

Definition seeded_payments : DataFrame :=
  mkFrame ["payment_id"; "payment_name"; "payment_status"]
          [[VInt 1; VStr "transfer"; VInt 1]].

Definition seeded_shippers : DataFrame :=
  mkFrame ["shipper_id"; "shipper_name"] [[VInt 1; VStr "kurir"]].

Definition seeded_ratings : DataFrame :=
  mkFrame ["rating_id"; "rating_level"; "rating_status"]
          [[VInt 1; VInt 5; VStr "puas"]].

Definition seeded_vouchers : DataFrame :=
  mkFrame ["voucher_id"; "voucher_name"; "voucher_price"; "voucher_created"; "user_id"]
          [].

Definition seeded_orders : DataFrame :=
  mkFrame
    ["order_id"; "order_date"; "user_id"; "payment_id"; "shipper_id";
     "order_price"; "order_discount"; "voucher_id"; "order_total"; "rating_id"]
    [[VInt 1; VStr "2024-02-01"; VInt 1; VInt 1; VInt 1; VInt 50000;
      VInt 0; VNull; VInt 50000; VInt 1]].

Definition seeded_products : DataFrame :=
  mkFrame
    ["product_id"; "product_category_id"; "product_name"; "product_created";
     "product_price"; "product_discount"]
    [[VInt 1; VInt 1; VStr "buku"; VStr "2023-06-01"; VInt 25000; VInt 0]].

Definition seeded_product_category : DataFrame :=
  mkFrame ["product_category_id"; "product_category_name"]
          [[VInt 1; VStr "alat tulis"]].

Definition seeded_order_items : DataFrame :=
  mkFrame
    ["order_item_id"; "order_id"; "product_id"; "order_item_quantity";
     "product_discount"; "product_subdiscount"; "product_price"; "product_subprice"]
    [[VInt 1; VInt 1; VInt 1; VInt 2; VInt 0; VInt 0; VInt 25000; VInt 50000]].

Definition seeded_oltp : gmap string DataFrame :=
  list_to_map
    [ ("tb_users", seeded_users);
      ("tb_payments", seeded_payments);
      ("tb_shippers", seeded_shippers);
      ("tb_ratings", seeded_ratings);
      ("tb_vouchers", seeded_vouchers);
      ("tb_orders", seeded_orders);
      ("tb_products", seeded_products);
      ("tb_product_category", seeded_product_category);
      ("tb_order_items", seeded_order_items) ].

(** The seeded source in front of an empty warehouse. *)
Definition seeded_world : world := mkWorld seeded_oltp ∅ 1 [].

(** The rows of a warehouse table; none when the table does not exist. *)
Definition table_rows (w : world) (table : string) : list (list value) :=
  match dwh w !! table with
  | Some T => rows T
  | None => []
  end.

(** ** Reading a trace *)

(** The pipeline step an event completes: a [to_sql] on a table is the load
    of that table, the mart statement is the build of dm_sales. *)
Definition stage_of (e : event) : option string :=
  match e with
  | EvInsert table _ => Some table
  | EvExecute statement =>
      if decide (statement = "TRUNCATE TABLE dm_sales; INSERT INTO dm_sales")
      then Some "dm_sales" else None
  | _ => None
  end.

Definition stages (evs : list event) : list string := omap stage_of evs.

Definition fact_tables : list string := ["fact_orders"; "fact_order_items"].

Definition dimension_tables : list string :=
  filter (λ t, t ∉ fact_tables) (dict_values warehouse_tables).

(** "All dimension tables are loaded before any fact table": in the list of
    stages, every dimension table stands before every fact table. *)
Definition dimensions_first (l : list string) : Prop :=
  ∀ i j f d,
    l !! i = Some f → f ∈ fact_tables →
    l !! j = Some d → d ∈ dimension_tables →
    (j < i)%nat.

(** The order in which one run goes through its stages. *)
Definition pipeline_order : list string :=
  dict_values warehouse_tables ++ ["dm_sales"].

(** [a] stands before [b] in [l]. *)
Definition before (l : list string) (a b : string) : Prop :=
  ∃ i j, l !! i = Some a ∧ l !! j = Some b ∧ (i < j)%nat.

(** ** A small warehouse for the loader

    dim_shipper already holds shipper 1; the candidate frame brings shipper
    1 again under another name, and a new shipper 2. *)
Definition shipper_world : world :=
  mkWorld ∅
    {[ "dim_shipper" := mkFrame ["shipper_id"; "shipper_name"]
                                [[VInt 1; VStr "kurir"]] ]}
    1 [].

Definition shipper_candidates : DataFrame :=
  mkFrame ["shipper_id"; "shipper_name"]
          [[VInt 1; VStr "kurir lama"]; [VInt 2; VStr "ekspres"]].

(** What a projection to [declared] may do on data whose labels are
    [available]: return a frame whose header is [declared], when they are
    all available; raise [KeyError] on a declared label that is not
    available, otherwise. *)
Definition projection_outcome (r : result DataFrame) (available declared : list string)
  : Prop :=
  (declared ⊆ available → ∃ out, r = Ok out ∧ columns out = declared)
  ∧ (¬ declared ⊆ available →
     ∃ c, c ∈ declared ∧ (c ∉ available) ∧ r = Raise (KeyError c)).

(** ** Vocabulary for the joins *)

(** Some row of [T] has [v] under [key]. *)
Definition matched (T : DataFrame) (key : string) (v : value) : Prop :=
  ∃ r, r ∈ rows T ∧ field T key r = v.

(** Every row has one cell per column. *)
Definition rectangular (T : DataFrame) : Prop :=
  Forall (λ r, length r = length (columns T)) (rows T).

(** The last character of a label. *)
Fixpoint last_char (s : string) : option ascii :=
  match s with
  | EmptyString => None
  | String a EmptyString => Some a
  | String _ s' => last_char s'
  end.

(** The columns of orders that the joins of [transform_fact_orders] rely
    on: the order's key and the keys of the later merges. *)
Definition order_keys : list string :=
  ["order_id"; "payment_id"; "shipper_id"; "rating_id"; "voucher_id"].

(** The frame merged on [key] does not carry another of [order_keys]. *)
Definition keeps_order_keys (T : DataFrame) (key : string) : Prop :=
  ∀ c, c ∈ order_keys → c ≠ key → c ∉ columns T.

(** The order row [o] finds its user, payment, shipper and rating. *)
Definition fully_matched (O U P S R : DataFrame) (o : list value) : Prop :=
  matched U "user_id" (field O "user_id" o)
  ∧ matched P "payment_id" (field O "payment_id" o)
  ∧ matched S "shipper_id" (field O "shipper_id" o)
  ∧ matched R "rating_id" (field O "rating_id" o).

(** [J] is [O] joined with further frames: each of [order_keys] stands where
    it stood in [O], and the rows of [J] are the rows of [O] that satisfy
    [ok], each extended on the right. *)
Definition joined_from (O J : DataFrame) (ok : list value → Prop) : Prop :=
  (∀ c, c ∈ order_keys →
        head (label_positions (columns J) c) = head (label_positions (columns O) c))
  ∧ (∀ x, x ∈ rows J → ∃ o rest, o ∈ rows O ∧ x = o ++ rest ∧ ok o)
  ∧ (∀ o, o ∈ rows O → ok o → ∃ rest, o ++ rest ∈ rows J).

(** The label at a position of a header. *)
Definition label_at (cols : list string) (i : nat) : string := default "" (cols !! i).

(** ** A source with dangling references

    The seeded source with three orders: order 1 as before (no voucher),
    order 2 paid with a payment that does not exist, order 3 carrying a
    voucher that does not exist. *)
Definition orphan_orders : DataFrame :=
  mkFrame
    ["order_id"; "order_date"; "user_id"; "payment_id"; "shipper_id";
     "order_price"; "order_discount"; "voucher_id"; "order_total"; "rating_id"]
    [[VInt 1; VStr "2024-02-01"; VInt 1; VInt 1; VInt 1; VInt 50000;
      VInt 0; VNull; VInt 50000; VInt 1];
     [VInt 2; VStr "2024-02-02"; VInt 1; VInt 9; VInt 1; VInt 75000;
      VInt 0; VNull; VInt 75000; VInt 1];
     [VInt 3; VStr "2024-02-03"; VInt 1; VInt 1; VInt 1; VInt 20000;
      VInt 0; VInt 7; VInt 20000; VInt 1]].

Definition orphan_world : world :=
  mkWorld (<["tb_orders" := orphan_orders]> seeded_oltp) ∅ 1 [].

(** ** Vocabulary for re-runs *)

(** An item of [warehouse_tables] for which the loop of [etl_process] takes
    its last branch and [transform_data] finds no declared columns. *)
Definition plain_item (item : string * string) : Prop :=
  item.1 ≠ "fact_orders" ∧ item.1 ≠ "fact_order_items"
  ∧ dict_get dimension_columns item.1 = None
  ∧ is_Some (dict_get oltp_tables item.1).

(** The destination of [item] already holds the key of every row of its
    source table. *)
Definition covered (w : world) (item : string * string) : Prop :=
  ∃ physical df key T i p ps,
    dict_get oltp_tables item.1 = Some physical
    ∧ oltp w !! physical = Some df
    ∧ get_unique_key item.2 = Ok key
    ∧ dwh w !! item.2 = Some T
    ∧ label_positions (columns T) key = p :: ps
    ∧ locate (columns df) key = OneLabel i
    ∧ ∀ r, r ∈ rows df → cell r i ∈ (λ r, cell r p) <$> rows T.

(** The events of one pass of the loop body over a covered item. *)
Definition quiet_pass (item : string * string) : list event :=
  match dict_get oltp_tables item.1 with
  | Some physical =>
      [EvRead OLTP physical;
       EvPrint ("Extract Data " +:+ physical +:+ " Success");
       EvPrint ("Transform Data " +:+ item.1 +:+ " Success");
       EvRead DWH item.2;
       EvInsert item.2 0;
       EvPrint ("Load Data " +:+ item.2 +:+ " Success")]
  | None => []
  end.

(** The table dm_sales holds after the mart statement ran on a table with
    columns [tcols], with [next] the next value of the sequence and
    [selected] the result of the SELECT. *)
Definition mart_rows (tcols : list string) (next : Z) (selected : list (list value))
  : list (list value) :=
  imap (fill_serial tcols next) (align dm_sales_insert_columns tcols <$> selected).

(** No row was sent by a [to_sql] among these events. *)
Definition nothing_inserted (evs : list event) : Prop :=
  Forall (λ e, match e with EvInsert _ n => n = 0%nat | _ => True end) evs.

(** The events of a run over a warehouse that already covers the source. *)
Definition rerun_events : list event :=
  ((λ d, EvExecute ("CREATE TABLE IF NOT EXISTS " +:+ ct_table d))
     <$> dict_values ddl_statements)
  ++ (dict_items warehouse_tables ≫= quiet_pass)
  ++ [EvExecute "CREATE TABLE IF NOT EXISTS dm_sales";
      EvExecute "TRUNCATE TABLE dm_sales; INSERT INTO dm_sales";
      EvPrint "Data Mart Has Create Success"].

(** ** A source whose order uses a voucher

    The seeded source with one voucher, used by the order. *)
Definition voucher_world : world :=
  mkWorld
    (<["tb_vouchers" :=
         mkFrame (columns seeded_vouchers)
                 [[VInt 1; VStr "hemat"; VInt 5000; VStr "2024-01-01"; VInt 1]]]>
       (<["tb_orders" :=
            mkFrame (columns seeded_orders)
                    [[VInt 1; VStr "2024-02-01"; VInt 1; VInt 1; VInt 1; VInt 50000;
                      VInt 5000; VInt 1; VInt 45000; VInt 1]]]> seeded_oltp))
    ∅ 1 [].

(** [emits m l]: whatever the world and the outcome, [m] only appends to
    the trace; the stages it appends are [l] when it returns and a prefix of
    [l] when it raises. *)
Definition emits {A} (m : M A) (l : list string) : Prop :=
  ∀ w r w', m w = (r, w') →
    ∃ evs, trace w' = trace w ++ evs ∧
      match r with
      | Ok _ => stages evs = l
      | Raise _ => stages evs `prefix_of` l
      end.

(** ** Vocabulary for what a run leaves in place *)

(** From [w] to [w'] the source store is untouched and every table is still
    there with its columns; a table other than dm_sales also has its rows,
    possibly followed by new rows. *)
Definition grows (w w' : world) : Prop :=
  oltp w' = oltp w
  ∧ ∀ t T, dwh w !! t = Some T →
      ∃ T', dwh w' !! t = Some T' ∧ columns T' = columns T
            ∧ (t ≠ "dm_sales" → rows T `prefix_of` rows T').

(** [m] only ever lets the world grow, whether it returns or raises. *)
Definition conservative {A} (m : M A) : Prop :=
  ∀ w r w', m w = (r, w') → grows w w'.

(** A warehouse that already holds order 1, in front of the seeded source
    with a second order of the same user, paid and shipped the same way. *)
Definition restocked_orders : DataFrame :=
  mkFrame (columns seeded_orders)
    (rows seeded_orders ++
     [[VInt 2; VStr "2024-02-05"; VInt 1; VInt 1; VInt 1; VInt 30000;
       VInt 0; VNull; VInt 30000; VInt 1]]).

Definition restocked_world : world :=
  mkWorld (<["tb_orders" := restocked_orders]> seeded_oltp)
          (dwh (etl_process seeded_world).2) 1 [].

#[global] Instance create_table_eq_dec : EqDecision create_table.
Proof. solve_decision. Defined.

(** ** Vocabulary for the cardinality of the joins *)

(** [kept] sends a row to at most one row, and that row is the given one
    extended on the right. *)
Definition extends_at_most_once (kept : list value → list (list value)) : Prop :=
  ∀ o, (length (kept o) ≤ 1)%nat ∧ ∀ j, j ∈ kept o → ∃ rest, j = o ++ rest.

(** The events of one successful [extract_data] on a physical table. *)
Definition extraction_events (physical : string) : list event :=
  [EvRead OLTP physical; EvPrint ("Extract Data " +:+ physical +:+ " Success")].

(** The seeded source without its products table. *)
Definition incomplete_world : world :=
  mkWorld (delete "tb_products" seeded_oltp) ∅ 1 [].

(** [n] calls of [etl_process] one after the other, stopping at the first
    that raises. *)
Fixpoint rerun (n : nat) (w : world) : result unit * world :=
  match n with
  | O => (Ok tt, w)
  | S n' =>
      match etl_process w with
      | (Ok _, w') => rerun n' w'
      | (Raise e, w') => (Raise e, w')
      end
  end.

(** A shippers frame with a column the warehouse does not declare and its
    columns in another order. *)
Definition wide_shippers : DataFrame :=
  mkFrame ["note"; "shipper_name"; "shipper_id"]
          [[VStr "lama"; VStr "kurir"; VInt 1]].

(** * Properties *)

(** ** The monad *)

Lemma bind_ok {A B} (m : M A) (k : A → M B) w a w1 :
  m w = (Ok a, w1) → bind m k w = k a w1.
Proof. intros H. unfold bind. by rewrite H. Qed.

Lemma bind_raise {A B} (m : M A) (k : A → M B) w e w1 :
  m w = (Raise e, w1) → bind m k w = (Raise e, w1).
Proof. intros H. unfold bind. by rewrite H. Qed.

Lemma bind_inv_ok {A B} (m : M A) (k : A → M B) w b w' :
  bind m k w = (Ok b, w') → ∃ a w1, m w = (Ok a, w1) ∧ k a w1 = (Ok b, w').
Proof.
  unfold bind. destruct (m w) as [[a|e] w1]; intros H; [eauto | discriminate].
Qed.

Lemma dict_get_None {V} (d : dict V) k : dict_get d k = None ↔ k ∉ dict_keys d.
Proof.
  unfold dict_keys. induction d as [|[k' v] d IH]; simpl.
  - split; [intros _; apply not_elem_of_nil | done].
  - rewrite not_elem_of_cons. destruct (decide (k' = k)) as [->|Hne].
    + split; [done | intros [? _]; done].
    + rewrite IH. split; [intros ?; split; [congruence | done] | intros [_ ?]; done].
Qed.

Lemma dict_get_Some_elem {V} (d : dict V) k v :
  dict_get d k = Some v → (k, v) ∈ dict_items d.
Proof.
  unfold dict_items. induction d as [|[k' v'] d IH]; simpl; [done|].
  destruct (decide (k' = k)) as [->|Hne].
  - intros [= ->]. apply list_elem_of_here.
  - intros H. apply list_elem_of_further. auto.
Qed.

(** ** Extraction *)

(** C4. A logical name that is not a key of [oltp_tables] makes
    [extract_data] raise the ValueError that names it, and the world is
    left as it was: no query was sent to the source store.  A name that is
    a key returns the whole stored frame of the mapped physical table,
    after one read of that table and the completion line. *)
Theorem extract_data_contract (table_name : string) (w : world) :
  (table_name ∉ dict_keys oltp_tables →
   extract_data table_name w =
     (Raise (ValueError ("Table name '" +:+ table_name +:+
                         "' not found in oltp_tables dictionary")), w))
  ∧ (∀ physical df,
       dict_get oltp_tables table_name = Some physical →
       oltp w !! physical = Some df →
       extract_data table_name w =
         (Ok df, with_trace w (trace w ++ [EvRead OLTP physical;
                  EvPrint ("Extract Data " +:+ physical +:+ " Success")]))).
Proof.
  split.
  - intros Hnot. apply dict_get_None in Hnot. unfold extract_data. by rewrite Hnot.
  - intros physical df Hname Hdf. unfold extract_data. rewrite Hname.
    cbv beta iota delta [bind read_sql_table emit print ret with_trace tables]; simpl.
    rewrite Hdf. simpl. by rewrite <- app_assoc.
Qed.

Lemma extract_data_contract_witness :
  extract_data "customers" seeded_world =
    (Raise (ValueError "Table name 'customers' not found in oltp_tables dictionary"),
     seeded_world)
  ∧ extract_data "users" seeded_world =
      (Ok seeded_users,
       with_trace seeded_world
         [EvRead OLTP "tb_users"; EvPrint "Extract Data tb_users Success"]).
Proof.
  split.
  - apply (proj1 (extract_data_contract "customers" seeded_world)).
    apply (bool_decide_unpack _). vm_compute. exact I.
  - apply (proj2 (extract_data_contract "users" seeded_world) "tb_users");
      vm_compute; reflexivity.
Defined.

(** ** Projection *)

(** C10. For a target name that is not a key of [dimension_columns],
    [transform_data] returns the frame it was given, whatever the frame,
    and raises nothing; it only prints its completion line. *)
Theorem transform_data_unknown_target (df : DataFrame) (target_table : string) (w : world) :
  target_table ∉ dict_keys dimension_columns →
  transform_data df target_table w =
    (Ok df, with_trace w (trace w ++
              [EvPrint ("Transform Data " +:+ target_table +:+ " Success")])).
Proof.
  intros Hnot. apply dict_get_None in Hnot.
  unfold transform_data. by rewrite Hnot.
Qed.

Lemma transform_data_unknown_target_witness :
  ("orders" ∉ dict_keys dimension_columns)
  ∧ (∀ df, transform_data df "orders" seeded_world =
             (Ok df, with_trace seeded_world [EvPrint "Transform Data orders Success"])).
Proof.
  assert (H : "orders" ∉ dict_keys dimension_columns).
  { apply (bool_decide_unpack _). vm_compute. exact I. }
  split; [exact H|].
  intros df. exact (transform_data_unknown_target df "orders" seeded_world H).
Defined.

(** ** The orchestrator *)

(** C1 (the code departs from it). Every item of [warehouse_tables],
    the two whose target is a fact table included, takes the last branch
    of the loop: plain extraction, [transform_data] under the logical name,
    load.  The loop compares the logical name with the names of the fact
    tables, which no key of [warehouse_tables] equals, so neither
    [transform_fact_orders] nor [transform_fact_order_items] is ever
    called. *)
Theorem etl_process_body_never_assembles :
  Forall (λ item : string * string,
            etl_process_body item =
              (df <- extract_data item.1 ;;
               transformed_df <- transform_data df item.1 ;;
               load_data transformed_df item.2))
         (dict_items warehouse_tables).
Proof. repeat constructor. Qed.

(** ** The stages of a run *)

Lemma emits_ret {A} (a : A) : emits (ret a) [].
Proof. intros w r w' [= <- <-]. exists []. by rewrite app_nil_r. Qed.

Lemma emits_lift {A} (x : result A) : emits (lift x) [].
Proof.
  intros w r w' [= <- <-]. exists []. rewrite app_nil_r. by destruct x.
Qed.

Lemma emits_raise {A} e : emits (@raise A e) [].
Proof. intros w r w' [= <- <-]. exists []. by rewrite app_nil_r. Qed.

Lemma emits_emit e : emits (emit e) (stages [e]).
Proof. intros w r w' [= <- <-]. by exists [e]. Qed.

Lemma emits_bind {A B} (m : M A) (k : A → M B) l1 l2 :
  emits m l1 → (∀ a, emits (k a) l2) → emits (bind m k) (l1 ++ l2).
Proof.
  intros Hm Hk w r w' H. unfold bind in H.
  destruct (m w) as [[a|e] w1] eqn:E; apply Hm in E as (evs1 & Ht1 & Hs1).
  - apply Hk in H as (evs2 & Ht2 & Hs2).
    exists (evs1 ++ evs2). split; [by rewrite Ht2, Ht1, app_assoc|].
    unfold stages in *. rewrite omap_app, Hs1.
    destruct r; [by rewrite Hs2 | by apply prefix_app].
  - injection H as <- <-. exists evs1. split; [done|].
    by apply prefix_app_r.
Qed.

Lemma emits_for_each {A} (xs : list A) (body : A → M unit) (l : A → list string) :
  (∀ x, emits (body x) (l x)) → emits (for_each xs body) (xs ≫= l).
Proof.
  intros Hbody. induction xs as [|x xs IH]; simpl.
  - apply emits_ret.
  - apply emits_bind; [apply Hbody | intros _; apply IH].
Qed.

(** A step that edits the stores and leaves the trace alone. *)
Ltac silent_step :=
  let w := fresh "w" in let r := fresh "r" in let w' := fresh "w'" in
  let H := fresh "H" in
  intros w r w' H; exists []; rewrite app_nil_r;
  repeat case_match; simplify_eq; done.

Lemma emits_read_sql_table s table : emits (read_sql_table s table) [].
Proof.
  unfold read_sql_table. apply (emits_bind _ _ [] []); [apply emits_emit|].
  intros _. silent_step.
Qed.

Lemma emits_read_sql_column table column : emits (read_sql_column table column) [].
Proof.
  unfold read_sql_column. apply (emits_bind _ _ [] []); [apply emits_emit|].
  intros _. silent_step.
Qed.

Lemma emits_to_sql df table : emits (to_sql df table) [table].
Proof.
  unfold to_sql. apply (emits_bind _ _ [table] []); [apply emits_emit|].
  intros _. silent_step.
Qed.

Lemma emits_execute_create d : emits (execute_create d) [].
Proof.
  unfold execute_create. apply (emits_bind _ _ [] []).
  - intros w r w' [= <- <-]. eexists. split; [done|]. done.
  - intros _. silent_step.
Qed.

Lemma emits_execute_insert_dm_sales : emits execute_insert_dm_sales ["dm_sales"].
Proof.
  unfold execute_insert_dm_sales. apply (emits_bind _ _ ["dm_sales"] []); [apply emits_emit|].
  intros _. silent_step.
Qed.

Lemma emits_extract_data table_name : emits (extract_data table_name) [].
Proof.
  unfold extract_data. destruct (dict_get oltp_tables table_name); [|apply emits_raise].
  apply (emits_bind _ _ [] []); [apply emits_read_sql_table|].
  intros df. apply (emits_bind _ _ [] []); [apply emits_emit|].
  intros _. apply emits_ret.
Qed.

Lemma emits_transform_data df target_table : emits (transform_data df target_table) [].
Proof.
  unfold transform_data. apply (emits_bind _ _ [] []).
  - destruct (dict_get dimension_columns target_table) as [[|c cs]|];
      [apply emits_ret | apply emits_lift | apply emits_ret].
  - intros df'. apply (emits_bind _ _ [] []); [apply emits_emit|].
    intros _. apply emits_ret.
Qed.

Lemma emits_extract_all names acc : emits (extract_all names acc) [].
Proof.
  revert acc. induction names as [|n names IH]; intros acc; simpl.
  - apply emits_ret.
  - apply (emits_bind _ _ [] []); [apply emits_extract_data | intros df; apply IH].
Qed.

Lemma emits_transform_fact_orders : emits transform_fact_orders [].
Proof.
  unfold transform_fact_orders.
  apply (emits_bind _ _ [] []); [apply emits_extract_all|]. intros dfs.
  apply (emits_bind _ _ [] []); [apply emits_lift|]. intros df. apply emits_lift.
Qed.

Lemma emits_transform_fact_order_items : emits transform_fact_order_items [].
Proof.
  unfold transform_fact_order_items.
  apply (emits_bind _ _ [] []); [apply emits_extract_all|]. intros dfs.
  apply (emits_bind _ _ [] []); [apply emits_lift|]. intros df. apply emits_lift.
Qed.

Lemma emits_load_data df table_name : emits (load_data df table_name) [table_name].
Proof.
  unfold load_data.
  apply (emits_bind _ _ [] [table_name]); [apply emits_lift|]. intros key.
  apply (emits_bind _ _ [] [table_name]); [apply emits_read_sql_column|]. intros existing.
  apply (emits_bind _ _ [] [table_name]); [apply emits_lift|]. intros df'.
  apply (emits_bind _ _ [table_name] []); [apply emits_to_sql|]. intros _.
  apply emits_emit.
Qed.

Lemma emits_etl_process_body item : emits (etl_process_body item) [item.2].
Proof.
  destruct item as [dim_table target_table]. unfold etl_process_body; simpl.
  repeat case_decide.
  - apply (emits_bind _ _ [] [target_table]);
      [apply emits_transform_fact_orders | intros df; apply emits_load_data].
  - apply (emits_bind _ _ [] [target_table]);
      [apply emits_transform_fact_order_items | intros df; apply emits_load_data].
  - apply (emits_bind _ _ [] [target_table]); [apply emits_extract_data|]. intros df.
    apply (emits_bind _ _ [] [target_table]); [apply emits_transform_data|]. intros df'.
    apply emits_load_data.
Qed.

Lemma emits_create_tables : emits create_tables [].
Proof.
  unfold create_tables.
  exact (emits_for_each (dict_values ddl_statements) execute_create (λ _, [])
           emits_execute_create).
Qed.

Lemma emits_create_and_insert_dm_sales : emits create_and_insert_dm_sales ["dm_sales"].
Proof.
  unfold create_and_insert_dm_sales.
  apply (emits_bind _ _ [] ["dm_sales"]); [apply emits_execute_create|]. intros _.
  apply (emits_bind _ _ ["dm_sales"] []); [apply emits_execute_insert_dm_sales|]. intros _.
  apply emits_emit.
Qed.

Lemma emits_etl_process : emits etl_process pipeline_order.
Proof.
  unfold etl_process.
  apply (emits_bind _ _ [] pipeline_order); [apply emits_create_tables|]. intros _.
  apply (emits_bind _ _ (dict_values warehouse_tables) ["dm_sales"]).
  - exact (emits_for_each (dict_items warehouse_tables) etl_process_body
             (λ item, [item.2]) emits_etl_process_body).
  - intros _. apply emits_create_and_insert_dm_sales.
Qed.

Lemma before_references_in_pipeline_order :
  Forall (λ d, Forall (λ t, before pipeline_order t (ct_table d)) (ct_references d))
         (dict_values ddl_statements ++ [ddl_dim_sales]).
Proof.
  cbn -[before pipeline_order].
  repeat first [apply Forall_nil_2 | apply Forall_cons_2];
    match goal with
    | |- before ?l ?a ?b =>
        let i := eval vm_compute in (from_option fst 0%nat (list_find (λ x, x = a) l)) in
        let j := eval vm_compute in (from_option fst 0%nat (list_find (λ x, x = b) l)) in
        exists i, j; split; [reflexivity | split; [reflexivity | lia]]
    end.
Qed.

(** C9 (as the code has it). Whatever the world, a run appends to the trace
    only; the loads and the mart build it performs come in the order
    dim_user, dim_payment, dim_shipper, dim_rating, dim_voucher,
    fact_orders, dim_product_category, dim_product, fact_order_items,
    dm_sales: all of them when the run returns, an initial part of them when
    it raises.  In that order every table stands after the tables its
    foreign keys reference, and both fact tables stand before the mart. *)
Theorem etl_process_stage_order (w : world) (r : result unit) (w' : world) :
  etl_process w = (r, w') →
  ∃ evs, trace w' = trace w ++ evs
    ∧ stages evs `prefix_of`
        ["dim_user"; "dim_payment"; "dim_shipper"; "dim_rating"; "dim_voucher";
         "fact_orders"; "dim_product_category"; "dim_product"; "fact_order_items";
         "dm_sales"]
    ∧ (r = Ok tt →
       stages evs =
         ["dim_user"; "dim_payment"; "dim_shipper"; "dim_rating"; "dim_voucher";
          "fact_orders"; "dim_product_category"; "dim_product"; "fact_order_items";
          "dm_sales"]
       ∧ Forall (λ d, Forall (λ t, before (stages evs) t (ct_table d)) (ct_references d))
                (dict_values ddl_statements ++ [ddl_dim_sales])
       ∧ Forall (λ f, before (stages evs) f "dm_sales") fact_tables).
Proof.
  intros H. apply emits_etl_process in H as (evs & Ht & Hs).
  exists evs. split; [done|]. destruct r as [[]|e].
  - change (stages evs = pipeline_order) in Hs. split.
    + rewrite Hs. done.
    + intros _. rewrite Hs. split; [done|].
      split; [apply before_references_in_pipeline_order|].
      repeat first [apply Forall_nil_2 | apply Forall_cons_2].
      * exists 5%nat, 9%nat. split; [done|]. split; [done | lia].
      * exists 8%nat, 9%nat. split; [done|]. split; [done | lia].
  - split; [exact Hs | intros [=]].
Qed.

Lemma etl_process_stage_order_witness :
  ∃ w', etl_process seeded_world = (Ok tt, w')
    ∧ stages (trace w') =
        ["dim_user"; "dim_payment"; "dim_shipper"; "dim_rating"; "dim_voucher";
         "fact_orders"; "dim_product_category"; "dim_product"; "fact_order_items";
         "dm_sales"].
Proof.
  exists (etl_process seeded_world).2.
  assert (Hrun : etl_process seeded_world = (Ok tt, (etl_process seeded_world).2))
    by (vm_compute; reflexivity).
  split; [exact Hrun|].
  destruct (etl_process_stage_order _ _ _ Hrun) as (evs & Ht & _ & Hs).
  destruct (Hs eq_refl) as (Hs' & _).
  rewrite Ht. exact Hs'.
Defined.

(** C9 (as stated) fails on the seeded source: the run returns, and in its
    trace the load of fact_orders comes while dim_product_category and
    dim_product have not been loaded. *)
Lemma seeded_run_loads_fact_before_dimension :
  (etl_process seeded_world).1 = Ok tt
  ∧ ¬ dimensions_first (stages (trace (etl_process seeded_world).2)).
Proof.
  split; [vm_compute; reflexivity|].
  intros H.
  assert (6 < 5)%nat; [|lia].
  apply (H 5%nat 6%nat "fact_orders" "dim_product_category").
  - vm_compute; reflexivity.
  - apply (bool_decide_unpack _). vm_compute. exact I.
  - vm_compute; reflexivity.
  - apply (bool_decide_unpack _). vm_compute. exact I.
Qed.

(** ** Labels *)

Lemma label_positions_nil cols c : label_positions cols c = [] ↔ c ∉ cols.
Proof.
  induction cols as [|c' cs IH]; simpl.
  - split; [intros _; apply not_elem_of_nil | done].
  - rewrite not_elem_of_cons. destruct (decide (c' = c)) as [->|Hne]; simpl.
    + split; [discriminate | intros [? _]; done].
    + rewrite <- IH. split.
      * intros H%fmap_nil_inv. split; [congruence | done].
      * intros [_ ->]. done.
Qed.

Lemma label_positions_elem cols c : c ∈ cols → ∃ p ps, label_positions cols c = p :: ps.
Proof.
  intros Hin. destruct (label_positions cols c) as [|p ps] eqn:E; [|eauto].
  apply label_positions_nil in E. done.
Qed.

Lemma label_positions_cons_elem cols c p ps :
  label_positions cols c = p :: ps → c ∈ cols.
Proof.
  intros H. destruct (decide (c ∈ cols)) as [|Hn]; [done|].
  apply label_positions_nil in Hn. congruence.
Qed.

Lemma label_positions_lookup cols c p :
  p ∈ label_positions cols c ↔ cols !! p = Some c.
Proof.
  revert p. induction cols as [|c' cs IH]; intros p; simpl.
  - split; [intros H; by apply elem_of_nil in H | done].
  - rewrite elem_of_app, list_elem_of_fmap. split.
    + intros [H | (q & -> & Hq)].
      * destruct (decide (c' = c)) as [->|]; [|by apply elem_of_nil in H].
        apply list_elem_of_singleton in H as ->. done.
      * simpl. by apply IH.
    + destruct p as [|q]; simpl.
      * intros [= ->]. left. rewrite decide_True by done. apply list_elem_of_here.
      * intros H. right. exists q. split; [done | by apply IH].
Qed.

Lemma label_positions_NoDup cols c :
  NoDup cols → c ∈ cols → ∃ i, label_positions cols c = [i] ∧ cols !! i = Some c.
Proof.
  induction cols as [|c' cs IH]; intros Hnd Hin; [by apply elem_of_nil in Hin|].
  apply NoDup_cons in Hnd as [Hnotin Hnd]. simpl.
  destruct (decide (c' = c)) as [->|Hne].
  - exists 0%nat. split; [|done].
    apply label_positions_nil in Hnotin. by rewrite Hnotin.
  - apply elem_of_cons in Hin as [->|Hin]; [done|].
    destruct (IH Hnd Hin) as (i & -> & Hi). exists (S i). done.
Qed.

Lemma locate_NoDup cols c :
  NoDup cols → c ∈ cols → ∃ i, locate cols c = OneLabel i ∧ label_positions cols c = [i].
Proof.
  intros Hnd Hin. destruct (label_positions_NoDup cols c Hnd Hin) as (i & Hi & _).
  exists i. unfold locate. by rewrite Hi.
Qed.

Lemma locate_OneLabel cols c i :
  locate cols c = OneLabel i → label_positions cols c = [i].
Proof.
  unfold locate. destruct (label_positions cols c) as [|p [|q ps]]; congruence.
Qed.

(** ** Loading *)

Lemma insert_same_rows (db : gmap string DataFrame) table T :
  db !! table = Some T → <[table := mkFrame (columns T) (rows T ++ [])]> db = db.
Proof.
  intros H. rewrite app_nil_r. destruct T as [cs rs]. simpl. by apply insert_id.
Qed.

(** What [load_data] does when every step goes through. *)
Lemma load_data_spec (df : DataFrame) (table_name unique_key : string)
    (T : DataFrame) (i p : nat) (ps : list nat) (w : world) :
  get_unique_key table_name = Ok unique_key →
  dwh w !! table_name = Some T →
  label_positions (columns T) unique_key = p :: ps →
  locate (columns df) unique_key = OneLabel i →
  let existing_keys := (λ r, cell r p) <$> rows T in
  let fresh := filter (λ r, cell r i ∉ existing_keys) (rows df) in
  fresh = [] ∨ (NoDup (columns df) ∧ columns df ⊆ columns T) →
  load_data df table_name w =
    (Ok tt,
     mkWorld (oltp w)
       (<[table_name :=
            mkFrame (columns T)
                    (rows T ++ (align (columns df) (columns T) <$> fresh))]> (dwh w))
       (dm_sales_seq w)
       (trace w ++ [EvRead DWH table_name; EvInsert table_name (length fresh);
                    EvPrint ("Load Data " +:+ table_name +:+ " Success")])).
Proof.
  intros Hkey HT Hp Hi existing_keys fresh Hfresh.
  assert (Hexisting : getitem_col (mkFrame [unique_key] ((λ r, [cell r p]) <$> rows T))
                        unique_key = Ok existing_keys).
  { unfold getitem_col, locate; simpl. rewrite decide_True by done; simpl.
    f_equal. rewrite <- list_fmap_compose. done. }
  unfold load_data.
  cbv beta iota delta [bind lift read_sql_column emit print to_sql with_dwh]; simpl.
  rewrite Hkey, HT, Hp.
  unfold deduplicate_data, and_then. rewrite Hexisting, Hi. simpl. rewrite HT.
  fold fresh. destruct Hfresh as [Hnil | [Hnd Hsub]].
  - rewrite Hnil. simpl. rewrite (insert_same_rows _ _ _ HT).
    by rewrite <- !app_assoc.
  - destruct fresh as [|r rs] eqn:Efresh.
    + simpl. rewrite (insert_same_rows _ _ _ HT). by rewrite <- !app_assoc.
    + unfold sql_values. rewrite decide_True.
      * simpl. by rewrite <- !app_assoc.
      * split; [done|]. apply Forall_forall. intros c Hc. by apply Hsub.
Qed.

(** What a successful [load_data] went through. *)
Lemma load_data_inv df table_name w w' :
  load_data df table_name w = (Ok tt, w') →
  ∃ key T i p ps,
    get_unique_key table_name = Ok key
    ∧ dwh w !! table_name = Some T
    ∧ label_positions (columns T) key = p :: ps
    ∧ locate (columns df) key = OneLabel i
    ∧ (filter (λ r, cell r i ∉ (λ r, cell r p) <$> rows T) (rows df) = []
       ∨ (NoDup (columns df) ∧ columns df ⊆ columns T)).
Proof.
  unfold load_data.
  cbv beta iota delta [bind lift read_sql_column emit print to_sql with_dwh]. simpl.
  destruct (get_unique_key table_name) as [key|] eqn:Hkey; [|done].
  destruct (dwh w !! table_name) as [T|] eqn:HT; [|done].
  destruct (label_positions (columns T) key) as [|p ps] eqn:Hp; [done|].
  unfold deduplicate_data, and_then, getitem_col, locate at 1. simpl.
  rewrite decide_True by done. simpl.
  destruct (locate (columns df) key) as [|i|] eqn:Hi; [done| |done].
  simpl. rewrite HT.
  rewrite <- list_fmap_compose.
  change ((λ r, cell r 0) ∘ (λ r, [cell r p])) with (λ r : list value, cell r p).
  intros H. exists key, T, i, p, ps. repeat (split; [done|]).
  destruct (filter _ (rows df)) as [|r rs] eqn:Efresh; [by left | right].
  unfold sql_values in H. case_decide as Hdec; [|done].
  destruct Hdec as [Hnd Hall]. split; [done|].
  intros c Hc. by eapply Forall_forall in Hall.
Qed.

Lemma field_head T c p ps r : label_positions (columns T) c = p :: ps → field T c r = cell r p.
Proof. intros H. unfold field. by rewrite H. Qed.

Lemma filter_idemp {A} (P : A → Prop) `{!∀ x, Decision (P x)} (l : list A) :
  filter P (filter P l) = filter P l.
Proof. rewrite list_filter_filter. apply list_filter_iff. intros x. tauto. Qed.

(** What [deduplicate_data] does with the keys read from the table. *)
Lemma deduplicate_data_against (df T : DataFrame) (unique_key : string) (p : nat) :
  deduplicate_data df (mkFrame [unique_key] ((λ r, [cell r p]) <$> rows T)) unique_key =
    match locate (columns df) unique_key with
    | OneLabel i =>
        Ok (mkFrame (columns df)
                    (filter (λ r, cell r i ∉ (λ r, cell r p) <$> rows T) (rows df)))
    | NoLabel => Raise (KeyError unique_key)
    | ManyLabels => Raise (ValueError "cannot reindex on an axis with duplicate labels")
    end.
Proof.
  unfold deduplicate_data, and_then, getitem_col, locate at 1. simpl.
  rewrite decide_True by done. simpl. rewrite <- list_fmap_compose.
  change ((λ r, cell r 0) ∘ (λ r, [cell r p])) with (λ r : list value, cell r p).
  done.
Qed.

(** The candidate rows whose key the table already holds play no part in
    [load_data]. *)
Lemma load_data_ignores_existing (df : DataFrame) (table_name unique_key : string)
    (T : DataFrame) (w : world) :
  get_unique_key table_name = Ok unique_key →
  dwh w !! table_name = Some T →
  load_data df table_name w =
    load_data
      (mkFrame (columns df)
         (filter (λ r, field df unique_key r ∉ field T unique_key <$> rows T) (rows df)))
      table_name w.
Proof.
  intros Hkey HT. unfold load_data.
  cbv beta iota delta [bind lift read_sql_column emit]. simpl.
  rewrite Hkey, HT.
  destruct (label_positions (columns T) unique_key) as [|p ps] eqn:Hp; [done|].
  rewrite !deduplicate_data_against. simpl.
  destruct (locate (columns df) unique_key) as [|i|] eqn:Hi; [done| |done].
  assert (Hsame : filter (λ r, field df unique_key r ∉ field T unique_key <$> rows T) (rows df)
                  = filter (λ r, cell r i ∉ (λ r, cell r p) <$> rows T) (rows df)).
  { unfold field. by rewrite Hp, (locate_OneLabel _ _ _ Hi). }
  by rewrite Hsame, filter_idemp.
Qed.

(** C6. For a destination table that [get_unique_key] recognises and that
    exists, call a candidate row fresh when its key cell is not among the
    key cells the table holds.
    - A [load_data] that returns has appended exactly the fresh rows, in
      candidate order, after the rows the table held; they are stored
      under the table's columns, and nothing else has changed but the
      trace, which records one read of the table and one insert of as
      many rows as are fresh.
    - The candidate rows whose key already exists play no part, whatever
      their other cells: with them or without them [load_data] has the
      same outcome and leaves the same world.
    - When no candidate row is fresh, [load_data] returns without sending
      a row and leaves both stores as they were. *)
Theorem load_data_appends_exactly_new_keys (df : DataFrame)
    (table_name unique_key : string) (T : DataFrame) (w : world) :
  get_unique_key table_name = Ok unique_key →
  dwh w !! table_name = Some T →
  let existing_keys := field T unique_key <$> rows T in
  let fresh := filter (λ r, field df unique_key r ∉ existing_keys) (rows df) in
  (∀ w', load_data df table_name w = (Ok tt, w') →
     w' = mkWorld (oltp w)
            (<[table_name :=
                 mkFrame (columns T)
                         (rows T ++ (align (columns df) (columns T) <$> fresh))]> (dwh w))
            (dm_sales_seq w)
            (trace w ++ [EvRead DWH table_name; EvInsert table_name (length fresh);
                         EvPrint ("Load Data " +:+ table_name +:+ " Success")]))
  ∧ load_data df table_name w = load_data (mkFrame (columns df) fresh) table_name w
  ∧ (unique_key ∈ columns T → NoDup (columns df) → unique_key ∈ columns df →
     fresh = [] →
     load_data df table_name w =
       (Ok tt,
        with_trace w
          (trace w ++ [EvRead DWH table_name; EvInsert table_name 0;
                       EvPrint ("Load Data " +:+ table_name +:+ " Success")]))).
Proof.
  intros Hkey HT existing_keys fresh. split; [|split].
  - intros w' Hload.
    destruct (load_data_inv _ _ _ _ Hload)
      as (key & T0 & i & p & ps & Hkey' & HT' & Hp & Hi & Hfresh).
    rewrite Hkey in Hkey'. injection Hkey' as <-.
    rewrite HT in HT'. injection HT' as <-.
    rewrite (load_data_spec df table_name unique_key T i p ps w Hkey HT Hp Hi Hfresh)
      in Hload.
    injection Hload as <-.
    assert (Hsame : fresh = filter (λ r, cell r i ∉ (λ r, cell r p) <$> rows T) (rows df)).
    { unfold fresh, existing_keys, field. by rewrite Hp, (locate_OneLabel _ _ _ Hi). }
    by rewrite Hsame.
  - by apply load_data_ignores_existing.
  - intros HinT Hnd Hin Hnil.
    destruct (label_positions_elem _ _ HinT) as (p & ps & Hp).
    destruct (locate_NoDup _ _ Hnd Hin) as (i & Hi & Hpi).
    assert (Hsame : filter (λ r, cell r i ∉ (λ r, cell r p) <$> rows T) (rows df) = []).
    { rewrite <- Hnil. unfold fresh, existing_keys, field. by rewrite Hp, Hpi. }
    rewrite (load_data_spec df table_name unique_key T i p ps w Hkey HT Hp Hi);
      [|by left].
    rewrite Hsame. simpl. rewrite (insert_same_rows _ _ _ HT). done.
Qed.

Lemma load_data_appends_exactly_new_keys_witness :
  ∃ w', load_data shipper_candidates "dim_shipper" shipper_world = (Ok tt, w')
    ∧ table_rows w' "dim_shipper" = [[VInt 1; VStr "kurir"]; [VInt 2; VStr "ekspres"]].
Proof.
  destruct (load_data_appends_exactly_new_keys shipper_candidates "dim_shipper"
              "shipper_id"
              (mkFrame ["shipper_id"; "shipper_name"] [[VInt 1; VStr "kurir"]])
              shipper_world) as (Hreturned & _ & _).
  - reflexivity.
  - vm_compute; reflexivity.
  - set (w' := (load_data shipper_candidates "dim_shipper" shipper_world).2).
    assert (Hrun : load_data shipper_candidates "dim_shipper" shipper_world = (Ok tt, w'))
      by (vm_compute; reflexivity).
    exists w'. split; [exact Hrun|].
    pose proof (f_equal (λ x, table_rows x "dim_shipper") (Hreturned w' Hrun)) as Hrows.
    cbv beta in Hrows. rewrite Hrows. vm_compute. reflexivity.
Defined.

(** ** Selection of columns *)

Lemma take_labels_total cols wanted :
  wanted ⊆ cols → ∃ ps, take_labels cols wanted = Ok ps.
Proof.
  induction wanted as [|c cs IH]; intros Hsub; simpl; [eauto|].
  destruct (label_positions_elem cols c) as (p & ps & ->); [apply Hsub; left|].
  destruct IH as [qs ->]; [|eauto].
  intros x Hx. apply Hsub. by right.
Qed.

Lemma take_labels_missing cols wanted :
  ¬ wanted ⊆ cols →
  ∃ c, c ∈ wanted ∧ (c ∉ cols) ∧ take_labels cols wanted = Raise (KeyError c).
Proof.
  induction wanted as [|c cs IH]; intros Hsub; simpl.
  - exfalso. apply Hsub. intros x Hx. by apply elem_of_nil in Hx.
  - destruct (label_positions cols c) as [|p ps] eqn:E.
    + exists c. split; [left|]. split; [by apply label_positions_nil | done].
    + destruct IH as (c' & Hin & Hnot & ->).
      * intros Hcs. apply Hsub. intros x [->|Hx]%elem_of_cons; [|by apply Hcs].
        by eapply label_positions_cons_elem.
      * exists c'. split; [by right | done].
Qed.

Lemma take_labels_members cols wanted ps :
  take_labels cols wanted = Ok ps →
  ∀ c, c ∈ label_at cols <$> ps ↔ c ∈ wanted.
Proof.
  revert ps. induction wanted as [|c' cs IH]; intros ps; simpl.
  - intros [= <-] c. done.
  - destruct (label_positions cols c') as [|p qs] eqn:E; [done|].
    destruct (take_labels cols cs) as [rs|] eqn:Ecs; [|done].
    intros [= <-] c. change (p :: qs ++ rs) with ((p :: qs) ++ rs).
    rewrite fmap_app, elem_of_app, elem_of_cons, (IH rs eq_refl c).
    assert (Hall : ∀ q, q ∈ p :: qs → label_at cols q = c').
    { intros q Hq. rewrite <- E in Hq. apply label_positions_lookup in Hq.
      unfold label_at. by rewrite Hq. }
    split.
    + intros [(q & -> & Hq)%list_elem_of_fmap | H]; [left; by apply Hall | by right].
    + intros [-> | H]; [left | by right].
      apply list_elem_of_fmap. exists p. split; [symmetry; apply Hall|]; left.
Qed.

Lemma take_labels_exact cols wanted ps :
  NoDup cols → take_labels cols wanted = Ok ps →
  label_at cols <$> ps = wanted
  ∧ ∀ r, cell r <$> ps = (λ c, match label_positions cols c with
                                | i :: _ => cell r i
                                | [] => VNull
                                end) <$> wanted.
Proof.
  intros Hnd. revert ps. induction wanted as [|c cs IH]; intros ps; simpl.
  - intros [= <-]. done.
  - destruct (label_positions cols c) as [|p qs] eqn:E; [done|].
    destruct (take_labels cols cs) as [rs|] eqn:Ecs; [|done].
    intros [= <-]. destruct (IH rs eq_refl) as [IH1 IH2].
    destruct (label_positions_NoDup cols c Hnd) as (i & Hi & Hci).
    { by eapply label_positions_cons_elem. }
    rewrite E in Hi. injection Hi as -> ->. split.
    + rewrite fmap_cons. f_equal; [unfold label_at; by rewrite Hci | exact IH1].
    + intros r. simpl. f_equal. apply IH2.
Qed.

(** [df[wanted]] on a frame with distinct labels. *)
Lemma getitem_cols_spec df wanted :
  NoDup (columns df) →
  (wanted ⊆ columns df →
   getitem_cols df wanted =
     Ok (mkFrame wanted ((λ r, (λ c, field df c r) <$> wanted) <$> rows df)))
  ∧ (¬ wanted ⊆ columns df →
     ∃ c, c ∈ wanted ∧ (c ∉ columns df) ∧ getitem_cols df wanted = Raise (KeyError c)).
Proof.
  intros Hnd. unfold getitem_cols. split.
  - intros Hsub. destruct (take_labels_total _ _ Hsub) as [ps Hps]. rewrite Hps.
    destruct (take_labels_exact _ _ _ Hnd Hps) as [H1 H2].
    f_equal. f_equal; [exact H1|].
    apply list_fmap_ext. intros _ r _. apply H2.
  - intros Hsub. destruct (take_labels_missing _ _ Hsub) as (c & Hin & Hnot & ->).
    eauto.
Qed.

Lemma dimension_columns_nonempty target cols :
  dict_get dimension_columns target = Some cols → cols ≠ [].
Proof.
  unfold dimension_columns; simpl. repeat case_decide; intros [= <-]; done.
Qed.

Lemma getitem_cols_outcome df declared :
  NoDup (columns df) →
  projection_outcome (getitem_cols df declared) (columns df) declared.
Proof.
  intros Hnd. destruct (getitem_cols_spec df declared Hnd) as [Hok Hko]. split.
  - intros Hsub. rewrite (Hok Hsub). eauto.
  - exact Hko.
Qed.

(** C5. On data with distinct labels each transform either returns a frame
    whose header is exactly the declared column list of the destination, in
    the declared order, or raises [KeyError] on a declared column that the
    data lacks; it returns when every declared column is there and raises
    when one is absent.  For [transform_data] the data is the extracted
    frame; for the two fact transforms it is the joined frame (for
    fact_orders after [user_id_x] has been renamed to [user_id]). *)
Theorem transforms_project_to_declared_columns :
  (∀ df target declared w,
     dict_get dimension_columns target = Some declared →
     NoDup (columns df) →
     projection_outcome (transform_data df target w).1 (columns df) declared)
  ∧ (∀ w dataframes w1 joined declared,
       extract_all (dict_keys oltp_tables) ∅ w = (Ok dataframes, w1) →
       join_fact_orders dataframes = Ok joined →
       dict_get dimension_columns "fact_orders" = Some declared →
       NoDup (columns joined) →
       projection_outcome (transform_fact_orders w).1 (columns joined) declared)
  ∧ (∀ w dataframes w1 joined declared,
       extract_all (dict_keys oltp_tables) ∅ w = (Ok dataframes, w1) →
       join_fact_order_items dataframes = Ok joined →
       dict_get dimension_columns "fact_order_items" = Some declared →
       NoDup (columns joined) →
       projection_outcome (transform_fact_order_items w).1 (columns joined) declared).
Proof.
  split; [|split].
  - intros df target declared w Hdecl Hnd.
    pose proof (dimension_columns_nonempty _ _ Hdecl) as Hne.
    pose proof (getitem_cols_outcome df declared Hnd) as Hout.
    unfold transform_data. rewrite Hdecl.
    destruct declared as [|c cs]; [done|].
    cbv beta iota delta [bind lift print emit ret].
    destruct (getitem_cols df (c :: cs)) as [out|e]; exact Hout.
  - intros w dataframes w1 joined declared Hex Hjoin Hdecl Hnd.
    unfold transform_fact_orders.
    cbv beta iota delta [bind lift]. rewrite Hex, Hjoin.
    unfold getitem_declared. rewrite Hdecl. simpl.
    by apply getitem_cols_outcome.
  - intros w dataframes w1 joined declared Hex Hjoin Hdecl Hnd.
    unfold transform_fact_order_items.
    cbv beta iota delta [bind lift]. rewrite Hex, Hjoin.
    unfold getitem_declared. rewrite Hdecl. simpl.
    by apply getitem_cols_outcome.
Qed.

(** Membership, distinctness and inclusion on closed lists of labels. *)
Ltac by_evaluation := apply (bool_decide_unpack _); vm_compute; exact I.

Ltac subseteq_by_cases :=
  let c := fresh "c" in let H := fresh "H" in
  intros c H;
  repeat (apply elem_of_cons in H as [-> | H]; [by_evaluation|]);
  apply elem_of_nil in H; destruct H.

Lemma transforms_project_to_declared_columns_witness :
  (∃ out, (transform_data seeded_users "dim_user" seeded_world).1 = Ok out
          ∧ columns out = ["user_id"; "user_first_name"; "user_last_name";
                           "user_gender"; "user_address"; "user_birthday"; "user_join"])
  ∧ (∃ out, (transform_fact_orders seeded_world).1 = Ok out
            ∧ columns out = ["order_id"; "order_date"; "user_id"; "payment_id";
                             "shipper_id"; "order_price"; "order_discount";
                             "voucher_id"; "order_total"; "rating_id"])
  ∧ (∃ c, (transform_fact_order_items seeded_world).1 = Raise (KeyError c)).
Proof.
  destruct transforms_project_to_declared_columns as (Ha & Hb & Hc).
  pose (run := extract_all (dict_keys oltp_tables) ∅ seeded_world).
  pose (dataframes := match run.1 with Ok d => d | Raise _ => ∅ end).
  assert (Hrun : extract_all (dict_keys oltp_tables) ∅ seeded_world = (Ok dataframes, run.2))
    by (vm_compute; reflexivity).
  split; [|split].
  - refine (proj1 (Ha _ "dim_user"
                     ["user_id"; "user_first_name"; "user_last_name"; "user_gender";
                      "user_address"; "user_birthday"; "user_join"]
                     seeded_world eq_refl _) _).
    + by_evaluation.
    + subseteq_by_cases.
  - pose (joined := match join_fact_orders dataframes with
                    | Ok j => j | Raise _ => mkFrame [] [] end).
    refine (proj1 (Hb seeded_world dataframes run.2 joined
                     ["order_id"; "order_date"; "user_id"; "payment_id"; "shipper_id";
                      "order_price"; "order_discount"; "voucher_id"; "order_total";
                      "rating_id"]
                     Hrun _ eq_refl _) _).
    + vm_compute; reflexivity.
    + by_evaluation.
    + subseteq_by_cases.
  - pose (joined := match join_fact_order_items dataframes with
                    | Ok j => j | Raise _ => mkFrame [] [] end).
    destruct (proj2 (Hc seeded_world dataframes run.2 joined
                       ["order_item_id"; "order_id"; "product_id"; "order_item_quantity";
                        "product_discount"; "product_subdiscount"; "product_price";
                        "product_subprice"]
                       Hrun ltac:(vm_compute; reflexivity) eq_refl ltac:(by_evaluation)))
      as (c & _ & _ & Hraise).
    + intros Hsub.
      assert (Hin : "product_discount" ∈ columns joined) by (apply Hsub; by_evaluation).
      revert Hin. by_evaluation.
    + exists c. exact Hraise.
Defined.

(** ** Merge *)

Lemma last_char_suffix_x d : last_char (d +:+ "_x") = Some "x"%char.
Proof.
  induction d as [|a d IH]; [reflexivity|].
  change (String a d +:+ "_x") with (String a (d +:+ "_x")).
  destruct (d +:+ "_x") eqn:E; [by destruct d | exact IH].
Qed.

Lemma head_fmap_S (l : list nat) : head (S <$> l) = S <$> head l.
Proof. by destruct l. Qed.

Lemma head_label_positions_renamed cols (ren : string → string) extra c :
  c ∈ cols →
  (∀ d, d ∈ cols → ren d = c ↔ d = c) →
  head (label_positions ((ren <$> cols) ++ extra) c) = head (label_positions cols c).
Proof.
  induction cols as [|d ds IH]; intros Hin Hren; [by apply elem_of_nil in Hin|].
  rewrite fmap_cons. simpl.
  destruct (decide (d = c)) as [->|Hne].
  - rewrite decide_True; [done|]. apply Hren; [left | done].
  - rewrite decide_False.
    + simpl. rewrite !head_fmap_S. f_equal. apply IH.
      * apply elem_of_cons in Hin as [->|Hin]; done.
      * intros d' Hd'. apply Hren. by right.
    + intros Heq. apply Hne. apply Hren; [left | done].
Qed.

Lemma not_elem_of_delete_unique cols c j :
  label_positions cols c = [j] → c ∉ delete j cols.
Proof.
  intros Hj Hin. apply list_elem_of_lookup in Hin as [k Hk].
  destruct (decide (k < j)%nat) as [Hlt|Hge].
  - rewrite list_lookup_delete_lt in Hk by done.
    apply label_positions_lookup in Hk. rewrite Hj in Hk.
    apply list_elem_of_singleton in Hk. lia.
  - rewrite list_lookup_delete_ge in Hk by lia.
    apply label_positions_lookup in Hk. rewrite Hj in Hk.
    apply list_elem_of_singleton in Hk. lia.
Qed.

Lemma length_delete_unique cols c j :
  label_positions cols c = [j] → length (delete j cols) = (length cols - 1)%nat.
Proof.
  intros H. apply length_delete. exists c.
  apply label_positions_lookup. rewrite H. left.
Qed.

Lemma elem_of_delete_elem {A} (l : list A) j x : x ∈ delete j l → x ∈ l.
Proof. intros H. eapply elem_of_sublist; [exact H | apply sublist_delete]. Qed.

Lemma field_unique T c i r : label_positions (columns T) c = [i] → field T c r = cell r i.
Proof. intros H. unfold field. by rewrite H. Qed.

Section merge_facts.
Context (L R J : DataFrame) (how : join_how) (on : string).
Context (HJ : merge L R how on = Ok J).

Lemma merge_inv :
  ∃ i j,
    label_positions (columns L) on = [i] ∧ label_positions (columns R) on = [j] ∧
    columns J =
      ((λ c, if decide (c ∈ delete j (columns R)) then c +:+ "_x" else c) <$> columns L)
      ++ ((λ c, if decide (c ∈ columns L) then c +:+ "_y" else c) <$> delete j (columns R)) ∧
    rows J =
      rows L ≫= λ l,
        match how, filter (λ r, cell r j = cell l i) (rows R) with
        | HowLeft, [] => [l ++ replicate (length (delete j (columns R))) VNull]
        | _, hits => (λ r, l ++ delete j r) <$> hits
        end.
Proof.
  unfold merge in HJ.
  destruct (locate (columns R) on) as [|j|] eqn:ER; try done.
  destruct (locate (columns L) on) as [|i|] eqn:EL; try done.
  injection HJ as <-. exists i, j.
  split; [by apply locate_OneLabel|]. split; [by apply locate_OneLabel|]. done.
Qed.

(** Where a row of the result comes from. *)
Lemma merge_rows_elem x :
  x ∈ rows J →
  ∃ l, l ∈ rows L ∧
    ((∃ r rest, r ∈ rows R ∧ field R on r = field L on l ∧ x = l ++ rest)
     ∨ (how = HowLeft ∧ (∀ r, r ∈ rows R → field R on r ≠ field L on l)
        ∧ x = l ++ replicate (length (columns R) - 1) VNull)).
Proof.
  destruct merge_inv as (i & j & Hi & Hj & _ & Hrows).
  rewrite Hrows. intros (l & Hx & Hl)%list_elem_of_bind.
  exists l. split; [done|].
  rewrite (field_unique L on i l Hi).
  destruct (filter (λ r, cell r j = cell l i) (rows R)) as [|h hits] eqn:Ehits.
  - destruct how.
    + by apply elem_of_nil in Hx.
    + right. split; [done|]. split.
      * intros r Hr. rewrite (field_unique R on j r Hj). intros Heq.
        by apply (filter_nil_not_elem_of _ _ r Ehits).
      * apply list_elem_of_singleton in Hx as ->.
        by rewrite (length_delete_unique _ _ _ Hj).
  - left.
    assert (Hx' : x ∈ (λ r, l ++ delete j r) <$> h :: hits) by (by destruct how).
    apply list_elem_of_fmap in Hx' as (r & -> & Hr).
    rewrite <- Ehits in Hr. apply list_elem_of_filter in Hr as [Hm Hr].
    exists r, (delete j r). rewrite (field_unique R on j r Hj). done.
Qed.

(** A left row with a matching right row is kept, extended on the right. *)
Lemma merge_rows_matched l r :
  l ∈ rows L → r ∈ rows R → field R on r = field L on l →
  ∃ rest, l ++ rest ∈ rows J.
Proof.
  destruct merge_inv as (i & j & Hi & Hj & _ & Hrows).
  rewrite (field_unique L on i l Hi), (field_unique R on j r Hj).
  intros Hl Hr Hm. rewrite Hrows.
  assert (Hhit : r ∈ filter (λ r, cell r j = cell l i) (rows R))
    by (by apply list_elem_of_filter).
  exists (delete j r). apply list_elem_of_bind. exists l. split; [|done].
  destruct (filter (λ r, cell r j = cell l i) (rows R)) as [|h hits];
    [by apply elem_of_nil in Hhit|].
  assert (l ++ delete j r ∈ (λ r, l ++ delete j r) <$> h :: hits)
    by (by apply (list_elem_of_fmap_2 (λ r, l ++ delete j r))).
  by destruct how.
Qed.

(** A left join keeps a left row without match, with nulls on the right. *)
Lemma merge_rows_unmatched l :
  how = HowLeft → l ∈ rows L →
  (∀ r, r ∈ rows R → field R on r ≠ field L on l) →
  l ++ replicate (length (columns R) - 1) VNull ∈ rows J.
Proof.
  destruct merge_inv as (i & j & Hi & Hj & _ & Hrows).
  rewrite (field_unique L on i l Hi).
  intros -> Hl Hno. rewrite Hrows. apply list_elem_of_bind. exists l. split; [|done].
  destruct (filter (λ r, cell r j = cell l i) (rows R)) as [|h hits] eqn:Ehits.
  - rewrite (length_delete_unique _ _ _ Hj). apply list_elem_of_here.
  - exfalso. assert (Hh : h ∈ filter (λ r, cell r j = cell l i) (rows R))
      by (rewrite Ehits; left).
    apply list_elem_of_filter in Hh as [Hm Hh].
    apply (Hno h Hh). by rewrite (field_unique R on j h Hj).
Qed.

(** A label of the left frame keeps its place when the right frame does
    not carry it (or carries it as the key) and no suffixed label can
    collide with it. *)
Lemma merge_columns_head c :
  c ∈ columns L → c = on ∨ c ∉ columns R → last_char c ≠ Some "x"%char →
  head (label_positions (columns J) c) = head (label_positions (columns L) c).
Proof.
  destruct merge_inv as (i & j & Hi & Hj & Hcols & _).
  intros Hin Hright Hlast. rewrite Hcols.
  assert (Hnot : c ∉ delete j (columns R)).
  { destruct Hright as [-> | Hnot]; [by apply not_elem_of_delete_unique|].
    intros H. apply Hnot. by eapply elem_of_delete_elem. }
  apply head_label_positions_renamed; [done|].
  intros d Hd. case_decide as Hdec.
  - split.
    + intros Heq. exfalso. apply Hlast. rewrite <- Heq. apply last_char_suffix_x.
    + intros ->. done.
  - done.
Qed.
End merge_facts.

(** ** The joins of [transform_fact_orders] *)

Lemma order_keys_last_char c : c ∈ order_keys → last_char c ≠ Some "x"%char.
Proof.
  intros H. repeat (apply elem_of_cons in H as [-> | H]; [discriminate|]).
  by apply elem_of_nil in H.
Qed.

Lemma head_label_positions_elem cols c p :
  head (label_positions cols c) = Some p → c ∈ cols ∧ cols !! p = Some c.
Proof.
  intros H. destruct (label_positions cols c) as [|q qs] eqn:E; [done|].
  injection H as ->. split; [by eapply label_positions_cons_elem|].
  apply label_positions_lookup. rewrite E. left.
Qed.

(** A cell of a left frame read through a later join. *)
Lemma field_prefix O J c o rest :
  c ∈ columns O →
  head (label_positions (columns J) c) = head (label_positions (columns O) c) →
  length o = length (columns O) →
  field J c (o ++ rest) = field O c o.
Proof.
  intros Hin Hhead Hlen.
  destruct (label_positions_elem _ _ Hin) as (p & ps & Hp).
  rewrite Hp in Hhead. simpl in Hhead.
  destruct (head_label_positions_elem _ _ _ Hhead) as [_ HJ].
  assert (HO : columns O !! p = Some c).
  { apply label_positions_lookup. rewrite Hp. left. }
  unfold field. rewrite Hp.
  destruct (label_positions (columns J) c) as [|q qs]; [done|].
  injection Hhead as ->. unfold cell.
  rewrite lookup_app_l; [done|]. rewrite Hlen. by eapply lookup_lt_Some.
Qed.

Section join_steps.
Context (O : DataFrame).
Context (Hrect : rectangular O) (Hkeys : order_keys ⊆ columns O).

Lemma joined_from_start : joined_from O O (λ _, True).
Proof.
  split; [done|]. split.
  - intros x Hx. exists x, []. by rewrite app_nil_r.
  - intros o Ho _. exists []. by rewrite app_nil_r.
Qed.

Lemma rectangular_length o : o ∈ rows O → length o = length (columns O).
Proof. intros Ho. unfold rectangular in Hrect. by eapply Forall_forall in Hrect. Qed.

Lemma joined_from_columns L R J how key ok :
  joined_from O L ok → merge L R how key = Ok J → keeps_order_keys R key →
  ∀ c, c ∈ order_keys →
       head (label_positions (columns J) c) = head (label_positions (columns O) c).
Proof.
  intros (Hcols & _ & _) HJ Hkeep c Hc.
  rewrite <- (Hcols c Hc).
  apply (merge_columns_head L R J how key HJ).
  - destruct (label_positions_elem _ _ (Hkeys c Hc)) as (p & ps & Hp).
    pose proof (Hcols c Hc) as Hh. rewrite Hp in Hh.
    by destruct (head_label_positions_elem _ _ _ Hh).
  - destruct (decide (c = key)) as [->|Hne]; [by left | right; by apply Hkeep].
  - by apply order_keys_last_char.
Qed.

(** One inner merge on a key that stands in the left frame where it
    stands in orders. *)
Lemma joined_from_inner L R J key ok :
  joined_from O L ok → merge L R HowInner key = Ok J → keeps_order_keys R key →
  key ∈ columns O →
  head (label_positions (columns L) key) = head (label_positions (columns O) key) →
  joined_from O J (λ o, ok o ∧ matched R key (field O key o)).
Proof.
  intros HL HJ Hkeep Hkey Hhead.
  split; [by eapply joined_from_columns|].
  destruct HL as (_ & Hsound & Hcomplete). split.
  - intros x Hx.
    destruct (merge_rows_elem L R J HowInner key HJ x Hx) as (l & Hl & Hcase).
    destruct (Hsound l Hl) as (o & rest & Ho & -> & Hok).
    destruct Hcase as [(r & rest' & Hr & Hm & ->) | (Hhow & _)]; [|done].
    exists o, (rest ++ rest'). split; [done|]. split; [by rewrite app_assoc|].
    split; [done|]. exists r. split; [done|].
    rewrite Hm. apply field_prefix; [done | done | by apply rectangular_length].
  - intros o Ho (Hok & r & Hr & Hm).
    destruct (Hcomplete o Ho Hok) as (rest & Hl).
    destruct (merge_rows_matched L R J HowInner key HJ (o ++ rest) r Hl Hr) as (rest' & HJr).
    + rewrite Hm. symmetry.
      apply field_prefix; [done | done | by apply rectangular_length].
    + exists (rest ++ rest'). by rewrite app_assoc.
Qed.

(** The left merge keeps every row of the left frame. *)
Lemma joined_from_left L R J key ok :
  joined_from O L ok → merge L R HowLeft key = Ok J → keeps_order_keys R key →
  key ∈ columns O →
  head (label_positions (columns L) key) = head (label_positions (columns O) key) →
  joined_from O J ok
  ∧ (∀ o, o ∈ rows O → ok o → ¬ matched R key (field O key o) →
          ∃ kept, kept ∈ rows L
                  ∧ kept ++ replicate (length (columns R) - 1) VNull ∈ rows J
                  ∧ ∃ rest, kept = o ++ rest).
Proof.
  intros HL HJ Hkeep Hkey Hhead.
  assert (Hunmatched : ∀ o, o ∈ rows O → ok o → ¬ matched R key (field O key o) →
            ∃ kept, kept ∈ rows L
                    ∧ kept ++ replicate (length (columns R) - 1) VNull ∈ rows J
                    ∧ ∃ rest, kept = o ++ rest).
  { destruct HL as (_ & _ & Hcomplete). intros o Ho Hok Hno.
    destruct (Hcomplete o Ho Hok) as (rest & Hl).
    exists (o ++ rest). split; [done|]. split; [|by exists rest].
    apply (merge_rows_unmatched L R J HowLeft key HJ); [done | done |].
    intros r Hr Hm. apply Hno. exists r. split; [done|]. rewrite Hm.
    apply field_prefix; [done | done | by apply rectangular_length]. }
  split; [|exact Hunmatched].
  split; [by eapply joined_from_columns|].
  destruct HL as (_ & Hsound & Hcomplete). split.
  - intros x Hx.
    destruct (merge_rows_elem L R J HowLeft key HJ x Hx) as (l & Hl & Hcase).
    destruct (Hsound l Hl) as (o & rest & Ho & -> & Hok).
    destruct Hcase as [(r & rest' & _ & _ & ->) | (_ & _ & ->)];
      eexists o, _; (split; [done|]); (split; [by rewrite <- app_assoc | done]).
  - intros o Ho Hok.
    destruct (Hcomplete o Ho Hok) as (rest & Hl).
    destruct (decide (Exists (λ r, field R key r = field L key (o ++ rest)) (rows R)))
      as [Hex | Hnex].
    + apply Exists_exists in Hex as (r & Hr & Hm).
      destruct (merge_rows_matched L R J HowLeft key HJ (o ++ rest) r Hl Hr Hm)
        as (rest' & HJr).
      exists (rest ++ rest'). by rewrite app_assoc.
    + exists (rest ++ replicate (length (columns R) - 1) VNull). rewrite app_assoc.
      apply (merge_rows_unmatched L R J HowLeft key HJ); [done | done |].
      intros r Hr Hm. apply Hnex. apply Exists_exists. by exists r.
Qed.

(** The rename of [user_id_x] leaves the order keys in place. *)
Lemma joined_from_rename J ok :
  joined_from O J ok → joined_from O (rename J "user_id_x" "user_id") ok.
Proof.
  intros (Hcols & Hrows). split; [|exact Hrows].
  intros c Hc. rewrite <- (Hcols c Hc). unfold rename; simpl.
  rewrite <- (app_nil_r (_ <$> columns J)).
  apply head_label_positions_renamed.
  - destruct (label_positions_elem _ _ (Hkeys c Hc)) as (p & ps & Hp).
    pose proof (Hcols c Hc) as Hh. rewrite Hp in Hh.
    by destruct (head_label_positions_elem _ _ _ Hh).
  - intros d _. case_decide as Hd; [|done]. subst d.
    repeat (apply elem_of_cons in Hc as [-> | Hc]; [done|]).
    by apply elem_of_nil in Hc.
Qed.
End join_steps.

(** ** Cells through a projection *)

Lemma label_positions_app l1 l2 c :
  label_positions (l1 ++ l2) c =
    label_positions l1 c ++ ((λ i, length l1 + i)%nat <$> label_positions l2 c).
Proof.
  induction l1 as [|d l1 IH]; simpl.
  - by rewrite list_fmap_id.
  - rewrite IH, fmap_app, <- app_assoc. f_equal. f_equal.
    rewrite <- list_fmap_compose. done.
Qed.

Lemma take_labels_cell cols wanted ps c r :
  take_labels cols wanted = Ok ps → c ∈ wanted →
  match label_positions (label_at cols <$> ps) c with
  | q :: _ => cell (cell r <$> ps) q
  | [] => VNull
  end
  = match label_positions cols c with
    | i :: _ => cell r i
    | [] => VNull
    end.
Proof.
  revert ps. induction wanted as [|c' cs IH]; intros ps Hps Hin;
    [by apply elem_of_nil in Hin|].
  simpl in Hps.
  destruct (label_positions cols c') as [|p qs] eqn:E; [done|].
  destruct (take_labels cols cs) as [rs|] eqn:Ecs; [|done].
  injection Hps as <-.
  assert (Hblock : ∀ q, q ∈ p :: qs → label_at cols q = c').
  { intros q Hq. rewrite <- E in Hq. apply label_positions_lookup in Hq.
    unfold label_at. by rewrite Hq. }
  destruct (decide (c' = c)) as [->|Hne].
  - rewrite E. rewrite !fmap_cons. simpl.
    rewrite (Hblock p) by left. by rewrite decide_True.
  - apply elem_of_cons in Hin as [->|Hin]; [done|].
    rewrite <- (IH rs eq_refl Hin).
    change (p :: qs ++ rs) with ((p :: qs) ++ rs).
    rewrite !fmap_app, label_positions_app.
    assert (Hnone : label_positions (label_at cols <$> p :: qs) c = []).
    { apply label_positions_nil. intros (q & Hq & Hqin)%list_elem_of_fmap.
      apply Hne. rewrite Hq. symmetry. by apply Hblock. }
    rewrite Hnone, app_nil_l.
    destruct (label_positions (label_at cols <$> rs) c) as [|q qs']; [done|].
    rewrite (fmap_cons _ q qs'). unfold cell. rewrite lookup_app_r.
    + rewrite !length_fmap. f_equal. f_equal. lia.
    + rewrite !length_fmap. lia.
Qed.

(** The rows of [df[wanted]] are the rows of [df], read under the wanted
    labels. *)
Lemma getitem_cols_rows joined wanted out :
  getitem_cols joined wanted = Ok out →
  (∀ x, x ∈ rows out →
        ∃ j, j ∈ rows joined ∧ ∀ c, c ∈ wanted → field out c x = field joined c j)
  ∧ (∀ j, j ∈ rows joined →
          ∃ x, x ∈ rows out ∧ ∀ c, c ∈ wanted → field out c x = field joined c j).
Proof.
  unfold getitem_cols.
  destruct (take_labels (columns joined) wanted) as [ps|] eqn:Eps; [|done].
  intros [= <-]. simpl. split.
  - intros x (j & -> & Hj)%list_elem_of_fmap. exists j. split; [done|].
    intros c Hc. unfold field; simpl. by apply (take_labels_cell _ wanted).
  - intros j Hj. exists (cell j <$> ps). split.
    + by apply (list_elem_of_fmap_2 (λ r, cell r <$> ps)).
    + intros c Hc. unfold field; simpl. by apply (take_labels_cell _ wanted).
Qed.

Lemma merge_rectangular L R J how on :
  merge L R how on = Ok J → rectangular L → rectangular R → rectangular J.
Proof.
  intros HJ HL HR. destruct (merge_inv L R J how on HJ) as (i & j & Hi & Hj & Hcols & Hrows).
  unfold rectangular in *. rewrite Hcols, Hrows. apply Forall_forall.
  intros x (l & Hx & Hl)%list_elem_of_bind.
  rewrite length_app, !length_fmap.
  rewrite Forall_forall in HL. rewrite Forall_forall in HR.
  assert (Hhits : x ∈ (λ r, l ++ delete j r) <$> filter (λ r, cell r j = cell l i) (rows R)
                  → length x = (length (columns L) + length (delete j (columns R)))%nat).
  { intros (r & -> & Hr)%list_elem_of_fmap. apply list_elem_of_filter in Hr as [_ Hr].
    rewrite length_app, (HL l Hl). f_equal.
    rewrite (length_delete_unique _ on _ Hj).
    rewrite length_delete; [by rewrite (HR r Hr)|].
    apply lookup_lt_is_Some. rewrite (HR r Hr).
    apply lookup_lt_is_Some. exists on. apply label_positions_lookup. rewrite Hj. left. }
  destruct how; [by apply Hhits|].
  destruct (filter (λ r, cell r j = cell l i) (rows R)) as [|h hits]; [|by apply Hhits].
  apply list_elem_of_singleton in Hx as ->.
  by rewrite length_app, length_replicate, (HL l Hl).
Qed.

Lemma merge_columns_split L R J how on :
  merge L R how on = Ok J →
  ∃ lcols rcols, columns J = lcols ++ rcols
    ∧ length lcols = length (columns L)
    ∧ length rcols = (length (columns R) - 1)%nat.
Proof.
  intros HJ. destruct (merge_inv L R J how on HJ) as (i & j & Hi & Hj & Hcols & _).
  eexists _, _. split; [exact Hcols|]. rewrite !length_fmap.
  split; [done | by apply (length_delete_unique _ on)].
Qed.

(** C3. When [transform_fact_orders] returns, on extracted frames in which
    orders is rectangular and carries the order keys and no other frame
    repeats another of those keys:
    - every output row carries the order_id of an order row that finds its
      user, payment, shipper and rating;
    - hence an order row that misses one of the four, and whose order_id no
      other order row shares, has no output row under its order_id;
    - an order row that finds the four and finds no voucher (its
      voucher_id null or dangling) has an output row with its order keys,
      projected from a joined row whose cells under the columns brought by
      vouchers are all null. *)
Theorem transform_fact_orders_join_semantics
    (w w1 : world) (dataframes : gmap string DataFrame) (O U P S R V out : DataFrame) :
  extract_all (dict_keys oltp_tables) ∅ w = (Ok dataframes, w1) →
  (transform_fact_orders w).1 = Ok out →
  dataframes !! "orders" = Some O → dataframes !! "users" = Some U →
  dataframes !! "payments" = Some P → dataframes !! "shippers" = Some S →
  dataframes !! "ratings" = Some R → dataframes !! "vouchers" = Some V →
  rectangular O → rectangular U → rectangular P → rectangular S → rectangular R →
  order_keys ⊆ columns O →
  keeps_order_keys U "user_id" → keeps_order_keys P "payment_id" →
  keeps_order_keys S "shipper_id" → keeps_order_keys R "rating_id" →
  keeps_order_keys V "voucher_id" →
  (∀ x, x ∈ rows out →
        ∃ o, o ∈ rows O ∧ field out "order_id" x = field O "order_id" o
             ∧ fully_matched O U P S R o)
  ∧ (∀ o, o ∈ rows O →
          (∀ o', o' ∈ rows O → field O "order_id" o' = field O "order_id" o → o' = o) →
          ¬ fully_matched O U P S R o →
          ∀ x, x ∈ rows out → field out "order_id" x ≠ field O "order_id" o)
  ∧ (∀ o, o ∈ rows O → fully_matched O U P S R o →
          ¬ matched V "voucher_id" (field O "voucher_id" o) →
          ∃ x joined j kept kcols vcols,
            x ∈ rows out
            ∧ Forall (λ c, field out c x = field O c o) order_keys
            ∧ join_fact_orders dataframes = Ok joined
            ∧ j ∈ rows joined
            ∧ (∀ c declared, dict_get dimension_columns "fact_orders" = Some declared →
                             c ∈ declared → field out c x = field joined c j)
            ∧ columns joined = kcols ++ vcols
            ∧ length vcols = (length (columns V) - 1)%nat
            ∧ length kept = length kcols
            ∧ j = kept ++ replicate (length vcols) VNull).
Proof.
  intros Hex Hout HO HU HP HS HR HV HrO HrU HrP HrS HrR Hkeys HkU HkP HkS HkR HkV.
  unfold transform_fact_orders in Hout.
  cbv beta iota delta [bind lift] in Hout. rewrite Hex in Hout.
  destruct (join_fact_orders dataframes) as [joined|] eqn:Hjoin; [|done].
  simpl in Hout. unfold getitem_declared in Hout.
  destruct (dict_get dimension_columns "fact_orders") as [declared|] eqn:Hdecl; [|done].
  assert (Hsub : order_keys ⊆ declared).
  { injection Hdecl as <-. intros c Hc.
    repeat (apply elem_of_cons in Hc as [-> | Hc]; [by_evaluation|]).
    by apply elem_of_nil in Hc. }
  assert (Hoid : "order_id" ∈ order_keys) by by_evaluation.
  destruct (getitem_cols_rows joined declared out Hout) as [Hproj Hlift].
  unfold join_fact_orders, getitem_dict in Hjoin.
  rewrite HO, HU, HP, HS, HR, HV in Hjoin. simpl in Hjoin.
  destruct (merge O U HowInner "user_id") as [J1|] eqn:E1; [|done]. simpl in Hjoin.
  destruct (merge J1 P HowInner "payment_id") as [J2|] eqn:E2; [|done]. simpl in Hjoin.
  destruct (merge J2 S HowInner "shipper_id") as [J3|] eqn:E3; [|done]. simpl in Hjoin.
  destruct (merge J3 R HowInner "rating_id") as [J4|] eqn:E4; [|done]. simpl in Hjoin.
  destruct (merge J4 V HowLeft "voucher_id") as [J5|] eqn:E5; [|done]. simpl in Hjoin.
  injection Hjoin as <-.
  assert (HuO : "user_id" ∈ columns O).
  { destruct (merge_inv _ _ _ _ _ E1) as (i & j & Hi & _). by eapply label_positions_cons_elem. }
  pose proof (joined_from_start O) as H0.
  pose proof (joined_from_inner O HrO Hkeys O U J1 "user_id" _ H0 E1 HkU HuO eq_refl) as H1.
  pose proof (joined_from_inner O HrO Hkeys J1 P J2 "payment_id" _ H1 E2 HkP
                (Hkeys "payment_id" ltac:(by_evaluation))
                (proj1 H1 "payment_id" ltac:(by_evaluation))) as H2.
  pose proof (joined_from_inner O HrO Hkeys J2 S J3 "shipper_id" _ H2 E3 HkS
                (Hkeys "shipper_id" ltac:(by_evaluation))
                (proj1 H2 "shipper_id" ltac:(by_evaluation))) as H3.
  pose proof (joined_from_inner O HrO Hkeys J3 R J4 "rating_id" _ H3 E4 HkR
                (Hkeys "rating_id" ltac:(by_evaluation))
                (proj1 H3 "rating_id" ltac:(by_evaluation))) as H4.
  destruct (joined_from_left O HrO Hkeys J4 V J5 "voucher_id" _ H4 E5 HkV
              (Hkeys "voucher_id" ltac:(by_evaluation))
              (proj1 H4 "voucher_id" ltac:(by_evaluation)))
    as [H5 Hnull].
  pose proof (joined_from_rename O Hkeys J5 _ H5) as (Hcols & Hsound & _).
  assert (Hfull : ∀ o, ((((True ∧ matched U "user_id" (field O "user_id" o))
                          ∧ matched P "payment_id" (field O "payment_id" o))
                         ∧ matched S "shipper_id" (field O "shipper_id" o))
                        ∧ matched R "rating_id" (field O "rating_id" o))
                       ↔ fully_matched O U P S R o).
  { intros o. unfold fully_matched. tauto. }
  assert (Hfirst : ∀ x, x ∈ rows out →
            ∃ o, o ∈ rows O ∧ field out "order_id" x = field O "order_id" o
                 ∧ fully_matched O U P S R o).
  { intros x Hx. destruct (Hproj x Hx) as (j & Hj & Hfields).
    destruct (Hsound j Hj) as (o & rest & Ho & -> & Hok).
    exists o. split; [done|]. split; [|by apply Hfull].
    rewrite (Hfields "order_id" (Hsub _ Hoid)).
    apply field_prefix; [by apply Hkeys | by apply Hcols | by apply rectangular_length]. }
  split; [exact Hfirst|]. split.
  - intros o Ho Huniq Hnot x Hx Heq.
    destruct (Hfirst x Hx) as (o' & Ho' & Heq' & Hfm).
    apply Hnot. rewrite <- (Huniq o' Ho'); [done|]. by rewrite <- Heq', Heq.
  - intros o Ho Hfm Hnov.
    destruct (Hnull o Ho (proj2 (Hfull o) Hfm) Hnov) as (kept & Hkept4 & Hkept & rest & ->).
    change (rows J5) with (rows (rename J5 "user_id_x" "user_id")) in Hkept.
    destruct (Hlift _ Hkept) as (x & Hx & Hfields).
    destruct (merge_columns_split _ _ _ _ _ E5) as (lcols & rcols & Hsplit & Hl & Hr).
    assert (HrJ4 : rectangular J4).
    { eapply merge_rectangular; [exact E4 | | done].
      eapply merge_rectangular; [exact E3 | | done].
      eapply merge_rectangular; [exact E2 | | done].
      eapply merge_rectangular; [exact E1 | done | done]. }
    exists x, (rename J5 "user_id_x" "user_id"),
      ((o ++ rest) ++ replicate (length (columns V) - 1) VNull), (o ++ rest),
      ((λ c, if decide (c = "user_id_x") then "user_id" else c) <$> lcols),
      ((λ c, if decide (c = "user_id_x") then "user_id" else c) <$> rcols).
    split; [done|]. split.
    { apply Forall_forall. intros c Hc. rewrite (Hfields c (Hsub c Hc)).
      rewrite <- app_assoc.
      apply field_prefix; [by apply Hkeys | by apply Hcols | by apply rectangular_length]. }
    split; [done|]. split; [done|]. split.
    { intros c declared' [= <-] Hc. by apply Hfields. }
    split; [unfold rename; simpl; by rewrite Hsplit, fmap_app|].
    rewrite !length_fmap. split; [done|]. split; [|by rewrite Hr].
    rewrite Hl. unfold rectangular in HrJ4. by eapply Forall_forall in HrJ4.
Qed.

Ltac keeps_by_cases :=
  let c := fresh "c" in let Hc := fresh "Hc" in let Hne := fresh "Hne" in
  intros c Hc Hne;
  repeat (apply elem_of_cons in Hc as [-> | Hc];
          [first [by_evaluation | exfalso; apply Hne; reflexivity]|]);
  apply elem_of_nil in Hc; destruct Hc.

Ltac rows_by_cases H :=
  repeat (apply elem_of_cons in H as [-> | H]);
  [.. | apply elem_of_nil in H; destruct H].

Lemma transform_fact_orders_join_semantics_witness :
  ∃ out, (transform_fact_orders orphan_world).1 = Ok out
    ∧ (∀ x, x ∈ rows out → field out "order_id" x ≠ VInt 2)
    ∧ (∃ x, x ∈ rows out ∧ field out "order_id" x = VInt 1)
    ∧ (∃ x, x ∈ rows out ∧ field out "order_id" x = VInt 3
            ∧ field out "voucher_id" x = VInt 7).
Proof.
  pose (run := extract_all (dict_keys oltp_tables) ∅ orphan_world).
  pose (dataframes := match run.1 with Ok d => d | Raise _ => ∅ end).
  pose (out := match (transform_fact_orders orphan_world).1 with
               | Ok df => df | Raise _ => mkFrame [] [] end).
  assert (HrO : rectangular orphan_orders) by by_evaluation.
  assert (HrU : rectangular seeded_users) by by_evaluation.
  assert (HrP : rectangular seeded_payments) by by_evaluation.
  assert (HrS : rectangular seeded_shippers) by by_evaluation.
  assert (HrR : rectangular seeded_ratings) by by_evaluation.
  assert (Hkeys : order_keys ⊆ columns orphan_orders) by subseteq_by_cases.
  assert (HkU : keeps_order_keys seeded_users "user_id") by keeps_by_cases.
  assert (HkP : keeps_order_keys seeded_payments "payment_id") by keeps_by_cases.
  assert (HkS : keeps_order_keys seeded_shippers "shipper_id") by keeps_by_cases.
  assert (HkR : keeps_order_keys seeded_ratings "rating_id") by keeps_by_cases.
  assert (HkV : keeps_order_keys seeded_vouchers "voucher_id") by keeps_by_cases.
  assert (Hfm : ∀ o, o ∈ rows orphan_orders → field orphan_orders "payment_id" o = VInt 1 →
                     fully_matched orphan_orders seeded_users seeded_payments
                                   seeded_shippers seeded_ratings o).
  { intros o Ho Hpay. rows_by_cases Ho; try discriminate Hpay;
      (split; [|split; [|split]]); eexists; (split; [left | reflexivity]). }
  assert (Hnov : ∀ v, ¬ matched seeded_vouchers "voucher_id" v).
  { intros v (r & Hr & _). apply elem_of_nil in Hr. destruct Hr. }
  assert (Hbad : ¬ fully_matched orphan_orders seeded_users seeded_payments
                     seeded_shippers seeded_ratings
                     [VInt 2; VStr "2024-02-02"; VInt 1; VInt 9; VInt 1; VInt 75000;
                      VInt 0; VNull; VInt 75000; VInt 1]).
  { intros (_ & (r & Hr & Hm) & _). rows_by_cases Hr. discriminate Hm. }
  assert (Huniq : ∀ o', o' ∈ rows orphan_orders →
            field orphan_orders "order_id" o' = VInt 2 →
            o' = [VInt 2; VStr "2024-02-02"; VInt 1; VInt 9; VInt 1; VInt 75000;
                  VInt 0; VNull; VInt 75000; VInt 1]).
  { intros o' Ho' Hid. rows_by_cases Ho'; first [discriminate Hid | reflexivity]. }
  destruct (transform_fact_orders_join_semantics orphan_world run.2 dataframes
              orphan_orders seeded_users seeded_payments seeded_shippers seeded_ratings
              seeded_vouchers out
              ltac:(vm_compute; reflexivity) ltac:(vm_compute; reflexivity)
              ltac:(vm_compute; reflexivity) ltac:(vm_compute; reflexivity)
              ltac:(vm_compute; reflexivity) ltac:(vm_compute; reflexivity)
              ltac:(vm_compute; reflexivity) ltac:(vm_compute; reflexivity)
              HrO HrU HrP HrS HrR Hkeys HkU HkP HkS HkR HkV)
    as (_ & Hdrop & Hkeep).
  exists out. split; [vm_compute; reflexivity|]. split; [|split].
  - intros x Hx.
    refine (Hdrop [VInt 2; VStr "2024-02-02"; VInt 1; VInt 9; VInt 1; VInt 75000;
                   VInt 0; VNull; VInt 75000; VInt 1] _ Huniq Hbad x Hx).
    right; left.
  - destruct (Hkeep [VInt 1; VStr "2024-02-01"; VInt 1; VInt 1; VInt 1; VInt 50000;
                     VInt 0; VNull; VInt 50000; VInt 1])
      as (x & _ & _ & _ & _ & _ & Hx & Hf & _).
    + left.
    + apply Hfm; [left | reflexivity].
    + apply Hnov.
    + exists x. split; [exact Hx|].
      apply Forall_cons in Hf as [Hid _]. exact Hid.
  - destruct (Hkeep [VInt 3; VStr "2024-02-03"; VInt 1; VInt 1; VInt 1; VInt 20000;
                     VInt 0; VInt 7; VInt 20000; VInt 1])
      as (x & _ & _ & _ & _ & _ & Hx & Hf & _).
    + right; right; left.
    + apply Hfm; [right; right; left | reflexivity].
    + apply Hnov.
    + exists x. split; [exact Hx|].
      apply Forall_cons in Hf as [Hid Hf]. split; [exact Hid|].
      apply Forall_cons in Hf as [_ Hf]. apply Forall_cons in Hf as [_ Hf].
      apply Forall_cons in Hf as [_ Hf]. apply Forall_cons in Hf as [Hv _]. exact Hv.
Defined.

(** ** Re-running the loads *)

Lemma warehouse_items_plain : Forall plain_item (dict_items warehouse_tables).
Proof.
  repeat (apply Forall_cons_2 || apply Forall_nil_2);
    (split; [done|]); (split; [done|]); (split; [done|]); eexists; reflexivity.
Qed.

Lemma etl_process_body_plain item w :
  plain_item item →
  etl_process_body item w =
    match dict_get oltp_tables item.1 with
    | Some physical =>
        match oltp w !! physical with
        | Some df =>
            load_data df item.2
              (with_trace w (trace w ++
                 [EvRead OLTP physical;
                  EvPrint ("Extract Data " +:+ physical +:+ " Success");
                  EvPrint ("Transform Data " +:+ item.1 +:+ " Success")]))
        | None =>
            (Raise (DatabaseError ("relation " +:+ physical +:+ " does not exist")),
             with_trace w (trace w ++ [EvRead OLTP physical]))
        end
    | None =>
        (Raise (ValueError ("Table name '" +:+ item.1 +:+
                            "' not found in oltp_tables dictionary")), w)
    end.
Proof.
  destruct item as [k v]. intros (Hk1 & Hk2 & Hdim & _). cbn [fst snd] in *.
  unfold etl_process_body. rewrite !decide_False by done.
  unfold extract_data, transform_data. rewrite Hdim.
  destruct (dict_get oltp_tables k) as [physical|]; [|done].
  cbv beta iota delta [bind read_sql_table emit print ret with_trace tables]. simpl.
  destruct (oltp w !! physical) as [df|]; [|done].
  simpl. by rewrite <- !app_assoc.
Qed.

Lemma cell_align cols tcols r key i p :
  tcols !! p = Some key → label_positions cols key = [i] →
  cell (align cols tcols r) p = cell r i.
Proof.
  intros Hp Hi. unfold align, cell at 1.
  rewrite list_lookup_fmap, Hp. simpl. by rewrite Hi.
Qed.

(** After a successful pass over a plain item its destination covers its
    source; the source store, the sequence and the other tables are as
    before. *)
Lemma etl_process_body_covers item w w' :
  plain_item item → etl_process_body item w = (Ok tt, w') →
  covered w' item
  ∧ oltp w' = oltp w ∧ dm_sales_seq w' = dm_sales_seq w
  ∧ (∀ t, t ≠ item.2 → dwh w' !! t = dwh w !! t)
  ∧ (∀ t, is_Some (dwh w !! t) → is_Some (dwh w' !! t)).
Proof.
  intros Hplain. rewrite (etl_process_body_plain item w Hplain).
  destruct (dict_get oltp_tables item.1) as [physical|] eqn:Hphys; [|done].
  destruct (oltp w !! physical) as [df|] eqn:Hdf; [|done].
  intros Hload.
  destruct (load_data_inv _ _ _ _ Hload) as (key & T & i & p & ps & Hkey & HT & Hp & Hi & Hfresh).
  rewrite (load_data_spec df item.2 key T i p ps _ Hkey HT Hp Hi Hfresh) in Hload.
  injection Hload as <-. simpl.
  split; [|split; [done|split; [done|split]]].
  - exists physical, df, key, (mkFrame (columns T) (rows T ++ (align (columns df) (columns T) <$>
             filter (λ r, cell r i ∉ (λ r, cell r p) <$> rows T) (rows df)))), i, p, ps.
    simpl. repeat (split; [done|]). split; [by rewrite lookup_insert_eq|].
    split; [done|]. split; [done|].
    intros r Hr. rewrite fmap_app, elem_of_app.
    destruct (decide (cell r i ∈ (λ r, cell r p) <$> rows T)) as [Hin|Hnot]; [by left|].
    right. apply list_elem_of_fmap. exists (align (columns df) (columns T) r). split.
    + symmetry. apply (cell_align _ _ _ key).
      * apply label_positions_lookup. rewrite Hp. left.
      * by apply locate_OneLabel.
    + apply list_elem_of_fmap_2. by apply list_elem_of_filter.
  - intros t Hne. by rewrite lookup_insert_ne.
  - intros t Hsome. destruct (decide (item.2 = t)) as [->|Hne].
    + rewrite lookup_insert_eq. eauto.
    + by rewrite lookup_insert_ne.
Qed.

Lemma covered_preserved w w' item :
  oltp w' = oltp w → dwh w' !! item.2 = dwh w !! item.2 → covered w item → covered w' item.
Proof.
  intros Ho Hd (physical & df & key & T & i & p & ps & H1 & H2 & H3 & H4 & H5).
  exists physical, df, key, T, i, p, ps. rewrite Ho, Hd. done.
Qed.

(** A pass over a covered item only extends the trace. *)
Lemma etl_process_body_quiet item w :
  plain_item item → covered w item →
  etl_process_body item w = (Ok tt, with_trace w (trace w ++ quiet_pass item)).
Proof.
  intros Hplain (physical & df & key & T & i & p & ps & Hphys & Hdf & Hkey & HT & Hp & Hi & Hcov).
  rewrite (etl_process_body_plain item w Hplain). unfold quiet_pass. rewrite Hphys, Hdf.
  assert (Hnil : filter (λ r, cell r i ∉ (λ r, cell r p) <$> rows T) (rows df) = []).
  { apply elem_of_nil_inv. intros r (Hnot & Hr)%list_elem_of_filter. by apply Hnot, Hcov. }
  match goal with
  | |- load_data _ _ ?w0 = _ =>
      rewrite (load_data_spec df item.2 key T i p ps w0 Hkey HT Hp Hi); [|by left]
  end.
  rewrite Hnil. simpl. rewrite (insert_same_rows _ _ _ HT).
  unfold with_trace. simpl. by rewrite <- !app_assoc.
Qed.

Lemma for_each_covers items w w' :
  Forall plain_item items → NoDup items.*2 →
  for_each items etl_process_body w = (Ok tt, w') →
  (∀ item, item ∈ items → covered w' item)
  ∧ oltp w' = oltp w ∧ dm_sales_seq w' = dm_sales_seq w
  ∧ (∀ t, t ∉ items.*2 → dwh w' !! t = dwh w !! t)
  ∧ (∀ t, is_Some (dwh w !! t) → is_Some (dwh w' !! t)).
Proof.
  revert w. induction items as [|item items IH]; intros w Hplain Hnd Hrun.
  - injection Hrun as <-. split; [intros item H; by apply elem_of_nil in H | done].
  - apply Forall_cons in Hplain as [Hitem Hplain].
    rewrite fmap_cons in Hnd. apply NoDup_cons in Hnd as [Hfresh Hnd].
    simpl in Hrun. apply bind_inv_ok in Hrun as ([] & w1 & Hbody & Hrest).
    destruct (etl_process_body_covers item w w1 Hitem Hbody) as (Hcov & Ho & Hs & Hother & Hsome).
    destruct (IH w1 Hplain Hnd Hrest) as (Hcovs & Ho' & Hs' & Hother' & Hsome').
    split; [|split; [congruence | split; [congruence | split]]].
    + intros it [->|Hin]%elem_of_cons; [|by apply Hcovs].
      apply (covered_preserved w1); [done | by apply Hother' | done].
    + intros t Ht. rewrite fmap_cons in Ht. apply not_elem_of_cons in Ht as [Hne Ht].
      rewrite (Hother' t Ht). by apply Hother.
    + intros t Ht. by apply Hsome', Hsome.
Qed.

Lemma for_each_quiet items w :
  Forall plain_item items → (∀ item, item ∈ items → covered w item) →
  for_each items etl_process_body w =
    (Ok tt, with_trace w (trace w ++ (items ≫= quiet_pass))).
Proof.
  revert w. induction items as [|item items IH]; intros w Hplain Hcov.
  - simpl. unfold ret, with_trace. rewrite app_nil_r. by destruct w.
  - apply Forall_cons in Hplain as [Hitem Hplain]. simpl.
    rewrite (bind_ok _ _ _ _ _ (etl_process_body_quiet item w Hitem (Hcov item ltac:(left)))).
    rewrite IH; [|done|].
    + unfold with_trace. simpl. by rewrite <- app_assoc.
    + intros it Hit. apply (covered_preserved w); [done | done |]. apply Hcov. by right.
Qed.

(** ** Creating the tables *)

Lemma execute_create_inv d w w' :
  execute_create d w = (Ok tt, w') →
  oltp w' = oltp w
  ∧ trace w' = trace w ++ [EvExecute ("CREATE TABLE IF NOT EXISTS " +:+ ct_table d)]
  ∧ ((is_Some (dwh w !! ct_table d) ∧ dwh w' = dwh w ∧ dm_sales_seq w' = dm_sales_seq w)
     ∨ (dwh w !! ct_table d = None
        ∧ dwh w' = <[ct_table d := mkFrame (ct_columns d) []]> (dwh w))).
Proof.
  unfold execute_create. cbv beta iota delta [bind emit]. simpl.
  destruct (dwh w !! ct_table d) as [T|] eqn:HT.
  - intros [= <-]. simpl. split; [done|]. split; [done|]. left. eauto.
  - case_decide; [|done]. intros [= <-]. simpl. split; [done|]. split; [done|]. by right.
Qed.

Lemma execute_create_exists d w :
  is_Some (dwh w !! ct_table d) →
  execute_create d w =
    (Ok tt, with_trace w (trace w ++ [EvExecute ("CREATE TABLE IF NOT EXISTS " +:+ ct_table d)])).
Proof.
  intros [T HT]. unfold execute_create. cbv beta iota delta [bind emit]. simpl.
  by rewrite HT.
Qed.

Lemma create_tables_inv ds w w' :
  for_each ds execute_create w = (Ok tt, w') →
  oltp w' = oltp w ∧ (∀ t, is_Some (dwh w !! t) → is_Some (dwh w' !! t)).
Proof.
  revert w. induction ds as [|d ds IH]; intros w Hrun.
  - by injection Hrun as <-.
  - simpl in Hrun. apply bind_inv_ok in Hrun as ([] & w1 & Hd & Hrest).
    destruct (execute_create_inv d w w1 Hd) as (Ho & _ & Hcase).
    destruct (IH w1 Hrest) as (Ho' & Hsome'). split; [congruence|].
    intros t Ht. apply Hsome'.
    destruct Hcase as [(_ & -> & _) | (Hnone & ->)]; [done|].
    destruct (decide (ct_table d = t)) as [->|Hne].
    + rewrite lookup_insert_eq. eauto.
    + by rewrite lookup_insert_ne.
Qed.

Lemma create_tables_quiet ds w :
  (∀ d, d ∈ ds → is_Some (dwh w !! ct_table d)) →
  for_each ds execute_create w =
    (Ok tt, with_trace w (trace w ++
       ((λ d, EvExecute ("CREATE TABLE IF NOT EXISTS " +:+ ct_table d)) <$> ds))).
Proof.
  revert w. induction ds as [|d ds IH]; intros w Hall.
  - simpl. unfold ret, with_trace. rewrite app_nil_r. by destruct w.
  - simpl. rewrite (bind_ok _ _ _ _ _ (execute_create_exists d w (Hall d ltac:(left)))).
    rewrite IH.
    + unfold with_trace. simpl. by rewrite <- app_assoc.
    + intros d' Hd'. simpl. apply Hall. by right.
Qed.

(** ** The mart *)

Lemma select_dm_sales_insert db X :
  select_dm_sales (<["dm_sales" := X]> db) = select_dm_sales db.
Proof.
  unfold select_dm_sales, sql_relation. by rewrite !lookup_insert_ne by done.
Qed.

Lemma length_mart_rows tcols next selected :
  length (mart_rows tcols next selected) = length selected.
Proof. unfold mart_rows. by rewrite length_imap, length_fmap. Qed.

Lemma execute_insert_dm_sales_inv w w' :
  execute_insert_dm_sales w = (Ok tt, w') →
  ∃ T selected,
    dwh w !! "dm_sales" = Some T
    ∧ select_dm_sales (dwh w) = Ok selected
    ∧ Forall (λ c, c ∈ columns T) dm_sales_insert_columns
    ∧ w' = mkWorld (oltp w)
             (<["dm_sales" := mkFrame (columns T)
                                (mart_rows (columns T) (dm_sales_seq w) selected)]> (dwh w))
             (dm_sales_seq w + Z.of_nat (length selected))
             (trace w ++ [EvExecute "TRUNCATE TABLE dm_sales; INSERT INTO dm_sales"]).
Proof.
  unfold execute_insert_dm_sales. cbv beta iota delta [bind emit]. simpl.
  destruct (dwh w !! "dm_sales") as [T|] eqn:HT; [|done].
  destruct (select_dm_sales (dwh w)) as [selected|] eqn:Hsel; [|done]. simpl.
  unfold sql_values. case_decide as Hdec; [|done]. destruct Hdec as [_ Hall].
  intros [= <-]. exists T, selected. repeat (split; [done|]).
  unfold mart_rows. by rewrite length_fmap.
Qed.

Lemma execute_insert_dm_sales_spec w T selected :
  dwh w !! "dm_sales" = Some T →
  select_dm_sales (dwh w) = Ok selected →
  Forall (λ c, c ∈ columns T) dm_sales_insert_columns →
  execute_insert_dm_sales w =
    (Ok tt,
     mkWorld (oltp w)
       (<["dm_sales" := mkFrame (columns T)
                          (mart_rows (columns T) (dm_sales_seq w) selected)]> (dwh w))
       (dm_sales_seq w + Z.of_nat (length selected))
       (trace w ++ [EvExecute "TRUNCATE TABLE dm_sales; INSERT INTO dm_sales"])).
Proof.
  intros HT Hsel Hall.
  unfold execute_insert_dm_sales. cbv beta iota delta [bind emit]. simpl.
  rewrite HT, Hsel. simpl. unfold sql_values. rewrite decide_True.
  - unfold mart_rows. by rewrite length_fmap.
  - split; [by_evaluation | done].
Qed.

(** What a successful mart build went through and leaves. *)
Lemma create_and_insert_dm_sales_inv w w' :
  create_and_insert_dm_sales w = (Ok tt, w') →
  ∃ tcols selected next,
    select_dm_sales (dwh w) = Ok selected
    ∧ Forall (λ c, c ∈ tcols) dm_sales_insert_columns
    ∧ (∀ T, dwh w !! "dm_sales" = Some T → columns T = tcols)
    ∧ oltp w' = oltp w
    ∧ dwh w' = <["dm_sales" := mkFrame tcols (mart_rows tcols next selected)]> (dwh w)
    ∧ trace w' = trace w ++
        [EvExecute "CREATE TABLE IF NOT EXISTS dm_sales";
         EvExecute "TRUNCATE TABLE dm_sales; INSERT INTO dm_sales";
         EvPrint "Data Mart Has Create Success"].
Proof.
  unfold create_and_insert_dm_sales. intros H.
  apply bind_inv_ok in H as ([] & wa & Hcreate & H).
  apply bind_inv_ok in H as ([] & wb & Hinsert & Hprint).
  injection Hprint as <-.
  destruct (execute_create_inv _ _ _ Hcreate) as (Ho & Ht & Hcase).
  destruct (execute_insert_dm_sales_inv _ _ Hinsert) as (T & selected & HT & Hsel & Hall & ->).
  simpl. exists (columns T), selected, (dm_sales_seq wa).
  destruct Hcase as [(_ & Hsame & _) | (Hnone & Hnew)].
  - rewrite Hsame in *. repeat (split; [done|]). split; [congruence|].
    split; [done|]. split; [done|]. rewrite Ht, <- !app_assoc. done.
  - rewrite Hnew in *. simpl in *. rewrite select_dm_sales_insert in Hsel.
    split; [done|]. split; [done|]. split; [congruence|]. split; [done|].
    split; [by rewrite insert_insert_eq|]. rewrite Ht, <- !app_assoc. done.
Qed.

(** The mart build on a warehouse where dm_sales exists. *)
Lemma create_and_insert_dm_sales_spec w T selected :
  dwh w !! "dm_sales" = Some T →
  select_dm_sales (dwh w) = Ok selected →
  Forall (λ c, c ∈ columns T) dm_sales_insert_columns →
  create_and_insert_dm_sales w =
    (Ok tt,
     mkWorld (oltp w)
       (<["dm_sales" := mkFrame (columns T)
                          (mart_rows (columns T) (dm_sales_seq w) selected)]> (dwh w))
       (dm_sales_seq w + Z.of_nat (length selected))
       (trace w ++
          [EvExecute "CREATE TABLE IF NOT EXISTS dm_sales";
           EvExecute "TRUNCATE TABLE dm_sales; INSERT INTO dm_sales";
           EvPrint "Data Mart Has Create Success"])).
Proof.
  intros HT Hsel Hall. unfold create_and_insert_dm_sales.
  rewrite (bind_ok _ _ _ _ _ (execute_create_exists ddl_dim_sales w ltac:(simpl; eauto))).
  rewrite (bind_ok _ _ _ _ _
             (execute_insert_dm_sales_spec (with_trace w _) T selected HT Hsel Hall)).
  unfold print, emit. simpl. by rewrite <- !app_assoc.
Qed.

(** ** Two runs *)

Lemma etl_process_inv w w1 :
  etl_process w = (Ok tt, w1) →
  ∃ wa wb,
    create_tables w = (Ok tt, wa)
    ∧ for_each (dict_items warehouse_tables) etl_process_body wa = (Ok tt, wb)
    ∧ create_and_insert_dm_sales wb = (Ok tt, w1).
Proof.
  unfold etl_process. intros H.
  apply bind_inv_ok in H as ([] & wa & Hcreate & H).
  apply bind_inv_ok in H as ([] & wb & Hloop & Hmart). eauto.
Qed.

Lemma warehouse_targets_NoDup : NoDup (dict_items warehouse_tables).*2.
Proof. by_evaluation. Qed.

Lemma warehouse_targets_not_mart item :
  item ∈ dict_items warehouse_tables → item.2 ≠ "dm_sales".
Proof.
  intros H. repeat (apply elem_of_cons in H as [-> | H]; [done|]).
  by apply elem_of_nil in H.
Qed.

Lemma ddl_tables_are_targets d :
  d ∈ dict_values ddl_statements →
  ∃ item, item ∈ dict_items warehouse_tables ∧ item.2 = ct_table d.
Proof.
  intros H.
  assert (Hin : ct_table d ∈ (dict_items warehouse_tables).*2).
  { unfold dict_values, ddl_statements in H. simpl in H.
    repeat (apply elem_of_cons in H as [-> | H]; [by_evaluation|]).
    by apply elem_of_nil in H. }
  apply list_elem_of_fmap in Hin as (item & Heq & Hitem). eauto.
Qed.

Lemma covered_table w item : covered w item → is_Some (dwh w !! item.2).
Proof. intros (? & ? & ? & T & ? & ? & ? & _ & _ & _ & HT & _). eauto. Qed.

(** After a run that returned, the next run returns too; it leaves the
    source and every loaded table as they are and rebuilds dm_sales from
    the same selection. *)
Lemma etl_process_rerun w w1 :
  etl_process w = (Ok tt, w1) →
  ∃ tcols selected next,
    oltp w1 = oltp w
    ∧ select_dm_sales (dwh w1) = Ok selected
    ∧ dwh w1 !! "dm_sales" = Some (mkFrame tcols (mart_rows tcols next selected))
    ∧ etl_process w1 =
        (Ok tt,
         mkWorld (oltp w1)
           (<["dm_sales" := mkFrame tcols (mart_rows tcols (dm_sales_seq w1) selected)]>
              (dwh w1))
           (dm_sales_seq w1 + Z.of_nat (length selected))
           (trace w1 ++ rerun_events)).
Proof.
  intros Hrun. destruct (etl_process_inv w w1 Hrun) as (wa & wb & Hcreate & Hloop & Hmart).
  destruct (create_tables_inv _ _ _ Hcreate) as (Hoa & _).
  destruct (for_each_covers _ _ _ warehouse_items_plain warehouse_targets_NoDup Hloop)
    as (Hcov & Hob & _).
  destruct (create_and_insert_dm_sales_inv _ _ Hmart)
    as (tcols & selected & next & Hsel & Hall & _ & Ho1 & Hd1 & _).
  assert (Hcov1 : ∀ item, item ∈ dict_items warehouse_tables → covered w1 item).
  { intros item Hitem. apply (covered_preserved wb); [done | | by apply Hcov].
    rewrite Hd1. apply lookup_insert_ne. intros Heq.
    by apply (warehouse_targets_not_mart item Hitem). }
  assert (Hsel1 : select_dm_sales (dwh w1) = Ok selected).
  { by rewrite Hd1, select_dm_sales_insert. }
  assert (Hmart1 : dwh w1 !! "dm_sales" = Some (mkFrame tcols (mart_rows tcols next selected))).
  { by rewrite Hd1, lookup_insert_eq. }
  exists tcols, selected, next.
  split; [congruence|]. split; [done|]. split; [done|].
  assert (Hexist : ∀ d, d ∈ dict_values ddl_statements → is_Some (dwh w1 !! ct_table d)).
  { intros d Hd. destruct (ddl_tables_are_targets d Hd) as (item & Hitem & <-).
    by apply covered_table, Hcov1. }
  unfold etl_process, create_tables.
  rewrite (bind_ok _ _ _ _ _ (create_tables_quiet _ w1 Hexist)). cbv beta.
  match goal with
  | |- bind (for_each _ _) _ ?wx = _ =>
      assert (Hcovx : ∀ item, item ∈ dict_items warehouse_tables → covered wx item)
        by (intros item Hitem; by apply (covered_preserved w1), Hcov1);
      rewrite (bind_ok _ _ _ _ _ (for_each_quiet _ wx warehouse_items_plain Hcovx))
  end.
  cbv beta.
  rewrite (create_and_insert_dm_sales_spec _ (mkFrame tcols (mart_rows tcols next selected))
             selected); [|done|done|done].
  unfold with_trace, rerun_events. simpl. by rewrite <- !app_assoc.
Qed.

Lemma rerun_events_nothing_inserted : nothing_inserted rerun_events.
Proof. repeat (apply Forall_cons_2 || apply Forall_nil_2); done. Qed.

(** C7. After a run that returned, running the pipeline again on the
    unchanged source returns as well and leaves every dimension and fact
    table exactly as it was: each [to_sql] of the second run is handed a
    frame without rows, every candidate key being already in the
    destination.  The first run leaves the source store untouched. *)
Theorem etl_process_loads_idempotent (w w1 : world) :
  etl_process w = (Ok tt, w1) →
  oltp w1 = oltp w
  ∧ ∃ w2 evs,
      etl_process w1 = (Ok tt, w2)
      ∧ oltp w2 = oltp w1
      ∧ (∀ t, t ∈ dict_values warehouse_tables → dwh w2 !! t = dwh w1 !! t)
      ∧ trace w2 = trace w1 ++ evs
      ∧ nothing_inserted evs
      ∧ Forall (λ t, EvInsert t 0 ∈ evs) (dict_values warehouse_tables).
Proof.
  intros Hrun.
  destruct (etl_process_rerun w w1 Hrun) as (tcols & selected & next & Ho & _ & _ & Hrerun).
  split; [done|]. eexists _, rerun_events. split; [exact Hrerun|]. simpl.
  split; [done|]. split; [|split; [done|split; [apply rerun_events_nothing_inserted|]]].
  - intros t Ht. apply lookup_insert_ne. intros <-.
    repeat (apply elem_of_cons in Ht as [Ht | Ht]; [discriminate Ht|]).
    by apply elem_of_nil in Ht.
  - repeat (apply Forall_cons_2 || apply Forall_nil_2); by_evaluation.
Qed.

Lemma etl_process_loads_idempotent_witness :
  ∃ w1 w2,
    etl_process voucher_world = (Ok tt, w1)
    ∧ etl_process w1 = (Ok tt, w2)
    ∧ table_rows w2 "fact_orders" = table_rows w1 "fact_orders"
    ∧ length (table_rows w1 "fact_orders") = 1%nat.
Proof.
  pose (w1 := (etl_process voucher_world).2).
  assert (Hlen : length (table_rows w1 "fact_orders") = 1%nat) by (vm_compute; reflexivity).
  assert (Hin : "fact_orders" ∈ dict_values warehouse_tables) by by_evaluation.
  assert (Hrun : etl_process voucher_world = (Ok tt, w1)) by (vm_compute; reflexivity).
  destruct (etl_process_loads_idempotent voucher_world w1 Hrun)
    as (_ & w2 & evs & Hrun2 & _ & Htables & _).
  exists w1, w2. split; [exact Hrun|]. split; [exact Hrun2|]. split; [|exact Hlen].
  unfold table_rows. rewrite (Htables "fact_orders" Hin). reflexivity.
Defined.

(** C8. The mart build replaces the content of dm_sales: whatever the table
    held, after [create_and_insert_dm_sales] it holds exactly the rows
    inserted for one evaluation of the SELECT over the fact and dimension
    tables, one row per selected row.  Hence after two consecutive runs the
    row count of dm_sales is that of one evaluation of the SELECT on the
    final warehouse, and equals the row count after the first run. *)
Theorem dm_sales_full_replace :
  (∀ w w', create_and_insert_dm_sales w = (Ok tt, w') →
     ∃ tcols next selected,
       select_dm_sales (dwh w') = Ok selected
       ∧ dwh w' !! "dm_sales" = Some (mkFrame tcols (mart_rows tcols next selected))
       ∧ length (table_rows w' "dm_sales") = length selected)
  ∧ (∀ w w1 w2, etl_process w = (Ok tt, w1) → etl_process w1 = (Ok tt, w2) →
       ∃ selected,
         select_dm_sales (dwh w2) = Ok selected
         ∧ length (table_rows w2 "dm_sales") = length selected
         ∧ length (table_rows w2 "dm_sales") = length (table_rows w1 "dm_sales")).
Proof.
  split.
  - intros w w' Hmart.
    destruct (create_and_insert_dm_sales_inv _ _ Hmart)
      as (tcols & selected & next & Hsel & _ & _ & _ & Hd & _).
    exists tcols, next, selected. rewrite Hd, select_dm_sales_insert.
    split; [done|]. split; [by rewrite lookup_insert_eq|].
    unfold table_rows. rewrite Hd, lookup_insert_eq. simpl. apply length_mart_rows.
  - intros w w1 w2 Hrun1 Hrun2.
    destruct (etl_process_rerun w w1 Hrun1) as (tcols & selected & next & _ & Hsel & Hm1 & Hrerun).
    rewrite Hrerun in Hrun2. injection Hrun2 as <-.
    exists selected. unfold table_rows. simpl.
    rewrite select_dm_sales_insert, lookup_insert_eq, Hm1. simpl.
    rewrite !length_mart_rows. done.
Qed.

Lemma dm_sales_full_replace_witness :
  ∃ w1 w2,
    etl_process voucher_world = (Ok tt, w1)
    ∧ etl_process w1 = (Ok tt, w2)
    ∧ length (table_rows w1 "dm_sales") = 1%nat
    ∧ length (table_rows w2 "dm_sales") = 1%nat.
Proof.
  pose (w1 := (etl_process voucher_world).2).
  pose (w2 := (etl_process w1).2).
  assert (Hlen : length (table_rows w1 "dm_sales") = 1%nat) by (vm_compute; reflexivity).
  assert (Hrun1 : etl_process voucher_world = (Ok tt, w1)) by (vm_compute; reflexivity).
  assert (Hrun2 : etl_process w1 = (Ok tt, w2)) by (vm_compute; reflexivity).
  destruct (proj2 dm_sales_full_replace voucher_world w1 w2 Hrun1 Hrun2)
    as (selected & _ & _ & Hsame).
  exists w1, w2. split; [exact Hrun1|]. split; [exact Hrun2|]. split; [exact Hlen|].
  rewrite Hsame. exact Hlen.
Defined.

(** ** The end-to-end scenario *)

Lemma select_dm_sales_without_vouchers db V selected :
  select_dm_sales db = Ok selected →
  db !! "dim_voucher" = Some V → rows V = [] →
  selected = [].
Proof.
  unfold select_dm_sales, sql_relation, and_then. intros H HV Hrows. rewrite HV in H.
  repeat (match type of H with
          | context [match ?m !! ?k with _ => _ end] => destruct (m !! k); [|done]
          | context [decide ?P] => destruct (decide P); [|done]
          end).
  injection H as <-. rewrite Hrows.
  apply elem_of_nil_inv. intros x Hx.
  do 4 (apply list_elem_of_bind in Hx as (? & Hx & _)).
  simpl in Hx. by apply elem_of_nil in Hx.
Qed.

(** C2 (the code departs from it). On the seeded source the run returns;
    fact_orders holds one row, with a null voucher_id; fact_order_items
    holds one row; dm_sales holds no row, because the mart statement joins
    dim_voucher with an inner join and the order has no voucher. *)
Theorem seeded_run_leaves_dm_sales_empty :
  ∃ w' fo r,
    etl_process seeded_world = (Ok tt, w')
    ∧ dwh w' !! "fact_orders" = Some fo
    ∧ rows fo = [r] ∧ field fo "voucher_id" r = VNull
    ∧ length (table_rows w' "fact_order_items") = 1%nat
    ∧ is_Some (dwh w' !! "dm_sales")
    ∧ table_rows w' "dm_sales" = [].
Proof.
  exists (etl_process seeded_world).2, seeded_orders,
    [VInt 1; VStr "2024-02-01"; VInt 1; VInt 1; VInt 1; VInt 50000;
     VInt 0; VNull; VInt 50000; VInt 1].
  split; [vm_compute; reflexivity|].
  split; [vm_compute; reflexivity|].
  split; [reflexivity|]. split; [reflexivity|].
  split; [vm_compute; reflexivity|].
  split; [|vm_compute; reflexivity].
  eexists. vm_compute. reflexivity.
Qed.


(** * Further properties of the code *)

(** ** [get_unique_key] *)

(** X1. [get_unique_key] recognises exactly the nine destination tables of
    [warehouse_tables]: for each of them it returns the first column that
    [dimension_columns] declares for the table, which is also the first
    column of its CREATE TABLE statement; for every other name (dm_sales
    included) it raises [ValueError]. *)
Theorem get_unique_key_recognises_destinations (table_name : string) :
  (table_name ∈ dict_values warehouse_tables →
   ∃ key declared ddl,
     get_unique_key table_name = Ok key
     ∧ dict_get dimension_columns table_name = Some (key :: declared)
     ∧ dict_get ddl_statements table_name = Some ddl
     ∧ ct_table ddl = table_name
     ∧ head (ct_columns ddl) = Some key)
  ∧ (table_name ∉ dict_values warehouse_tables →
     get_unique_key table_name = Raise (ValueError "Table name not recognized.")).
Proof.
  split.
  - intros H. unfold dict_values, warehouse_tables in H. simpl in H.
    repeat (apply elem_of_cons in H as [-> | H];
            [eexists _, _, _; repeat split; reflexivity|]).
    by apply elem_of_nil in H.
  - intros H. unfold get_unique_key.
    repeat (destruct (decide _) as [-> | _]; [exfalso; apply H; by_evaluation|]).
    reflexivity.
Qed.

Lemma get_unique_key_recognises_destinations_witness :
  get_unique_key "fact_order_items" = Ok "order_item_id"
  ∧ get_unique_key "dm_sales" = Raise (ValueError "Table name not recognized.").
Proof.
  split.
  - destruct (proj1 (get_unique_key_recognises_destinations "fact_order_items")
                ltac:(by_evaluation)) as (key & declared & ddl & Hkey & Hdecl & _).
    rewrite Hkey. injection Hdecl as <- _. reflexivity.
  - apply (proj2 (get_unique_key_recognises_destinations "dm_sales")). by_evaluation.
Defined.

(** ** [deduplicate_data] *)

(** X2. When [deduplicate_data] returns, the frame it returns has the
    header of the candidates and a sub-list of their rows, in the same
    order; deduplicating that frame again against the same existing data
    changes nothing; and against existing data without rows the candidates
    come back as they are, rows that share a key with one another
    included. *)
Theorem deduplicate_data_keeps_order (new_data existing_data out : DataFrame)
    (unique_key : string) :
  deduplicate_data new_data existing_data unique_key = Ok out →
  columns out = columns new_data
  ∧ rows out `sublist_of` rows new_data
  ∧ deduplicate_data out existing_data unique_key = Ok out
  ∧ (rows existing_data = [] → out = new_data).
Proof.
  unfold deduplicate_data, and_then.
  destruct (getitem_col existing_data unique_key) as [keys|] eqn:Hkeys; [|done].
  destruct (locate (columns new_data) unique_key) as [|i|] eqn:Hi; [done| |done].
  intros [= <-]. simpl. rewrite Hi.
  split; [done|]. split; [apply sublist_filter|]. split.
  - f_equal. f_equal. apply list_filter_filter_l. done.
  - intros Hnone. unfold getitem_col in Hkeys.
    destruct (locate (columns existing_data) unique_key); try done.
    injection Hkeys as <-. rewrite Hnone. simpl.
    destruct new_data as [cs rs]. simpl. f_equal.
    induction rs as [|r rs IH]; [done|].
    rewrite filter_cons_True; [by rewrite IH | apply not_elem_of_nil].
Qed.

Lemma deduplicate_data_keeps_order_witness :
  ∃ out, deduplicate_data shipper_candidates
           (mkFrame ["shipper_id"] [[VInt 1]]) "shipper_id" = Ok out
    ∧ rows out = [[VInt 2; VStr "ekspres"]]
    ∧ rows out `sublist_of` rows shipper_candidates.
Proof.
  eexists. split; [reflexivity|]. split; [reflexivity|].
  apply (deduplicate_data_keeps_order shipper_candidates
           (mkFrame ["shipper_id"] [[VInt 1]]) _ "shipper_id" eq_refl).
Defined.

(** ** Failures of [load_data] *)

Lemma load_data_fails_closed_stores df table_name w e w' :
  load_data df table_name w = (Raise e, w') →
  oltp w' = oltp w ∧ dwh w' = dwh w ∧ dm_sales_seq w' = dm_sales_seq w.
Proof.
  unfold load_data.
  cbv beta iota delta [bind lift read_sql_column emit print to_sql with_dwh]. simpl.
  destruct (get_unique_key table_name) as [key|]; [|by intros [= _ <-]].
  destruct (dwh w !! table_name) as [T|] eqn:HT; [|by intros [= _ <-]].
  destruct (label_positions (columns T) key) as [|p ps]; [by intros [= _ <-]|].
  destruct (deduplicate_data df _ key) as [fresh|]; [|by intros [= _ <-]].
  simpl. rewrite HT.
  destruct (rows fresh) as [|r rs]; [done|].
  destruct (sql_values T (columns fresh) (r :: rs)); [done | by intros [= _ <-]].
Qed.

(** X3. [load_data] fails closed.  An unrecognised table name raises the
    [ValueError] of [get_unique_key] before anything is read; when the
    candidates lack the key column it raises [KeyError] after the read of
    the existing keys; and whatever it raises, both stores and the
    sequence are as before: in particular a destination table that does
    not exist is not created and no part of the candidates is inserted. *)
Theorem load_data_fails_closed (df : DataFrame) (table_name : string) (w : world) :
  (∀ e, get_unique_key table_name = Raise e →
        load_data df table_name w = (Raise e, w))
  ∧ (∀ key T,
       get_unique_key table_name = Ok key → dwh w !! table_name = Some T →
       key ∈ columns T → key ∉ columns df →
       load_data df table_name w =
         (Raise (KeyError key), with_trace w (trace w ++ [EvRead DWH table_name])))
  ∧ (∀ e w', load_data df table_name w = (Raise e, w') →
             oltp w' = oltp w ∧ dwh w' = dwh w ∧ dm_sales_seq w' = dm_sales_seq w).
Proof.
  split; [|split].
  - intros e He. unfold load_data. cbv beta iota delta [bind lift]. by rewrite He.
  - intros key T Hkey HT HinT Hnot.
    destruct (label_positions_elem _ _ HinT) as (p & ps & Hp).
    apply label_positions_nil in Hnot.
    unfold load_data. cbv beta iota delta [bind lift read_sql_column emit]. simpl.
    rewrite Hkey, HT, Hp.
    unfold deduplicate_data, and_then, getitem_col, locate. simpl.
    rewrite decide_True by done. simpl. by rewrite Hnot.
  - intros e w'. apply load_data_fails_closed_stores.
Qed.

Lemma load_data_fails_closed_witness :
  load_data shipper_candidates "dm_sales" shipper_world =
    (Raise (ValueError "Table name not recognized."), shipper_world)
  ∧ load_data seeded_payments "dim_shipper" shipper_world =
      (Raise (KeyError "shipper_id"),
       with_trace shipper_world [EvRead DWH "dim_shipper"]).
Proof.
  destruct (load_data_fails_closed shipper_candidates "dm_sales" shipper_world) as (H1 & _).
  destruct (load_data_fails_closed seeded_payments "dim_shipper" shipper_world) as (_ & H2 & _).
  split.
  - apply H1. reflexivity.
  - apply (H2 "shipper_id" (mkFrame ["shipper_id"; "shipper_name"] [[VInt 1; VStr "kurir"]])).
    + reflexivity.
    + vm_compute; reflexivity.
    + by_evaluation.
    + by_evaluation.
Defined.

(** ** What a run leaves in place *)

Lemma grows_refl w : grows w w.
Proof. split; [done|]. intros t T HT. exists T. done. Qed.

Lemma grows_trans w1 w2 w3 : grows w1 w2 → grows w2 w3 → grows w1 w3.
Proof.
  intros [Ho1 H1] [Ho2 H2]. split; [congruence|].
  intros t T HT. destruct (H1 t T HT) as (T2 & HT2 & Hc2 & Hp2).
  destruct (H2 t T2 HT2) as (T3 & HT3 & Hc3 & Hp3).
  exists T3. split; [done|]. split; [congruence|].
  intros Hne. etrans; [by apply Hp2 | by apply Hp3].
Qed.

Lemma grows_same_stores w w' : oltp w' = oltp w → dwh w' = dwh w → grows w w'.
Proof.
  intros Ho Hd. split; [done|]. intros t T HT. exists T. by rewrite Hd.
Qed.

Lemma conservative_ret {A} (a : A) : conservative (ret a).
Proof. intros w r w' [= _ <-]. apply grows_refl. Qed.

Lemma conservative_lift {A} (x : result A) : conservative (lift x).
Proof. intros w r w' [= _ <-]. apply grows_refl. Qed.

Lemma conservative_raise {A} e : conservative (@raise A e).
Proof. intros w r w' [= _ <-]. apply grows_refl. Qed.

Lemma conservative_emit e : conservative (emit e).
Proof. intros w r w' [= _ <-]. by apply grows_same_stores. Qed.

Lemma conservative_bind {A B} (m : M A) (k : A → M B) :
  conservative m → (∀ a, conservative (k a)) → conservative (bind m k).
Proof.
  intros Hm Hk w r w' H. unfold bind in H.
  destruct (m w) as [[a|e] w1] eqn:E.
  - eapply grows_trans; [by eapply Hm | by eapply Hk].
  - injection H as _ <-. by eapply Hm.
Qed.

Lemma conservative_for_each {A} (xs : list A) (body : A → M unit) :
  (∀ x, conservative (body x)) → conservative (for_each xs body).
Proof.
  intros Hbody. induction xs as [|x xs IH]; simpl.
  - apply conservative_ret.
  - apply conservative_bind; [apply Hbody | intros _; apply IH].
Qed.

Lemma grows_insert_new w table T :
  dwh w !! table = None → grows w (with_dwh w (<[table := T]> (dwh w))).
Proof.
  intros Hnone. split; [done|]. intros t T0 HT0. exists T0. simpl.
  rewrite lookup_insert_ne; [done | congruence].
Qed.

Lemma conservative_read_sql_table s table : conservative (read_sql_table s table).
Proof.
  unfold read_sql_table. apply conservative_bind; [apply conservative_emit|].
  intros _ w r w' H. destruct (tables s w !! table); injection H as _ <-; apply grows_refl.
Qed.

Lemma conservative_read_sql_column table column : conservative (read_sql_column table column).
Proof.
  unfold read_sql_column. apply conservative_bind; [apply conservative_emit|].
  intros _ w r w' H. repeat case_match; injection H as _ <-; apply grows_refl.
Qed.

Lemma conservative_to_sql df table : conservative (to_sql df table).
Proof.
  unfold to_sql. apply conservative_bind; [apply conservative_emit|].
  intros _ w r w' H. destruct (dwh w !! table) as [T|] eqn:HT.
  - destruct (rows df) as [|r0 rs]; [injection H as _ <-; apply grows_refl|].
    destruct (sql_values T (columns df) (r0 :: rs)) as [new|];
      injection H as _ <-; [|apply grows_refl].
    split; [done|]. intros t T0 HT0. simpl.
    destruct (decide (table = t)) as [->|Hne].
    + rewrite lookup_insert_eq. eexists. split; [done|]. simpl.
      rewrite HT in HT0. injection HT0 as <-.
      split; [done | intros _; by apply prefix_app_r].
    + rewrite lookup_insert_ne by done. eauto.
  - case_decide; injection H as _ <-; [by apply grows_insert_new | apply grows_refl].
Qed.

Lemma conservative_execute_create d : conservative (execute_create d).
Proof.
  unfold execute_create. apply conservative_bind; [apply conservative_emit|].
  intros _ w r w' H. destruct (dwh w !! ct_table d) as [T|] eqn:HT.
  - injection H as _ <-. apply grows_refl.
  - case_decide; injection H as _ <-; [|apply grows_refl].
    split; [done|]. intros t T0 HT0. exists T0. simpl.
    rewrite lookup_insert_ne; [done | congruence].
Qed.

Lemma conservative_execute_insert_dm_sales : conservative execute_insert_dm_sales.
Proof.
  unfold execute_insert_dm_sales. apply conservative_bind; [apply conservative_emit|].
  intros _ w r w' H. destruct (dwh w !! "dm_sales") as [T|] eqn:HT;
    [|injection H as _ <-; apply grows_refl].
  destruct (and_then _ _) as [new|]; injection H as _ <-; [|apply grows_refl].
  split; [done|]. intros t T0 HT0. simpl.
  destruct (decide ("dm_sales" = t)) as [<-|Hne].
  - rewrite lookup_insert_eq. eexists. split; [done|]. simpl.
    rewrite HT in HT0. injection HT0 as <-. done.
  - exists T0. by rewrite lookup_insert_ne.
Qed.

Lemma conservative_extract_data table_name : conservative (extract_data table_name).
Proof.
  unfold extract_data. destruct (dict_get oltp_tables table_name); [|apply conservative_raise].
  apply conservative_bind; [apply conservative_read_sql_table|]. intros df.
  apply conservative_bind; [apply conservative_emit | intros _; apply conservative_ret].
Qed.

Lemma conservative_transform_data df target_table :
  conservative (transform_data df target_table).
Proof.
  unfold transform_data. apply conservative_bind.
  - destruct (dict_get dimension_columns target_table) as [[|c cs]|];
      [apply conservative_ret | apply conservative_lift | apply conservative_ret].
  - intros df'. apply conservative_bind; [apply conservative_emit|].
    intros _. apply conservative_ret.
Qed.

Lemma conservative_extract_all names acc : conservative (extract_all names acc).
Proof.
  revert acc. induction names as [|n names IH]; intros acc; simpl.
  - apply conservative_ret.
  - apply conservative_bind; [apply conservative_extract_data | intros df; apply IH].
Qed.

Lemma conservative_load_data df table_name : conservative (load_data df table_name).
Proof.
  unfold load_data.
  apply conservative_bind; [apply conservative_lift|]. intros key.
  apply conservative_bind; [apply conservative_read_sql_column|]. intros existing.
  apply conservative_bind; [apply conservative_lift|]. intros df'.
  apply conservative_bind; [apply conservative_to_sql|]. intros _.
  apply conservative_emit.
Qed.

Lemma conservative_etl_process_body item : conservative (etl_process_body item).
Proof.
  destruct item as [dim_table target_table]. unfold etl_process_body.
  repeat case_decide.
  - apply conservative_bind; [|intros df; apply conservative_load_data].
    unfold transform_fact_orders.
    apply conservative_bind; [apply conservative_extract_all|]. intros dfs.
    apply conservative_bind; [apply conservative_lift | intros j; apply conservative_lift].
  - apply conservative_bind; [|intros df; apply conservative_load_data].
    unfold transform_fact_order_items.
    apply conservative_bind; [apply conservative_extract_all|]. intros dfs.
    apply conservative_bind; [apply conservative_lift | intros j; apply conservative_lift].
  - apply conservative_bind; [apply conservative_extract_data|]. intros df.
    apply conservative_bind; [apply conservative_transform_data|]. intros df'.
    apply conservative_load_data.
Qed.

(** X4. Whatever a run of [etl_process] does and whether it returns or
    raises, it never writes to the source store and never drops a table or
    changes its columns, dm_sales included; of a table other than dm_sales
    it never removes or rewrites a row: the rows a dimension or fact table
    held before the run are an initial part of the rows it holds after
    it. *)
Theorem etl_process_append_only (w : world) (r : result unit) (w' : world) :
  etl_process w = (r, w') → grows w w'.
Proof.
  revert w r w'. change (conservative etl_process). unfold etl_process.
  apply conservative_bind.
  - unfold create_tables. apply conservative_for_each, conservative_execute_create.
  - intros _. apply conservative_bind.
    + apply conservative_for_each, conservative_etl_process_body.
    + intros _. unfold create_and_insert_dm_sales.
      apply conservative_bind; [apply conservative_execute_create|]. intros _.
      apply conservative_bind; [apply conservative_execute_insert_dm_sales|]. intros _.
      apply conservative_emit.
Qed.

Lemma etl_process_append_only_witness :
  ∃ w', etl_process restocked_world = (Ok tt, w')
    ∧ table_rows restocked_world "fact_orders" = rows seeded_orders
    ∧ table_rows w' "fact_orders" = rows restocked_orders
    ∧ is_Some (dwh w' !! "dm_sales")
    ∧ grows restocked_world w'.
Proof.
  pose (w' := (etl_process restocked_world).2).
  assert (H1 : table_rows restocked_world "fact_orders" = rows seeded_orders)
    by (vm_compute; reflexivity).
  assert (H2 : table_rows w' "fact_orders" = rows restocked_orders)
    by (vm_compute; reflexivity).
  assert (H3 : is_Some (dwh w' !! "dm_sales")) by (eexists; vm_compute; reflexivity).
  assert (Hrun : etl_process restocked_world = (Ok tt, w')) by (vm_compute; reflexivity).
  exists w'. split; [exact Hrun|]. split; [exact H1|]. split; [exact H2|].
  split; [exact H3|].
  exact (etl_process_append_only restocked_world (Ok tt) w' Hrun).
Defined.

(** ** [create_tables] *)

Lemma execute_create_any d w r w' :
  execute_create d w = (r, w') →
  oltp w' = oltp w
  ∧ (∀ t T, dwh w !! t = Some T → dwh w' !! t = Some T)
  ∧ (∀ t T, dwh w' !! t = Some T →
            dwh w !! t = Some T ∨ (ct_table d = t ∧ T = mkFrame (ct_columns d) [])).
Proof.
  unfold execute_create. cbv beta iota delta [bind emit]. simpl.
  destruct (dwh w !! ct_table d) as [T0|] eqn:HT.
  - intros [= _ <-]. simpl. split; [done|]. split; [done | by left].
  - case_decide; intros [= _ <-]; simpl; (split; [done|]); split.
    + intros t T Ht. rewrite lookup_insert_ne; [done | congruence].
    + intros t T. destruct (decide (ct_table d = t)) as [<-|Hne].
      * rewrite lookup_insert_eq. intros [= <-]. by right.
      * rewrite lookup_insert_ne by done. by left.
    + done.
    + by left.
Qed.

(** Whatever a sequence of CREATE TABLE statements does, it leaves the
    source and the existing tables alone, and a table that is new is the
    empty table of one of the statements. *)
Lemma for_each_execute_create_any ds w r w' :
  for_each ds execute_create w = (r, w') →
  oltp w' = oltp w
  ∧ (∀ t T, dwh w !! t = Some T → dwh w' !! t = Some T)
  ∧ (∀ t T, dwh w' !! t = Some T →
            dwh w !! t = Some T
            ∨ ∃ d, d ∈ ds ∧ ct_table d = t ∧ T = mkFrame (ct_columns d) []).
Proof.
  revert w. induction ds as [|d ds IH]; intros w Hrun.
  - injection Hrun as _ <-. split; [done|]. split; [done | by left].
  - simpl in Hrun. unfold bind in Hrun.
    destruct (execute_create d w) as [[[]|e] w1] eqn:Hd;
      destruct (execute_create_any d w _ w1 Hd) as (Ho1 & Hkeep1 & Hfrom1).
    + destruct (IH w1 Hrun) as (Ho & Hkeep & Hfrom).
      split; [congruence|]. split; [intros t T Ht; by apply Hkeep, Hkeep1|].
      intros t T Ht. destruct (Hfrom t T Ht) as [Ht1 | (d' & Hd' & Hname & ->)].
      * destruct (Hfrom1 t T Ht1) as [Ht0 | [Hname ->]]; [by left|].
        right. exists d. split; [left | done].
      * right. exists d'. split; [by right | done].
    + injection Hrun as _ <-. split; [done|]. split; [done|].
      intros t T Ht. destruct (Hfrom1 t T Ht) as [Ht0 | [Hname ->]]; [by left|].
      right. exists d. split; [left | done].
Qed.

(** After a sequence of statements that all went through, their tables
    exist. *)
Lemma for_each_execute_create_exist ds w w' :
  for_each ds execute_create w = (Ok tt, w') →
  ∀ d, d ∈ ds → is_Some (dwh w' !! ct_table d).
Proof.
  revert w. induction ds as [|d ds IH]; intros w Hrun d' Hd';
    [by apply elem_of_nil in Hd'|].
  simpl in Hrun. apply bind_inv_ok in Hrun as ([] & w1 & Hd & Hrest).
  apply elem_of_cons in Hd' as [->|Hd']; [|by apply (IH w1)].
  destruct (create_tables_inv ds w1 w' Hrest) as (_ & Hsome). apply Hsome.
  destruct (execute_create_inv d w w1 Hd) as (_ & _ & [(Hsome1 & -> & _) | (_ & ->)]);
    [done|].
  rewrite lookup_insert_eq. eauto.
Qed.

Lemma create_tables_keeps_dm_sales w r w' :
  create_tables w = (r, w') →
  oltp w' = oltp w ∧ dwh w' !! "dm_sales" = dwh w !! "dm_sales".
Proof.
  intros Hrun.
  destruct (for_each_execute_create_any _ _ _ _ Hrun) as (Ho & Hkeep & Hfrom).
  split; [done|].
  destruct (dwh w !! "dm_sales") as [T|] eqn:HT; [by apply Hkeep|].
  destruct (dwh w' !! "dm_sales") as [T|] eqn:HT'; [|done].
  destruct (Hfrom _ _ HT') as [Hold | (d & Hd & Hname & _)]; [congruence|].
  exfalso. unfold dict_values, ddl_statements in Hd. simpl in Hd.
  repeat (apply elem_of_cons in Hd as [-> | Hd]; [discriminate Hname|]).
  by apply elem_of_nil in Hd.
Qed.

(** X5. Whatever [create_tables] does and whether it returns or raises,
    it leaves the source store and every existing table as they are, and
    any table that was not there before is the empty table of one of the
    statements of [ddl_statements], with the columns of that statement.
    When it returns, the nine destination tables exist, and calling it
    again returns and changes nothing but the trace. *)
Theorem create_tables_only_adds (w : world) (r : result unit) (w' : world) :
  create_tables w = (r, w') →
  oltp w' = oltp w
  ∧ (∀ t T, dwh w !! t = Some T → dwh w' !! t = Some T)
  ∧ (∀ t T, dwh w' !! t = Some T →
            dwh w !! t = Some T
            ∨ ∃ d, d ∈ dict_values ddl_statements ∧ ct_table d = t
                   ∧ T = mkFrame (ct_columns d) [])
  ∧ (r = Ok tt →
     (∀ t, t ∈ dict_values warehouse_tables → is_Some (dwh w' !! t))
     ∧ ∃ evs, create_tables w' = (Ok tt, with_trace w' (trace w' ++ evs))).
Proof.
  intros Hrun.
  destruct (for_each_execute_create_any _ _ _ _ Hrun) as (Ho & Hkeep & Hfrom).
  split; [done|]. split; [done|]. split; [done|]. intros ->.
  pose proof (for_each_execute_create_exist _ _ _ Hrun) as Hall.
  assert (Hnine : ∀ t, t ∈ dict_values warehouse_tables → is_Some (dwh w' !! t)).
  { intros t Ht. unfold dict_values, warehouse_tables in Ht. simpl in Ht.
    repeat (apply elem_of_cons in Ht as [-> | Ht];
            [match goal with
             | |- is_Some (_ !! ?t) =>
                 let d := eval vm_compute in
                            (default ddl_dim_sales (dict_get ddl_statements t)) in
                 exact (Hall d ltac:(by_evaluation))
             end|]).
    by apply elem_of_nil in Ht. }
  split; [exact Hnine|].
  eexists. apply create_tables_quiet.
  intros d Hd. destruct (ddl_tables_are_targets d Hd) as (item & Hitem & <-).
  apply Hnine. by apply (list_elem_of_fmap_2 snd) in Hitem.
Qed.

Lemma create_tables_only_adds_witness :
  ∃ w', create_tables seeded_world = (Ok tt, w')
    ∧ dwh w' !! "dim_shipper" = Some (mkFrame ["shipper_id"; "shipper_name"] [])
    ∧ ∀ t, t ∈ dict_values warehouse_tables → is_Some (dwh w' !! t).
Proof.
  pose (w' := (create_tables seeded_world).2).
  assert (Hrun : create_tables seeded_world = (Ok tt, w')) by (vm_compute; reflexivity).
  assert (Hshipper : dwh w' !! "dim_shipper"
                     = Some (mkFrame ["shipper_id"; "shipper_name"] []))
    by (vm_compute; reflexivity).
  destruct (create_tables_only_adds seeded_world (Ok tt) w' Hrun)
    as (_ & _ & _ & Hreturned).
  destruct (Hreturned eq_refl) as [Hnine _].
  exists w'. split; [exact Hrun|]. split; [exact Hshipper | exact Hnine].
Defined.

(** ** Projection followed by load *)

Lemma declared_columns_match_ddl table_name :
  table_name ∈ dict_values warehouse_tables →
  ∃ key declared ddl,
    get_unique_key table_name = Ok key
    ∧ dict_get dimension_columns table_name = Some (key :: declared)
    ∧ dict_get ddl_statements table_name = Some ddl
    ∧ ct_columns ddl = key :: declared
    ∧ NoDup (key :: declared).
Proof.
  intros H. unfold dict_values, warehouse_tables in H. simpl in H.
  repeat (apply elem_of_cons in H as [-> | H];
          [eexists _, _, _; split; [reflexivity|]; split; [reflexivity|];
           split; [reflexivity|]; split; [reflexivity | by_evaluation]|]).
  by apply elem_of_nil in H.
Qed.

(** A row with one cell per column is stored as it is by an INSERT that
    names the columns of the table in the table's order. *)
Lemma align_same cols r : NoDup cols → length r = length cols → align cols cols r = r.
Proof.
  intros Hnd Hlen. apply list_eq. intros k. unfold align.
  rewrite list_lookup_fmap.
  destruct (cols !! k) as [c|] eqn:Hc; simpl.
  - destruct (label_positions_NoDup cols c Hnd) as (i & Hi & Hci);
      [by eapply list_elem_of_lookup_2|].
    assert (k ∈ label_positions cols c) as Hk by (by apply label_positions_lookup).
    rewrite Hi in Hk. apply list_elem_of_singleton in Hk as ->. rewrite Hi.
    unfold cell. destruct (r !! i) as [v|] eqn:Hr; [done|].
    apply lookup_ge_None in Hr. apply lookup_lt_Some in Hc. lia.
  - symmetry. apply lookup_ge_None. apply lookup_ge_None in Hc. lia.
Qed.

(** X6. The three dictionaries of config.py and [get_unique_key] agree.
    For every destination table, a frame with distinct labels that carries
    the declared columns goes through [transform_data] under the
    destination name: the projection has the columns of the table as its
    CREATE TABLE statement makes it, in the table's order, the unique key
    first, and as many rows as the frame.  When [load_data] of the
    projection into that table returns, the table holds its former rows
    followed by the projected rows whose key is new, cell for cell as
    projected. *)
Theorem transform_then_load_stores_projection (table_name : string) (df T : DataFrame)
    (ddl : create_table) (w : world) :
  table_name ∈ dict_values warehouse_tables →
  dict_get ddl_statements table_name = Some ddl →
  dwh w !! table_name = Some T → columns T = ct_columns ddl →
  NoDup (columns df) → ct_columns ddl ⊆ columns df →
  ∃ key out w1,
    get_unique_key table_name = Ok key
    ∧ transform_data df table_name w = (Ok out, w1)
    ∧ columns out = columns T
    ∧ head (columns out) = Some key
    ∧ length (rows out) = length (rows df)
    ∧ ∀ w', load_data out table_name w1 = (Ok tt, w') →
        dwh w' !! table_name =
          Some (mkFrame (columns T)
                  (rows T ++
                   filter (λ r, field out key r ∉ field T key <$> rows T) (rows out))).
Proof.
  intros Hin Hddl HT Hcols Hnd Hsub.
  destruct (declared_columns_match_ddl table_name Hin)
    as (key & declared & ddl' & Hkey & Hdecl & Hddl' & Hsame & Hnd').
  rewrite Hddl in Hddl'. injection Hddl' as <-. rewrite Hsame in *.
  destruct (getitem_cols_spec df (key :: declared) Hnd) as [Hok _].
  specialize (Hok Hsub).
  set (out := mkFrame (key :: declared)
                ((λ r, (λ c, field df c r) <$> key :: declared) <$> rows df)) in *.
  set (w1 := with_trace w (trace w ++
                [EvPrint ("Transform Data " +:+ table_name +:+ " Success")])).
  assert (Htrans : transform_data df table_name w = (Ok out, w1)).
  { unfold transform_data. rewrite Hdecl.
    cbv beta iota delta [bind lift print emit ret]. by rewrite Hok. }
  exists key, out, w1. split; [done|]. split; [done|].
  split; [by rewrite Hcols|]. split; [done|].
  split; [unfold out; simpl; by rewrite length_fmap|].
  intros w' Hload.
  destruct (load_data_inv _ _ _ _ Hload)
    as (key' & T' & i & p & ps & Hkey' & HT' & Hp & Hi & Hfresh).
  rewrite Hkey in Hkey'. injection Hkey' as <-.
  change (dwh w1) with (dwh w) in HT'. rewrite HT in HT'. injection HT' as <-.
  rewrite (load_data_spec out table_name key T i p ps w1 Hkey HT Hp Hi Hfresh) in Hload.
  injection Hload as <-. cbn [dwh]. rewrite lookup_insert_eq. do 3 f_equal.
  assert (Hfilter : filter (λ r, cell r i ∉ (λ r, cell r p) <$> rows T) (rows out)
                    = filter (λ r, field out key r ∉ field T key <$> rows T) (rows out)).
  { unfold field. by rewrite Hp, (locate_OneLabel _ _ _ Hi). }
  change (align (key :: declared) (columns T) <$>
            filter (λ r, cell r i ∉ (λ r, cell r p) <$> rows T) (rows out)
          = filter (λ r, field out key r ∉ field T key <$> rows T) (rows out)).
  rewrite Hfilter, Hcols.
  etrans; [|apply list_fmap_id]. apply list_fmap_ext. intros k x Hx.
  apply list_elem_of_lookup_2, list_elem_of_filter in Hx as [_ Hx].
  unfold out in Hx. cbn [rows] in Hx. apply list_elem_of_fmap in Hx as (r & -> & _).
  unfold id. apply align_same; [done|]. by rewrite length_fmap.
Qed.

Lemma transform_then_load_stores_projection_witness :
  ∃ out w1 w',
    transform_data shipper_candidates "dim_shipper" shipper_world = (Ok out, w1)
    ∧ load_data out "dim_shipper" w1 = (Ok tt, w')
    ∧ table_rows w' "dim_shipper" = [[VInt 1; VStr "kurir"]; [VInt 2; VStr "ekspres"]].
Proof.
  destruct (transform_then_load_stores_projection "dim_shipper" shipper_candidates
              (mkFrame ["shipper_id"; "shipper_name"] [[VInt 1; VStr "kurir"]])
              (mkCreate "dim_shipper" ["shipper_id"; "shipper_name"] [])
              shipper_world)
    as (key & out & w1 & Hkey & Htrans & _ & _ & _ & Hstored).
  - by_evaluation.
  - reflexivity.
  - vm_compute; reflexivity.
  - reflexivity.
  - by_evaluation.
  - subseteq_by_cases.
  - injection Hkey as <-.
    assert (Hout : out = shipper_candidates ∧ w1 = (transform_data shipper_candidates
                     "dim_shipper" shipper_world).2).
    { vm_compute in Htrans. injection Htrans as <- <-. split; reflexivity. }
    destruct Hout as [-> ->].
    set (w1 := (transform_data shipper_candidates "dim_shipper" shipper_world).2) in *.
    set (w' := (load_data shipper_candidates "dim_shipper" w1).2).
    assert (Hload : load_data shipper_candidates "dim_shipper" w1 = (Ok tt, w'))
      by (vm_compute; reflexivity).
    exists shipper_candidates, w1, w'. split; [exact Htrans|]. split; [exact Hload|].
    unfold table_rows. rewrite (Hstored w' Hload). vm_compute. reflexivity.
Defined.

(** ** Who reaches the mart *)

Lemma sql_eq_true a b : sql_eq a b = true → a ≠ VNull ∧ a = b.
Proof.
  destruct a, b; simpl; try discriminate; intros H%bool_decide_eq_true; done.
Qed.

Lemma sql_relation_inv db table cols T :
  sql_relation db table cols = Ok T → db !! table = Some T.
Proof.
  unfold sql_relation. destruct (db !! table) as [T'|]; [|done].
  case_decide; [|done]. by intros [= <-].
Qed.

(** X7. Every row the mart statement selects comes from an order whose
    voucher_id is not null and equals the voucher_id of a row of
    dim_voucher; the row starts with that order's order_id and carries
    that voucher's name.  So an order without voucher, or with a voucher
    that is not in dim_voucher, never reaches dm_sales, and with an empty
    dim_voucher the mart is empty whatever the other tables hold. *)
Theorem select_dm_sales_requires_voucher (db : gmap string DataFrame)
    (selected : list (list value)) :
  select_dm_sales db = Ok selected →
  ∃ fo dv,
    db !! "fact_orders" = Some fo ∧ db !! "dim_voucher" = Some dv
    ∧ (∀ row, row ∈ selected →
         ∃ r_fo r_dv,
           r_fo ∈ rows fo ∧ r_dv ∈ rows dv
           ∧ field fo "voucher_id" r_fo ≠ VNull
           ∧ field fo "voucher_id" r_fo = field dv "voucher_id" r_dv
           ∧ row !! 0%nat = Some (field fo "order_id" r_fo)
           ∧ row !! 8%nat = Some (field dv "voucher_name" r_dv))
    ∧ (rows dv = [] → selected = []).
Proof.
  intros Hsel. pose proof Hsel as Hsel'. unfold select_dm_sales, and_then in Hsel.
  destruct (sql_relation db "fact_orders" _) as [fo|] eqn:Efo; [|done].
  destruct (sql_relation db "dim_user" _) as [du|] eqn:Edu; [|done].
  destruct (sql_relation db "dim_payment" _) as [dp|] eqn:Edp; [|done].
  destruct (sql_relation db "dim_shipper" _) as [ds|] eqn:Eds; [|done].
  destruct (sql_relation db "dim_voucher" _) as [dv|] eqn:Edv; [|done].
  destruct (sql_relation db "fact_order_items" _) as [foi|] eqn:Efoi; [|done].
  destruct (sql_relation db "dim_product" _) as [dp2|] eqn:Edp2; [|done].
  destruct (sql_relation db "dim_product_category" _) as [dpc|] eqn:Edpc; [|done].
  injection Hsel as <-.
  apply sql_relation_inv in Efo, Edv.
  exists fo, dv. split; [done|]. split; [done|]. split.
  - intros row Hrow.
    apply list_elem_of_bind in Hrow as (r_fo & Hrow & Hfo).
    apply list_elem_of_bind in Hrow as (r_du & Hrow & _).
    apply list_elem_of_bind in Hrow as (r_dp & Hrow & _).
    apply list_elem_of_bind in Hrow as (r_ds & Hrow & _).
    apply list_elem_of_bind in Hrow as (r_dv & Hrow & Hdv).
    apply list_elem_of_bind in Hrow as (r_foi & Hrow & _).
    apply list_elem_of_bind in Hrow as (r_dp2 & Hrow & _).
    apply list_elem_of_bind in Hrow as (r_dpc & Hrow & _).
    apply list_elem_of_singleton in Hrow as ->.
    apply list_elem_of_filter in Hdv as [Heq Hdv].
    apply Is_true_true, sql_eq_true in Heq as [Hnot Heq].
    exists r_fo, r_dv. done.
  - intros Hnone. by eapply select_dm_sales_without_vouchers.
Qed.

Lemma select_dm_sales_requires_voucher_witness :
  ∃ selected,
    select_dm_sales (dwh (etl_process seeded_world).2) = Ok selected ∧ selected = [].
Proof.
  pose (db := dwh (etl_process seeded_world).2).
  pose (selected := match select_dm_sales db with Ok s => s | Raise _ => [[VNull]] end).
  assert (Hsel : select_dm_sales db = Ok selected) by (vm_compute; reflexivity).
  exists selected. split; [exact Hsel|].
  destruct (select_dm_sales_requires_voucher db selected Hsel)
    as (fo & dv & _ & Hdv & _ & Hempty).
  apply Hempty.
  assert (Hdv' : db !! "dim_voucher" =
                 Some (mkFrame (columns seeded_vouchers) [])) by (vm_compute; reflexivity).
  rewrite Hdv' in Hdv. injection Hdv as <-. reflexivity.
Defined.

(** ** How many rows the joins give *)

Lemma length_bind_le {A B} (f : A → list B) (l : list A) :
  (∀ x, x ∈ l → (length (f x) ≤ 1)%nat) → (length (l ≫= f) ≤ length l)%nat.
Proof.
  induction l as [|x l IH]; intros H; [done|].
  change ((x :: l) ≫= f) with (f x ++ (l ≫= f)). rewrite length_app. simpl.
  pose proof (H x ltac:(left)). assert (length (l ≫= f) ≤ length l)%nat; [|lia].
  apply IH. intros y Hy. apply H. by right.
Qed.

Lemma length_filter_unique {A} (g : A → value) (v : value) (rs : list A) :
  NoDup (g <$> rs) → (length (filter (λ r, g r = v) rs) ≤ 1)%nat.
Proof.
  induction rs as [|r rs IH]; intros Hnd; [simpl; lia|].
  rewrite fmap_cons in Hnd. apply NoDup_cons in Hnd as [Hnot Hnd].
  destruct (decide (g r = v)) as [Heq|Hne].
  - rewrite filter_cons_True by done. simpl.
    assert (Hnil : filter (λ r, g r = v) rs = []).
    { apply elem_of_nil_inv. intros x (Hx & Hin)%list_elem_of_filter.
      apply Hnot. rewrite Heq, <- Hx. by apply list_elem_of_fmap_2. }
    rewrite Hnil. simpl. lia.
  - rewrite filter_cons_False by done. by apply IH.
Qed.

Lemma list_bind_assoc {A B C} (f : A → list B) (g : B → list C) (l : list A) :
  (l ≫= f) ≫= g = l ≫= (λ x, f x ≫= g).
Proof.
  induction l as [|x l IH]; [done|]. by rewrite !bind_cons, bind_app, IH.
Qed.

Lemma list_fmap_bind {A B C} (f : A → list B) (g : B → C) (l : list A) :
  g <$> (l ≫= f) = l ≫= (λ x, g <$> f x).
Proof.
  induction l as [|x l IH]; [done|]. by rewrite !bind_cons, fmap_app, IH.
Qed.

Lemma extends_at_most_once_start : extends_at_most_once (λ o, [o]).
Proof.
  intros o. split; [simpl; lia|].
  intros j ->%list_elem_of_singleton. exists []. by rewrite app_nil_r.
Qed.

Lemma extends_at_most_once_step kept g :
  extends_at_most_once kept → extends_at_most_once g →
  extends_at_most_once (λ o, kept o ≫= g).
Proof.
  intros Hkept Hg o. destruct (Hkept o) as [Hlen Hext]. split.
  - etrans; [|exact Hlen]. apply length_bind_le. intros x _. apply Hg.
  - intros j (x & Hj & Hx)%list_elem_of_bind.
    destruct (Hext x Hx) as [rest1 ->].
    destruct (Hg (o ++ rest1)) as [_ Hext']. destruct (Hext' j Hj) as [rest2 ->].
    exists (rest1 ++ rest2). by rewrite app_assoc.
Qed.

(** Rows of a merge against a frame whose key cells are distinct: every
    left row gives at most one row, which extends it. *)
Lemma merge_extends_at_most_once L R J how on :
  merge L R how on = Ok J →
  NoDup (field R on <$> rows R) →
  ∃ g, rows J = rows L ≫= g ∧ extends_at_most_once g.
Proof.
  intros HJ Hnd. destruct (merge_inv L R J how on HJ) as (i & j & Hi & Hj & _ & Hrows).
  eexists. split; [exact Hrows|]. intros l.
  assert (Hle : (length (filter (λ r, cell r j = cell l i) (rows R)) ≤ 1)%nat).
  { apply (length_filter_unique (λ r, cell r j)).
    erewrite list_fmap_ext; [exact Hnd|]. intros _ r _. simpl.
    symmetry. by apply field_unique. }
  destruct (filter (λ r, cell r j = cell l i) (rows R)) as [|h hits] eqn:E.
  - destruct how; simpl.
    + split; [lia|]. intros x Hx. by apply elem_of_nil in Hx.
    + split; [lia|]. intros x ->%list_elem_of_singleton. eauto.
  - assert (Hsame : match how with
                    | HowInner => (λ r, l ++ delete j r) <$> h :: hits
                    | HowLeft => (λ r, l ++ delete j r) <$> h :: hits
                    end = (λ r, l ++ delete j r) <$> h :: hits) by (by destruct how).
    rewrite Hsame. split; [by rewrite length_fmap|].
    intros x (r & -> & _)%list_elem_of_fmap. eauto.
Qed.

Lemma getitem_cols_pointwise joined wanted out :
  getitem_cols joined wanted = Ok out →
  ∃ ps, rows out = (λ r, cell r <$> ps) <$> rows joined
        ∧ ∀ j c, c ∈ wanted → field out c (cell j <$> ps) = field joined c j.
Proof.
  unfold getitem_cols.
  destruct (take_labels (columns joined) wanted) as [ps|] eqn:Eps; [|done].
  intros [= <-]. exists ps. split; [done|].
  intros j c Hc. unfold field; simpl. by apply (take_labels_cell _ wanted).
Qed.

(** Rows counted by key, through a step that gives each row at most one
    row, with the same key. *)
Lemma filter_bind_le {A B} (ka : A → value) (kb : B → value) (h : A → list B)
    (l : list A) (k : value) :
  (∀ o, o ∈ l → (length (h o) ≤ 1)%nat ∧ ∀ x, x ∈ h o → kb x = ka o) →
  (length (filter (λ x, kb x = k) (l ≫= h)) ≤ length (filter (λ o, ka o = k) l))%nat.
Proof.
  induction l as [|o l IH]; intros H; [done|].
  rewrite bind_cons, filter_app, length_app.
  destruct (H o ltac:(left)) as [Hlen Hkey].
  assert (Hrest : (length (filter (λ x, kb x = k) (l ≫= h))
                   ≤ length (filter (λ o, ka o = k) l))%nat).
  { apply IH. intros o' Ho'. apply H. by right. }
  rewrite (filter_cons (λ o, ka o = k)).
  destruct (decide (ka o = k)) as [Heq|Hne].
  - simpl. pose proof (length_filter (λ x, kb x = k) (h o)). lia.
  - assert (Hnil : filter (λ x, kb x = k) (h o) = []).
    { apply elem_of_nil_inv. intros x (Hx & Hin)%list_elem_of_filter.
      apply Hne. by rewrite <- (Hkey x Hin). }
    rewrite Hnil. simpl. lia.
Qed.

Lemma NoDup_fmap_count {A} (f : A → value) (l : list A) :
  (∀ k, (length (filter (λ x, f x = k) l) ≤ 1)%nat) → NoDup (f <$> l).
Proof.
  induction l as [|x l IH]; intros H; [constructor|].
  rewrite fmap_cons. apply NoDup_cons. split.
  - intros (y & Hy & Hin)%list_elem_of_fmap.
    specialize (H (f x)). rewrite (filter_cons (λ x0, f x0 = f x)) in H.
    rewrite decide_True in H by done. simpl in H.
    assert (Hy' : y ∈ filter (λ x0, f x0 = f x) l) by (by apply list_elem_of_filter).
    destruct (filter (λ x0, f x0 = f x) l); [by apply elem_of_nil in Hy'|].
    simpl in H. lia.
  - apply IH. intros k. specialize (H k). rewrite (filter_cons (λ x0, f x0 = k)) in H.
    destruct (decide (f x = k)) as [Heq|Hne]; [simpl in H; lia | done].
Qed.

(** X8. On extracted frames in which orders is rectangular and carries the
    order keys, no other frame repeats another of those keys, and the keys
    of users, payments, shippers, ratings and vouchers are distinct,
    [transform_fact_orders] returns at most one row per order: under every
    order_id the output has no more rows than orders has, so an order
    dropped by a join is not made up for by another order counted twice.
    When the order ids are distinct in orders they are distinct in the
    output; and the output has no more rows than orders. *)
Theorem transform_fact_orders_at_most_one_row_per_order
    (w w1 : world) (dataframes : gmap string DataFrame) (O U P S R V out : DataFrame) :
  extract_all (dict_keys oltp_tables) ∅ w = (Ok dataframes, w1) →
  (transform_fact_orders w).1 = Ok out →
  dataframes !! "orders" = Some O → dataframes !! "users" = Some U →
  dataframes !! "payments" = Some P → dataframes !! "shippers" = Some S →
  dataframes !! "ratings" = Some R → dataframes !! "vouchers" = Some V →
  rectangular O → order_keys ⊆ columns O →
  keeps_order_keys U "user_id" → keeps_order_keys P "payment_id" →
  keeps_order_keys S "shipper_id" → keeps_order_keys R "rating_id" →
  keeps_order_keys V "voucher_id" →
  NoDup (field U "user_id" <$> rows U) →
  NoDup (field P "payment_id" <$> rows P) →
  NoDup (field S "shipper_id" <$> rows S) →
  NoDup (field R "rating_id" <$> rows R) →
  NoDup (field V "voucher_id" <$> rows V) →
  (∀ k, (length (filter (λ x, field out "order_id" x = k) (rows out))
         ≤ length (filter (λ o, field O "order_id" o = k) (rows O)))%nat)
  ∧ (NoDup (field O "order_id" <$> rows O) → NoDup (field out "order_id" <$> rows out))
  ∧ (length (rows out) ≤ length (rows O))%nat.
Proof.
  intros Hex Hout HO HU HP HS HR HV HrO Hkeys HkU HkP HkS HkR HkV HnU HnP HnS HnR HnV.
  unfold transform_fact_orders in Hout.
  cbv beta iota delta [bind lift] in Hout. rewrite Hex in Hout.
  destruct (join_fact_orders dataframes) as [joined|] eqn:Hjoin; [|done].
  simpl in Hout. unfold getitem_declared in Hout.
  destruct (dict_get dimension_columns "fact_orders") as [declared|] eqn:Hdecl; [|done].
  assert (Hoid : "order_id" ∈ declared) by (injection Hdecl as <-; by_evaluation).
  destruct (getitem_cols_pointwise joined declared out Hout) as (ps & Hrows & Hcell).
  unfold join_fact_orders, getitem_dict in Hjoin.
  rewrite HO, HU, HP, HS, HR, HV in Hjoin. simpl in Hjoin.
  destruct (merge O U HowInner "user_id") as [J1|] eqn:E1; [|done]. simpl in Hjoin.
  destruct (merge J1 P HowInner "payment_id") as [J2|] eqn:E2; [|done]. simpl in Hjoin.
  destruct (merge J2 S HowInner "shipper_id") as [J3|] eqn:E3; [|done]. simpl in Hjoin.
  destruct (merge J3 R HowInner "rating_id") as [J4|] eqn:E4; [|done]. simpl in Hjoin.
  destruct (merge J4 V HowLeft "voucher_id") as [J5|] eqn:E5; [|done]. simpl in Hjoin.
  injection Hjoin as <-.
  (* where order_id stands in the joined frame *)
  assert (HuO : "user_id" ∈ columns O).
  { destruct (merge_inv _ _ _ _ _ E1) as (i & j & Hi & _). by eapply label_positions_cons_elem. }
  pose proof (joined_from_start O) as H0.
  pose proof (joined_from_inner O HrO Hkeys O U J1 "user_id" _ H0 E1 HkU HuO eq_refl) as H1.
  pose proof (joined_from_inner O HrO Hkeys J1 P J2 "payment_id" _ H1 E2 HkP
                (Hkeys "payment_id" ltac:(by_evaluation))
                (proj1 H1 "payment_id" ltac:(by_evaluation))) as H2.
  pose proof (joined_from_inner O HrO Hkeys J2 S J3 "shipper_id" _ H2 E3 HkS
                (Hkeys "shipper_id" ltac:(by_evaluation))
                (proj1 H2 "shipper_id" ltac:(by_evaluation))) as H3.
  pose proof (joined_from_inner O HrO Hkeys J3 R J4 "rating_id" _ H3 E4 HkR
                (Hkeys "rating_id" ltac:(by_evaluation))
                (proj1 H3 "rating_id" ltac:(by_evaluation))) as H4.
  destruct (joined_from_left O HrO Hkeys J4 V J5 "voucher_id" _ H4 E5 HkV
              (Hkeys "voucher_id" ltac:(by_evaluation))
              (proj1 H4 "voucher_id" ltac:(by_evaluation)))
    as [H5 _].
  pose proof (joined_from_rename O Hkeys J5 _ H5) as (Hcols & _).
  (* the rows, order row by order row *)
  destruct (merge_extends_at_most_once _ _ _ _ _ E1 HnU) as (g1 & R1 & Hg1).
  destruct (merge_extends_at_most_once _ _ _ _ _ E2 HnP) as (g2 & R2 & Hg2).
  destruct (merge_extends_at_most_once _ _ _ _ _ E3 HnS) as (g3 & R3 & Hg3).
  destruct (merge_extends_at_most_once _ _ _ _ _ E4 HnR) as (g4 & R4 & Hg4).
  destruct (merge_extends_at_most_once _ _ _ _ _ E5 HnV) as (g5 & R5 & Hg5).
  set (kept := λ o, g1 o ≫= λ j1, g2 j1 ≫= λ j2, g3 j2 ≫= λ j3, g4 j3 ≫= g5).
  assert (Hkept : extends_at_most_once kept).
  { unfold kept.
    apply (extends_at_most_once_step g1 _ Hg1), (extends_at_most_once_step g2 _ Hg2),
      (extends_at_most_once_step g3 _ Hg3), (extends_at_most_once_step g4 _ Hg4), Hg5. }
  assert (Hbind : rows out = rows O ≫= (λ o, (λ j, cell j <$> ps) <$> kept o)).
  { rewrite Hrows. change (rows (rename J5 "user_id_x" "user_id")) with (rows J5).
    rewrite R5, R4, R3, R2, R1, !list_bind_assoc, list_fmap_bind. done. }
  assert (Hstep : ∀ o, o ∈ rows O →
            (length ((λ j, cell j <$> ps) <$> kept o) ≤ 1)%nat
            ∧ ∀ x, x ∈ (λ j, cell j <$> ps) <$> kept o →
                   field out "order_id" x = field O "order_id" o).
  { intros o Ho. destruct (Hkept o) as [Hlen Hext]. split; [by rewrite length_fmap|].
    intros x (j & -> & Hj)%list_elem_of_fmap. destruct (Hext j Hj) as [rest ->].
    rewrite (Hcell _ "order_id" Hoid).
    apply field_prefix;
      [apply Hkeys; by_evaluation | apply Hcols; by_evaluation
       | by apply rectangular_length]. }
  assert (Hcount : ∀ k, (length (filter (λ x, field out "order_id" x = k) (rows out))
                         ≤ length (filter (λ o, field O "order_id" o = k) (rows O)))%nat).
  { intros k. rewrite Hbind. by apply filter_bind_le. }
  split; [exact Hcount|]. split.
  - intros HnO. apply NoDup_fmap_count. intros k. etrans; [apply Hcount|].
    by apply length_filter_unique.
  - rewrite Hbind. apply length_bind_le. intros o Ho. by apply Hstep.
Qed.

Lemma transform_fact_orders_at_most_one_row_per_order_witness :
  ∃ out, (transform_fact_orders orphan_world).1 = Ok out
    ∧ NoDup (field out "order_id" <$> rows out)
    ∧ (length (rows out) ≤ length (rows orphan_orders))%nat
    ∧ length (rows out) = 2%nat.
Proof.
  pose (run := extract_all (dict_keys oltp_tables) ∅ orphan_world).
  pose (dataframes := match run.1 with Ok d => d | Raise _ => ∅ end).
  pose (out := match (transform_fact_orders orphan_world).1 with
               | Ok df => df | Raise _ => mkFrame [] [] end).
  assert (HrO : rectangular orphan_orders) by by_evaluation.
  assert (Hkeys : order_keys ⊆ columns orphan_orders) by subseteq_by_cases.
  assert (HkU : keeps_order_keys seeded_users "user_id") by keeps_by_cases.
  assert (HkP : keeps_order_keys seeded_payments "payment_id") by keeps_by_cases.
  assert (HkS : keeps_order_keys seeded_shippers "shipper_id") by keeps_by_cases.
  assert (HkR : keeps_order_keys seeded_ratings "rating_id") by keeps_by_cases.
  assert (HkV : keeps_order_keys seeded_vouchers "voucher_id") by keeps_by_cases.
  assert (HnU : NoDup (field seeded_users "user_id" <$> rows seeded_users)) by by_evaluation.
  assert (HnP : NoDup (field seeded_payments "payment_id" <$> rows seeded_payments))
    by by_evaluation.
  assert (HnS : NoDup (field seeded_shippers "shipper_id" <$> rows seeded_shippers))
    by by_evaluation.
  assert (HnR : NoDup (field seeded_ratings "rating_id" <$> rows seeded_ratings))
    by by_evaluation.
  assert (HnV : NoDup (field seeded_vouchers "voucher_id" <$> rows seeded_vouchers))
    by by_evaluation.
  assert (HnO : NoDup (field orphan_orders "order_id" <$> rows orphan_orders))
    by by_evaluation.
  assert (Hlen : length (rows out) = 2%nat) by (vm_compute; reflexivity).
  destruct (transform_fact_orders_at_most_one_row_per_order orphan_world run.2 dataframes
              orphan_orders seeded_users seeded_payments seeded_shippers seeded_ratings
              seeded_vouchers out
              ltac:(vm_compute; reflexivity) ltac:(vm_compute; reflexivity)
              ltac:(vm_compute; reflexivity) ltac:(vm_compute; reflexivity)
              ltac:(vm_compute; reflexivity) ltac:(vm_compute; reflexivity)
              ltac:(vm_compute; reflexivity) ltac:(vm_compute; reflexivity)
              HrO Hkeys HkU HkP HkS HkR HkV HnU HnP HnS HnR HnV) as (_ & Hdistinct & Hle).
  exists out. split; [vm_compute; reflexivity|].
  split; [exact (Hdistinct HnO)|]. split; [exact Hle | exact Hlen].
Defined.

(** ** What the fact transforms extract *)

Lemma extract_data_inv table_name w r w' :
  extract_data table_name w = (r, w') →
  oltp w' = oltp w ∧ dwh w' = dwh w ∧ dm_sales_seq w' = dm_sales_seq w
  ∧ ∀ df, r = Ok df →
      ∃ physical, dict_get oltp_tables table_name = Some physical
        ∧ oltp w !! physical = Some df
        ∧ trace w' = trace w ++ extraction_events physical.
Proof.
  unfold extract_data. destruct (dict_get oltp_tables table_name) as [physical|].
  - cbv beta iota delta [bind read_sql_table emit print ret tables]. simpl.
    destruct (oltp w !! physical) as [df|] eqn:Hdf; intros [= <- <-]; simpl.
    + repeat (split; [done|]). intros df' [= <-]. exists physical.
      repeat (split; [done|]). by rewrite <- app_assoc.
    + done.
  - intros [= <- <-]. done.
Qed.

Lemma extract_data_missing table_name physical w :
  dict_get oltp_tables table_name = Some physical → oltp w !! physical = None →
  ∃ e w', extract_data table_name w = (Raise e, w').
Proof.
  intros Hp Hnone. unfold extract_data. rewrite Hp.
  cbv beta iota delta [bind read_sql_table emit print ret tables]. simpl.
  rewrite Hnone. eauto.
Qed.

Lemma extract_all_missing names acc w table_name physical :
  table_name ∈ names →
  dict_get oltp_tables table_name = Some physical → oltp w !! physical = None →
  ∃ e w', extract_all names acc w = (Raise e, w').
Proof.
  revert acc w. induction names as [|n names IH]; intros acc w Hin Hp Hnone;
    [by apply elem_of_nil in Hin|].
  simpl. unfold bind. destruct (extract_data n w) as [[df|e] w1] eqn:E; [|eauto].
  destruct (extract_data_inv _ _ _ _ E) as (Ho & _ & _ & Hok).
  apply elem_of_cons in Hin as [->|Hin].
  - destruct (extract_data_missing _ _ w Hp Hnone) as (e & w2 & E'). congruence.
  - apply IH; [done | done | by rewrite Ho].
Qed.

Lemma extract_all_inv names acc w r w' :
  extract_all names acc w = (r, w') →
  oltp w' = oltp w ∧ dwh w' = dwh w ∧ dm_sales_seq w' = dm_sales_seq w
  ∧ ∀ dataframes, r = Ok dataframes →
      trace w' = trace w ++ (omap (dict_get oltp_tables) names ≫= extraction_events)
      ∧ (NoDup names →
         (∀ n, n ∉ names → dataframes !! n = acc !! n)
         ∧ (∀ n physical, n ∈ names → dict_get oltp_tables n = Some physical →
                          is_Some (dataframes !! n)
                          ∧ dataframes !! n = oltp w !! physical)).
Proof.
  revert acc w. induction names as [|n names IH]; intros acc w Hrun.
  - injection Hrun as <- <-. repeat (split; [done|]). intros d [= <-].
    split; [by rewrite app_nil_r|]. intros _. split; [done|].
    intros n p Hn. by apply elem_of_nil in Hn.
  - simpl in Hrun. unfold bind in Hrun.
    destruct (extract_data n w) as [[df|e] w1] eqn:E.
    + destruct (extract_data_inv _ _ _ _ E) as (Ho & Hd & Hs & Hok).
      destruct (Hok df eq_refl) as (physical & Hp & Hdf & Ht).
      destruct (IH _ _ Hrun) as (Ho' & Hd' & Hs' & Hok').
      split; [congruence|]. split; [congruence|]. split; [congruence|].
      intros d ->. destruct (Hok' d eq_refl) as (Ht' & Hmaps). split.
      * rewrite Ht', Ht, <- app_assoc. f_equal.
        change (omap (dict_get oltp_tables) (n :: names))
          with (match dict_get oltp_tables n with
                | Some y => y :: omap (dict_get oltp_tables) names
                | None => omap (dict_get oltp_tables) names
                end).
        by rewrite Hp.
      * intros [Hnot Hnd]%NoDup_cons. destruct (Hmaps Hnd) as (Hout & Hin). split.
        -- intros m [Hne Hm]%not_elem_of_cons. rewrite (Hout m Hm).
           by rewrite lookup_insert_ne.
        -- intros m pm [->|Hm]%elem_of_cons Hpm.
           ++ rewrite (Hout n Hnot), lookup_insert_eq.
              split; [eauto | congruence].
           ++ rewrite <- Ho. by apply Hin.
    + injection Hrun as <- <-. destruct (extract_data_inv _ _ _ _ E) as (Ho & Hd & Hs & _).
      split; [done|]. split; [done|]. split; [done|]. intros d [=].
Qed.

(** X9. Both fact transforms begin by extracting every table of
    [oltp_tables], whether they join it or not.  They touch neither store;
    when [transform_fact_orders] returns, the run has read the nine source
    tables once each, in the order of [oltp_tables]; and when any one of
    the nine is missing from the source, both transforms raise. *)
Theorem fact_transforms_extract_every_table (w : world) :
  (∀ r w', transform_fact_orders w = (r, w') →
           oltp w' = oltp w ∧ dwh w' = dwh w
           ∧ ∀ out, r = Ok out →
               trace w' = trace w ++ (dict_values oltp_tables ≫= extraction_events))
  ∧ (∀ r w', transform_fact_order_items w = (r, w') →
             oltp w' = oltp w ∧ dwh w' = dwh w)
  ∧ (∀ table_name physical,
       dict_get oltp_tables table_name = Some physical → oltp w !! physical = None →
       ∃ e1 w1 e2 w2,
         transform_fact_orders w = (Raise e1, w1)
         ∧ transform_fact_order_items w = (Raise e2, w2)).
Proof.
  split; [|split].
  - intros r w'. unfold transform_fact_orders. cbv beta iota delta [bind lift].
    destruct (extract_all _ _ w) as [[d|e] w1] eqn:E;
      destruct (extract_all_inv _ _ _ _ _ E) as (Ho & Hd & _ & Hok).
    + destruct (Hok d eq_refl) as (Ht & _).
      destruct (join_fact_orders d); intros [= <- <-]; [|done].
      split; [done|]. split; [done|]. intros _ _. exact Ht.
    + intros [= <- <-]. done.
  - intros r w'. unfold transform_fact_order_items. cbv beta iota delta [bind lift].
    destruct (extract_all _ _ w) as [[d|e] w1] eqn:E;
      destruct (extract_all_inv _ _ _ _ _ E) as (Ho & Hd & _ & _).
    + destruct (join_fact_order_items d); by intros [= <- <-].
    + by intros [= <- <-].
  - intros table_name physical Hp Hnone.
    destruct (extract_all_missing (dict_keys oltp_tables) ∅ w table_name physical)
      as (e & w1 & E); [|done|done|].
    + apply dict_get_Some_elem in Hp. unfold dict_keys, dict_items in *.
      by apply (list_elem_of_fmap_2 fst) in Hp.
    + exists e, w1, e, w1. unfold transform_fact_orders, transform_fact_order_items.
      by rewrite !(bind_raise _ _ _ _ _ E).
Qed.

Lemma fact_transforms_extract_every_table_witness :
  (∃ out w', transform_fact_orders seeded_world = (Ok out, w')
             ∧ length (trace w') = 18%nat)
  ∧ (∃ e w', transform_fact_orders incomplete_world = (Raise e, w')).
Proof.
  split.
  - pose (out := match (transform_fact_orders seeded_world).1 with
                 | Ok df => df | Raise _ => mkFrame [] [] end).
    pose (w' := (transform_fact_orders seeded_world).2).
    assert (Hrun : transform_fact_orders seeded_world = (Ok out, w'))
      by (vm_compute; reflexivity).
    exists out, w'. split; [exact Hrun|].
    destruct (proj1 (fact_transforms_extract_every_table seeded_world) _ _ Hrun)
      as (_ & _ & Ht).
    rewrite (Ht out eq_refl). reflexivity.
  - destruct (proj2 (proj2 (fact_transforms_extract_every_table
                              incomplete_world))
                "products" "tb_products" eq_refl ltac:(vm_compute; reflexivity))
      as (e1 & w1 & _ & _ & H1 & _).
    exists e1, w1. exact H1.
Defined.

(** ** A missing source table *)

Lemma load_data_other_tables df table_name w r w' :
  load_data df table_name w = (r, w') →
  ∀ t, t ≠ table_name → dwh w' !! t = dwh w !! t.
Proof.
  intros Hrun t Hne. destruct r as [[]|e].
  - destruct (load_data_inv _ _ _ _ Hrun) as (key & T & i & p & ps & Hkey & HT & Hp & Hi & Hfresh).
    rewrite (load_data_spec df table_name key T i p ps w Hkey HT Hp Hi Hfresh) in Hrun.
    injection Hrun as <-. simpl. by rewrite lookup_insert_ne.
  - destruct (load_data_fails_closed_stores df table_name w e w' Hrun) as (_ & -> & _). done.
Qed.

Lemma etl_process_body_other_tables item w r w' :
  plain_item item → etl_process_body item w = (r, w') →
  oltp w' = oltp w ∧ ∀ t, t ≠ item.2 → dwh w' !! t = dwh w !! t.
Proof.
  intros Hplain Hrun. split.
  - by destruct (conservative_etl_process_body item w r w' Hrun).
  - rewrite (etl_process_body_plain item w Hplain) in Hrun.
    destruct (dict_get oltp_tables item.1) as [physical|]; [|by injection Hrun as _ <-].
    destruct (oltp w !! physical) as [df|]; [|by injection Hrun as _ <-].
    intros t Hne. by rewrite (load_data_other_tables _ _ _ _ _ Hrun t Hne).
Qed.

Lemma for_each_aborts items w item physical :
  item ∈ items → Forall plain_item items →
  dict_get oltp_tables item.1 = Some physical → oltp w !! physical = None →
  ∃ e w', for_each items etl_process_body w = (Raise e, w')
    ∧ ∀ t, t ∉ items.*2 → dwh w' !! t = dwh w !! t.
Proof.
  revert w. induction items as [|x items IH]; intros w Hin Hplain Hp Hnone;
    [by apply elem_of_nil in Hin|].
  apply Forall_cons in Hplain as [Hx Hplain]. simpl. unfold bind.
  destruct (etl_process_body x w) as [[[]|e] w1] eqn:E;
    destruct (etl_process_body_other_tables x w _ w1 Hx E) as (Ho & Hother).
  - assert (Hne : x ≠ item).
    { intros ->. rewrite (etl_process_body_plain item w Hx), Hp, Hnone in E. done. }
    apply elem_of_cons in Hin as [->|Hin]; [done|].
    destruct (IH w1 Hin Hplain Hp) as (e & w' & Hrun & Hrest); [by rewrite Ho|].
    exists e, w'. split; [done|].
    intros t [Hnx Ht]%not_elem_of_cons. rewrite (Hrest t Ht). by apply Hother.
  - exists e, w1. split; [done|].
    intros t [Hnx Ht]%not_elem_of_cons. by apply Hother.
Qed.

(** X10. When the source table of one of the items of [warehouse_tables]
    is missing, [etl_process] raises and stops before the mart, whatever
    the warehouse holds and wherever the run fails first: the mart
    statement is never sent and dm_sales is left exactly as it was, absent
    or with the rows of an earlier run. *)
Theorem etl_process_aborts_on_missing_source (w : world) (table_name physical : string) :
  table_name ∈ dict_keys warehouse_tables →
  dict_get oltp_tables table_name = Some physical →
  oltp w !! physical = None →
  ∃ e w' evs,
    etl_process w = (Raise e, w')
    ∧ trace w' = trace w ++ evs
    ∧ ("dm_sales" ∉ stages evs)
    ∧ dwh w' !! "dm_sales" = dwh w !! "dm_sales".
Proof.
  intros Hin Hp Hnone.
  apply list_elem_of_fmap in Hin as (item & -> & Hitem).
  destruct (create_tables w) as [[[]|e0] wa] eqn:Hcreate;
    destruct (create_tables_keeps_dm_sales w _ wa Hcreate) as [Hoa Hkeep];
    destruct (emits_create_tables w _ _ Hcreate) as (evs1 & Ht1 & Hs1).
  - destruct (for_each_aborts (dict_items warehouse_tables) wa item physical Hitem
                warehouse_items_plain Hp) as (e & wb & Hloop & Hrest); [by rewrite Hoa|].
    assert (Hrun : etl_process w = (Raise e, wb)).
    { unfold etl_process. rewrite (bind_ok _ _ _ _ _ Hcreate).
      by rewrite (bind_raise _ _ _ _ _ Hloop). }
    destruct (emits_for_each (dict_items warehouse_tables) etl_process_body
                (λ it, [it.2]) emits_etl_process_body wa _ _ Hloop) as (evs2 & Ht2 & Hs2).
    exists e, wb, (evs1 ++ evs2). split; [done|].
    split; [by rewrite Ht2, Ht1, app_assoc|]. split.
    + unfold stages in *. rewrite omap_app, Hs1. simpl.
      intros Hmart. destruct Hs2 as [k Hk].
      assert (Hmart' : "dm_sales" ∈ dict_items warehouse_tables ≫= λ it, [it.2])
        by (rewrite Hk; apply elem_of_app; by left).
      revert Hmart'. by_evaluation.
    + rewrite Hrest; [done | by_evaluation].
  - exists e0, wa, evs1. split; [|split; [done|split; [|done]]].
    + unfold etl_process. by rewrite (bind_raise _ _ _ _ _ Hcreate).
    + destruct Hs1 as [k Hk]. symmetry in Hk. apply app_eq_nil in Hk as [-> _].
      apply not_elem_of_nil.
Qed.

Lemma etl_process_aborts_on_missing_source_witness :
  ∃ e w', etl_process incomplete_world = (Raise e, w')
    ∧ dwh w' !! "dm_sales" = None
    ∧ is_Some (dwh w' !! "fact_orders").
Proof.
  destruct (etl_process_aborts_on_missing_source incomplete_world "products" "tb_products")
    as (e & w' & evs & Hrun & _ & _ & Hmart).
  - by_evaluation.
  - reflexivity.
  - vm_compute; reflexivity.
  - exists e, w'. split; [exact Hrun|]. split; [exact Hmart|].
    assert (Hw : w' = (etl_process incomplete_world).2) by (by rewrite Hrun).
    rewrite Hw. eexists. vm_compute. reflexivity.
Defined.

(** ** Columns that two joined frames share *)

Lemma last_char_suffix_y d : last_char (d +:+ "_y") = Some "y"%char.
Proof.
  induction d as [|a d IH]; [reflexivity|].
  change (String a d +:+ "_y") with (String a (d +:+ "_y")).
  destruct (d +:+ "_y") eqn:E; [by destruct d | exact IH].
Qed.

Lemma elem_of_delete_other {A} (l : list A) j k x :
  l !! k = Some x → k ≠ j → x ∈ delete j l.
Proof.
  intros Hk Hne. apply list_elem_of_lookup.
  destruct (decide (k < j)%nat).
  - exists k. by rewrite list_lookup_delete_lt.
  - exists (k - 1)%nat. rewrite list_lookup_delete_ge by lia.
    by replace (S (k - 1)) with k by lia.
Qed.

(** A label that both sides of a merge carry, other than the key, is no
    longer a label of the result. *)
Lemma merge_shared_label_gone L R J how on c :
  merge L R how on = Ok J →
  c ∈ columns L → c ∈ columns R → c ≠ on →
  last_char c ≠ Some "x"%char → last_char c ≠ Some "y"%char →
  c ∉ columns J.
Proof.
  intros HJ HcL HcR Hne Hx Hy.
  destruct (merge_inv L R J how on HJ) as (i & j & Hi & Hj & Hcols & _).
  assert (Hothers : c ∈ delete j (columns R)).
  { apply list_elem_of_lookup in HcR as [k Hk]. apply (elem_of_delete_other _ _ k); [done|].
    intros ->. apply Hne. assert (Hon : columns R !! j = Some on).
    { apply label_positions_lookup. rewrite Hj. left. }
    congruence. }
  rewrite Hcols. intros [Hin|Hin]%elem_of_app.
  - apply list_elem_of_fmap in Hin as (d & Hd & _). case_decide.
    + apply Hx. rewrite Hd. apply last_char_suffix_x.
    + by subst d.
  - apply list_elem_of_fmap in Hin as (d & Hd & _). case_decide.
    + apply Hy. rewrite Hd. apply last_char_suffix_y.
    + by subst d.
Qed.

(** A label of the left side alone stays a label of the result. *)
Lemma merge_left_label_kept L R J how on c :
  merge L R how on = Ok J → c ∈ columns L → c ∉ columns R → c ∈ columns J.
Proof.
  intros HJ HcL HcR.
  destruct (merge_inv L R J how on HJ) as (i & j & Hi & Hj & Hcols & _).
  rewrite Hcols. apply elem_of_app. left. apply list_elem_of_fmap. exists c.
  split; [|done]. rewrite decide_False; [done|].
  intros Hin. apply HcR. by eapply elem_of_delete_elem.
Qed.

(** X11. [transform_fact_order_items] has no rename step, so it cannot
    return when the extracted order_items and products both carry
    product_discount (or both carry product_price) and orders does not:
    the merge on product_id suffixes the shared label on both sides, the
    joined frame no longer has a column under the declared name, and the
    final selection raises [KeyError].  This is the layout of
    fact_order_items and dim_product in the warehouse itself. *)
Theorem transform_fact_order_items_shared_columns
    (w w1 : world) (dataframes : gmap string DataFrame) (OI O P : DataFrame) (c : string) :
  extract_all (dict_keys oltp_tables) ∅ w = (Ok dataframes, w1) →
  dataframes !! "order_items" = Some OI → dataframes !! "orders" = Some O →
  dataframes !! "products" = Some P →
  c = "product_discount" ∨ c = "product_price" →
  c ∈ columns OI → c ∉ columns O → c ∈ columns P →
  ∃ e, transform_fact_order_items w = (Raise e, w1)
       ∧ ∀ joined, join_fact_order_items dataframes = Ok joined →
                   (c ∉ columns joined) ∧ ∃ missing, e = KeyError missing.
Proof.
  intros Hex HOI HO HP Hc HcOI HcO HcP.
  assert (Hdeclared : ∃ declared, dict_get dimension_columns "fact_order_items" = Some declared
                                  ∧ c ∈ declared).
  { eexists. split; [reflexivity|]. destruct Hc as [-> | ->]; by_evaluation. }
  destruct Hdeclared as (declared & Hdecl & Hin).
  assert (Hlast : last_char c ≠ Some "x"%char ∧ last_char c ≠ Some "y"%char ∧ c ≠ "product_id").
  { destruct Hc as [-> | ->]; done. }
  destruct Hlast as (Hx & Hy & Hne).
  unfold transform_fact_order_items. cbv beta iota delta [bind lift]. rewrite Hex.
  destruct (join_fact_order_items dataframes) as [joined|e] eqn:Hjoin.
  - unfold join_fact_order_items, getitem_dict in Hjoin.
    rewrite HOI, HO, HP in Hjoin. simpl in Hjoin.
    destruct (merge OI O HowInner "order_id") as [J1|] eqn:E1; [|done]. simpl in Hjoin.
    assert (Hgone : c ∉ columns joined).
    { apply (merge_shared_label_gone J1 P joined HowInner "product_id" c Hjoin); try done.
      by apply (merge_left_label_kept OI O J1 HowInner "order_id" c E1). }
    unfold getitem_declared. rewrite Hdecl. unfold getitem_cols.
    destruct (take_labels_missing (columns joined) declared) as (missing & _ & _ & ->).
    { intros Hsub. apply Hgone. by apply Hsub. }
    eexists. split; [done|]. intros j [= <-]. split; [done | eauto].
  - exists e. split; [done|]. intros j [=].
Qed.

Lemma transform_fact_order_items_shared_columns_witness :
  ∃ w1, transform_fact_order_items seeded_world = (Raise (KeyError "product_discount"), w1).
Proof.
  pose (run := extract_all (dict_keys oltp_tables) ∅ seeded_world).
  pose (dataframes := match run.1 with Ok d => d | Raise _ => ∅ end).
  assert (H1 : "product_discount" ∈ columns seeded_order_items) by by_evaluation.
  assert (H2 : "product_discount" ∉ columns seeded_orders) by by_evaluation.
  assert (H3 : "product_discount" ∈ columns seeded_products) by by_evaluation.
  destruct (transform_fact_order_items_shared_columns seeded_world run.2 dataframes
              seeded_order_items seeded_orders seeded_products "product_discount"
              ltac:(vm_compute; reflexivity) ltac:(vm_compute; reflexivity)
              ltac:(vm_compute; reflexivity) ltac:(vm_compute; reflexivity)
              (or_introl eq_refl) H1 H2 H3) as (e & Hrun & _).
  exists run.2.
  assert (He : e = KeyError "product_discount").
  { assert (Hfst : (transform_fact_order_items seeded_world).1 = Raise e)
      by (rewrite Hrun; reflexivity).
    vm_compute in Hfst. injection Hfst as <-. reflexivity. }
  rewrite <- He. exact Hrun.
Defined.

(** ** Cells through [transform_data] *)

(** X13. For a destination table, [transform_data] neither drops,
    reorders nor alters rows: the rows it returns correspond one to one, in
    order, to the rows it was given, each with the same cell under every
    declared column (the first column carrying the label, should several
    do). *)
Theorem transform_data_keeps_cells (df out : DataFrame) (target_table : string)
    (declared : list string) (w w' : world) :
  dict_get dimension_columns target_table = Some declared →
  transform_data df target_table w = (Ok out, w') →
  Forall2 (λ x r, ∀ c, c ∈ declared → field out c x = field df c r)
          (rows out) (rows df).
Proof.
  intros Hdecl. pose proof (dimension_columns_nonempty _ _ Hdecl) as Hne.
  unfold transform_data. rewrite Hdecl. destruct declared as [|c0 cs]; [done|].
  cbv beta iota delta [bind lift print emit ret]. unfold getitem_cols.
  destruct (take_labels (columns df) (c0 :: cs)) as [ps|] eqn:Eps; [|done].
  intros [= <- _]. simpl.
  apply Forall2_fmap_l, Forall_Forall2_diag, Forall_forall.
  intros r _ c Hc. unfold field; simpl. by apply (take_labels_cell _ (c0 :: cs)).
Qed.

Lemma transform_data_keeps_cells_witness :
  ∃ out w',
    transform_data wide_shippers "dim_shipper" seeded_world = (Ok out, w')
    ∧ rows out = [[VInt 1; VStr "kurir"]]
    ∧ Forall2 (λ x r, ∀ c, c ∈ ["shipper_id"; "shipper_name"] →
                           field out c x = field wide_shippers c r)
              (rows out) (rows wide_shippers).
Proof.
  pose (out := mkFrame ["shipper_id"; "shipper_name"] [[VInt 1; VStr "kurir"]]).
  pose (w' := (transform_data wide_shippers "dim_shipper" seeded_world).2).
  assert (Hrun : transform_data wide_shippers "dim_shipper" seeded_world = (Ok out, w'))
    by (vm_compute; reflexivity).
  exists out, w'. split; [exact Hrun|]. split; [reflexivity|].
  exact (transform_data_keeps_cells wide_shippers out "dim_shipper"
           ["shipper_id"; "shipper_name"] seeded_world w' eq_refl Hrun).
Defined.

(** ** Any number of runs *)

(** X14. After one run that returned, any number of further runs on the
    unchanged source return as well; after each of them the source store
    and every dimension and fact table are as the first run left them, and
    dm_sales has as many rows as after the first run. *)
Theorem rerun_stable (n : nat) (w w1 : world) :
  etl_process w = (Ok tt, w1) →
  ∃ wn, rerun n w1 = (Ok tt, wn)
    ∧ oltp wn = oltp w
    ∧ (∀ t, t ∈ dict_values warehouse_tables → dwh wn !! t = dwh w1 !! t)
    ∧ length (table_rows wn "dm_sales") = length (table_rows w1 "dm_sales").
Proof.
  revert w w1. induction n as [|n IH]; intros w w1 Hrun;
    destruct (etl_process_rerun w w1 Hrun)
      as (tcols & selected & next & Ho & Hsel & Hm1 & Hrerun).
  - exists w1. done.
  - destruct (IH w1 _ Hrerun) as (wn & Hn & Hon & Htables & Hlen).
    exists wn. simpl. rewrite Hrerun. split; [exact Hn|].
    split; [congruence|]. split.
    + intros t Ht. rewrite (Htables t Ht). simpl. apply lookup_insert_ne.
      intros <-. revert Ht. by_evaluation.
    + rewrite Hlen. unfold table_rows. simpl.
      rewrite lookup_insert_eq, Hm1. simpl. by rewrite !length_mart_rows.
Qed.

Lemma rerun_stable_witness :
  ∃ w1 w4,
    etl_process voucher_world = (Ok tt, w1)
    ∧ rerun 3 w1 = (Ok tt, w4)
    ∧ length (table_rows w4 "dm_sales") = 1%nat.
Proof.
  pose (w1 := (etl_process voucher_world).2).
  assert (Hlen : length (table_rows w1 "dm_sales") = 1%nat) by (vm_compute; reflexivity).
  assert (Hrun : etl_process voucher_world = (Ok tt, w1)) by (vm_compute; reflexivity).
  destruct (rerun_stable 3 voucher_world w1 Hrun) as (w4 & H4 & _ & _ & Hsame).
  exists w1, w4. split; [exact Hrun|]. split; [exact H4|].
  rewrite Hsame. exact Hlen.
Defined.
